(** * dm-verity (Huawei venus kernel tree): read-time integrity verification

    A shallow embedding of the verification core of [drivers/md/dm-verity]
    as found in this tree: the geometry computed by [verity_ctr], the salted
    digest wrappers around the two hash transforms, the corruption policy
    [verity_handle_err], the hash-tree walk [verity_verify_level] /
    [verity_hash_for_block] and the per-request verifier [verity_verify_io].

    Conventions.
    - C integers are [Z]; every place where the C arithmetic can wrap is
      written with [u8], [u32] or [u64].
    - [sector_t] is 64 bits wide (arm64 build).
    - A computation returns [None] where the C program has no defined
      result: division by zero, a shift by 64 or more, or a loop that never
      exits.
    - Console logging ([DMERR], [pr_err], [printk]) changes nothing that the
      driver reads back and is left out. *)

From Stdlib Require Import ZArith Lia List Bool.
From Stdlib.Strings Require Import Byte.
From stdpp Require Import base tactics option list gmap.

#[local] Open Scope Z_scope.

(** ** Machine integers and errno values *)

Definition u8 (x : Z) : Z := x mod 2 ^ 8.
Definition u32 (x : Z) : Z := x mod 2 ^ 32.
Definition u64 (x : Z) : Z := x mod 2 ^ 64.

Definition EIO : Z := 5.
Definition E2BIG : Z := 7.
Definition ENOMEM : Z := 12.
Definition EINVAL : Z := 22.

Definition SECTOR_SHIFT : Z := 9.
Definition INT_MAX : Z := 2 ^ 31 - 1.

(** Kernel bit scans: index of the lowest and of the highest set bit. *)
Definition __ffs (x : Z) : Z := Z.log2 (Z.land x (- x)).
Definition __fls (x : Z) : Z := Z.log2 x.

#[global] Instance byte_eq_dec : EqDecision byte := Byte.byte_eq_dec.

(** [memcmp(a, b, n) == 0] *)
Definition memcmp_eq (a b : list byte) (n : Z) : bool :=
  bool_decide (take (Z.to_nat n) a = take (Z.to_nat n) b).

(** [memcpy(dst, src + off, n)] where [dst] is a scratch digest of [n] bytes:
    the new contents of [dst]. *)
Definition memcpy_from (src : list byte) (off n : Z) : list byte :=
  take (Z.to_nat n) (drop (Z.to_nat off) src).

(** ** Data model *)

Inductive verity_block_type : Set :=
  | DM_VERITY_BLOCK_TYPE_DATA
  | DM_VERITY_BLOCK_TYPE_METADATA.

Inductive verity_mode : Set :=
  | DM_VERITY_MODE_EIO
  | DM_VERITY_MODE_LOGGING
  | DM_VERITY_MODE_RESTART.

(** The two transforms held by [struct dm_verity]: [tfm_sha2ce] is tried
    first, [tfm_sha256] is the one used on a retry. *)
Inductive crypto_shash : Set :=
  | tfm_sha2ce
  | tfm_sha256.

#[global] Instance verity_block_type_eq_dec : EqDecision verity_block_type.
Proof. solve_decision. Defined.
#[global] Instance verity_mode_eq_dec : EqDecision verity_mode.
Proof. solve_decision. Defined.
#[global] Instance crypto_shash_eq_dec : EqDecision crypto_shash.
Proof. solve_decision. Defined.

(** The fields of [struct dm_verity] that are fixed once [verity_ctr] has
    returned.  [hash_failed], [corrupted_errs] and [verify_failed_flag]
    change at run time and live in the run-time state below. *)
Record dm_verity : Type := {
  version : Z;
  data_dev_block_bits : Z;
  hash_dev_block_bits : Z;
  hash_per_block_bits : Z;
  levels : Z;
  digest_size : Z;
  salt : list byte;
  root_digest : list byte;
  zero_digest : option (list byte);
  data_blocks : Z;
  hash_start : Z;
  hash_blocks : Z;
  hash_level_block : list Z;
  mode : verity_mode
}.

(** ** External collaborators

    The kernel crypto API, the forward-error-correction decoder, the hash
    device behind dm-bufio and the two build options the driver is
    conditional on.  None of them is part of the sources at hand; the driver
    is verified against any implementation of this interface.

    - [crypto_shash_init], [crypto_shash_update], [crypto_shash_final] return
      an [int]; a transform digests the bytes it has been fed since [init].
    - [fec_repair_buffer ty block data] and [fec_repair_bio ty block iter
      pages] are [Some] of the repaired bytes when the decoder returns 0, and
      [None] when it returns non-zero and has written nothing; [iter] is
      ([bi_size], [bi_idx], [bi_bvec_done]).
    - [hash_dev_read block] is the outcome of reading a hash device block
      that is not cached: an [ERR_PTR] errno or the block's bytes;
      [bufio_fresh_aux] is what the aux area of a new buffer holds before the
      allocation callback runs. *)
Record externals : Type := {
  crypto_shash_init_rc : crypto_shash → Z;
  crypto_shash_update_rc : crypto_shash → list byte → list byte → Z;
  crypto_shash_final_rc : crypto_shash → list byte → Z;
  crypto_shash_digest : crypto_shash → list byte → list byte;
  fec_repair_buffer : verity_block_type → Z → list byte → option (list byte);
  fec_repair_bio : verity_block_type → Z → nat * nat * nat →
                   list (list byte) → option (list (list byte));
  hash_dev_read : Z → Z + list byte;
  bufio_fresh_aux : Z;
  CONFIG_HUAWEI_DSM : bool;
  CONFIG_DM_VERITY_HW_RETRY : bool
}.

(** [struct shash_desc]: the transform in use and the bytes fed so far. *)
Record shash_desc : Type := {
  tfm : crypto_shash;
  fed : list byte
}.

(** ** Constructor arguments *)

(** The table line after tokenising: the numbers read by [sscanf], the
    decoded root digest and salt, and the optional feature arguments (the
    FEC ones are handled by the FEC module). *)
Inductive verity_opt : Set :=
  | DM_VERITY_OPT_LOGGING
  | DM_VERITY_OPT_RESTART
  | DM_VERITY_OPT_IGN_ZEROES.

Record verity_args : Type := {
  arg_version : Z;
  arg_data_block_size : Z;
  arg_hash_block_size : Z;
  arg_data_blocks : Z;
  arg_hash_start : Z;
  arg_root_digest : list byte;
  arg_salt : list byte;
  arg_opts : list verity_opt
}.

(** What the constructor learns from the rest of the kernel.
    [DM_VERITY_MAX_LEVELS] is declared in [dm-verity.h], which is not part of
    the sources at hand, and is therefore a parameter. *)
Record ctr_env : Type := {
  PAGE_SIZE : Z;
  DM_VERITY_MAX_LEVELS : Z;
  data_logical_block_size : Z;
  hash_logical_block_size : Z;
  ti_len : Z;
  shash_digestsize : Z;
  hash_dev_size : Z
}.

(** ** Run-time state *)

(** A dm-bufio buffer of the hash device with its [struct buffer_aux]. *)
Record buffer_aux : Type := { hash_verified : Z }.
Record dm_buffer : Type := { b_data : list byte; b_aux : buffer_aux }.

(** [struct bvec_iter] *)
Record bvec_iter : Type := {
  bi_size : nat;
  bi_idx : nat;
  bi_bvec_done : nat
}.

(** The mutable fields of [struct dm_verity], the NV item [VMODE], the
    dm-bufio cache, and one [struct dm_verity_io] with the payload of its
    bio (one byte list per [bio_vec]). *)
Record state : Type := {
  hash_failed : Z;
  corrupted_errs : Z;
  verify_failed_flag : Z;
  nve_vmode : option Z;
  bufio : gmap Z dm_buffer;
  io_desc : shash_desc;
  io_real_digest : list byte;
  io_want_digest : list byte;
  io_iter : bvec_iter;
  bio_pages : list (list byte)
}.

Definition set_hash_failed (x : Z) (s : state) : state :=
  {| hash_failed := x; corrupted_errs := corrupted_errs s;
     verify_failed_flag := verify_failed_flag s; nve_vmode := nve_vmode s;
     bufio := bufio s; io_desc := io_desc s;
     io_real_digest := io_real_digest s; io_want_digest := io_want_digest s;
     io_iter := io_iter s; bio_pages := bio_pages s |}.
Definition set_corrupted_errs (x : Z) (s : state) : state :=
  {| hash_failed := hash_failed s; corrupted_errs := x;
     verify_failed_flag := verify_failed_flag s; nve_vmode := nve_vmode s;
     bufio := bufio s; io_desc := io_desc s;
     io_real_digest := io_real_digest s; io_want_digest := io_want_digest s;
     io_iter := io_iter s; bio_pages := bio_pages s |}.
Definition set_verify_failed_flag (x : Z) (s : state) : state :=
  {| hash_failed := hash_failed s; corrupted_errs := corrupted_errs s;
     verify_failed_flag := x; nve_vmode := nve_vmode s;
     bufio := bufio s; io_desc := io_desc s;
     io_real_digest := io_real_digest s; io_want_digest := io_want_digest s;
     io_iter := io_iter s; bio_pages := bio_pages s |}.
Definition set_nve_vmode (x : option Z) (s : state) : state :=
  {| hash_failed := hash_failed s; corrupted_errs := corrupted_errs s;
     verify_failed_flag := verify_failed_flag s; nve_vmode := x;
     bufio := bufio s; io_desc := io_desc s;
     io_real_digest := io_real_digest s; io_want_digest := io_want_digest s;
     io_iter := io_iter s; bio_pages := bio_pages s |}.
Definition set_bufio (x : gmap Z dm_buffer) (s : state) : state :=
  {| hash_failed := hash_failed s; corrupted_errs := corrupted_errs s;
     verify_failed_flag := verify_failed_flag s; nve_vmode := nve_vmode s;
     bufio := x; io_desc := io_desc s;
     io_real_digest := io_real_digest s; io_want_digest := io_want_digest s;
     io_iter := io_iter s; bio_pages := bio_pages s |}.
Definition set_io_desc (x : shash_desc) (s : state) : state :=
  {| hash_failed := hash_failed s; corrupted_errs := corrupted_errs s;
     verify_failed_flag := verify_failed_flag s; nve_vmode := nve_vmode s;
     bufio := bufio s; io_desc := x;
     io_real_digest := io_real_digest s; io_want_digest := io_want_digest s;
     io_iter := io_iter s; bio_pages := bio_pages s |}.
Definition set_io_real_digest (x : list byte) (s : state) : state :=
  {| hash_failed := hash_failed s; corrupted_errs := corrupted_errs s;
     verify_failed_flag := verify_failed_flag s; nve_vmode := nve_vmode s;
     bufio := bufio s; io_desc := io_desc s;
     io_real_digest := x; io_want_digest := io_want_digest s;
     io_iter := io_iter s; bio_pages := bio_pages s |}.
Definition set_io_want_digest (x : list byte) (s : state) : state :=
  {| hash_failed := hash_failed s; corrupted_errs := corrupted_errs s;
     verify_failed_flag := verify_failed_flag s; nve_vmode := nve_vmode s;
     bufio := bufio s; io_desc := io_desc s;
     io_real_digest := io_real_digest s; io_want_digest := x;
     io_iter := io_iter s; bio_pages := bio_pages s |}.
Definition set_io_iter (x : bvec_iter) (s : state) : state :=
  {| hash_failed := hash_failed s; corrupted_errs := corrupted_errs s;
     verify_failed_flag := verify_failed_flag s; nve_vmode := nve_vmode s;
     bufio := bufio s; io_desc := io_desc s;
     io_real_digest := io_real_digest s; io_want_digest := io_want_digest s;
     io_iter := x; bio_pages := bio_pages s |}.
Definition set_bio_pages (x : list (list byte)) (s : state) : state :=
  {| hash_failed := hash_failed s; corrupted_errs := corrupted_errs s;
     verify_failed_flag := verify_failed_flag s; nve_vmode := nve_vmode s;
     bufio := bufio s; io_desc := io_desc s;
     io_real_digest := io_real_digest s; io_want_digest := io_want_digest s;
     io_iter := io_iter s; bio_pages := x |}.

(** ** Observable events

    Calls that leave the verification core, plus two markers: [EvHash] at the
    point where the driver starts hashing the content of a block with a given
    transform, and [EvHandleErr] at the entry of [verity_handle_err]. *)
Inductive dsm_code : Set :=
  | DSM_DM_VERITY_CE_ERROR_NO
  | DSM_DM_VERITY_FEC_INFO_NO
  | DSM_DM_VERITY_ERROR_NO.

Inductive event : Type :=
  | EvBufioRead (block : Z)
  | EvBufioRelease (block : Z)
  | EvHash (ty : verity_block_type) (block : Z) (t : crypto_shash)
  | EvFecDecode (ty : verity_block_type) (block : Z)
  | EvHandleErr (ty : verity_block_type) (block : Z)
  | EvUevent (ty : verity_block_type) (block : Z)
  | EvDsm (ty : verity_block_type) (block : Z) (code : dsm_code)
  | EvWriteHwHashErrNv (value : Z)
  | EvPrintBlockData (block : Z) (data : list byte).


Definition is_attempt (ty : verity_block_type) (e : event) : bool :=
  match e with
  | EvHash ty' _ _ | EvFecDecode ty' _ | EvHandleErr ty' _ =>
      bool_decide (ty' = ty)
  | _ => false
  end.

Definition is_bufio_read (e : event) : bool :=
  match e with EvBufioRead _ => true | _ => false end.

(** ** The monad of the driver: state, event log, and [None] for a run
    that does not return. *)
Definition M (A : Type) : Type := state → option (A * state * list event).

Definition ret {A} (a : A) : M A := λ s, Some (a, s, []).

Definition bind {A B} (m : M A) (k : A → M B) : M B :=
  λ s, match m s with
       | None => None
       | Some (a, s1, t1) =>
           match k a s1 with
           | None => None
           | Some (b, s2, t2) => Some (b, s2, t1 ++ t2)
           end
       end.

Definition get : M state := λ s, Some (s, s, []).
Definition modify (f : state → state) : M unit := λ s, Some (tt, f s, []).
Definition tell (t : list event) : M unit := λ s, Some (tt, s, t).
Definition diverge {A} : M A := λ _, None.
Definition when (b : bool) (m : M unit) : M unit := if b then m else ret tt.


Declare Scope verity_scope.
Delimit Scope verity_scope with verity.
Notation "'let*' x := m 'in' k" := (bind m (λ x, k))
  (at level 10, x pattern, m at level 100, k at level 200) : verity_scope.
Notation "m ;;; k" := (bind m (λ _, k))
  (at level 100, right associativity) : verity_scope.
#[local] Open Scope verity_scope.

Section Driver.

Context (X : externals).

(** ** Digest engine *)

Definition crypto_shash_init (desc : shash_desc) : Z * shash_desc :=
  (crypto_shash_init_rc X (tfm desc), {| tfm := tfm desc; fed := [] |}).

Definition crypto_shash_update (desc : shash_desc) (data : list byte)
  : Z * shash_desc :=
  (crypto_shash_update_rc X (tfm desc) (fed desc) data,
   {| tfm := tfm desc; fed := fed desc ++ data |}).

Definition crypto_shash_final (desc : shash_desc) : Z * list byte :=
  (crypto_shash_final_rc X (tfm desc) (fed desc),
   crypto_shash_digest X (tfm desc) (fed desc)).

(** Wrapper for [crypto_shash_init], which handles verity salting. *)
Definition verity_hash_init (v : dm_verity) (desc : shash_desc) (count : Z)
  : Z * shash_desc :=
  let desc := {| tfm := if count =? 0 then tfm_sha2ce else tfm_sha256;
                 fed := fed desc |} in
  let '(r, desc) := crypto_shash_init desc in
  if r <? 0 then (r, desc) else
  if 1 <=? version v then
    let '(r, desc) := crypto_shash_update desc (salt v) in
    if r <? 0 then (r, desc) else (0, desc)
  else (0, desc).

Definition verity_hash_update (v : dm_verity) (desc : shash_desc)
  (data : list byte) : Z * shash_desc :=
  crypto_shash_update desc data.

(** Returns the return code, the descriptor and the bytes written to
    [digest]. *)
Definition verity_hash_final (v : dm_verity) (desc : shash_desc)
  : Z * shash_desc * option (list byte) :=
  if version v =? 0 then
    let '(r, desc) := crypto_shash_update desc (salt v) in
    if r <? 0 then (r, desc, None) else
    let '(r, d) := crypto_shash_final desc in (r, desc, Some d)
  else
    let '(r, d) := crypto_shash_final desc in (r, desc, Some d).

Definition verity_hash_sel_sha (v : dm_verity) (desc : shash_desc)
  (data : list byte) (count : Z) : Z * shash_desc * option (list byte) :=
  let '(r, desc) := verity_hash_init v desc count in
  if r <? 0 then (r, desc, None) else
  let '(r, desc) := verity_hash_update v desc data in
  if r <? 0 then (r, desc, None) else
  verity_hash_final v desc.

Definition verity_hash (v : dm_verity) (desc : shash_desc) (data : list byte)
  : Z * shash_desc * option (list byte) :=
  let '(r, desc) := verity_hash_init v desc 0 in
  if r <? 0 then (r, desc, None) else
  let '(r, desc) := verity_hash_update v desc data in
  if r <? 0 then (r, desc, None) else
  verity_hash_final v desc.

(** ** Geometry: the numeric part of [verity_ctr] *)

(** [verity_alloc_zero_digest]: the digest of a data block of zero bytes,
    computed with a descriptor of its own. *)
Definition verity_alloc_zero_digest (v : dm_verity) : Z * list byte :=
  let zero_data := replicate (Z.to_nat (Z.shiftl 1 (data_dev_block_bits v))) x00 in
  let '(r, _, d) := verity_hash v {| tfm := tfm_sha2ce; fed := [] |} zero_data in
  (r, default [] d).

(** [verity_parse_opt_args]: the return code, the mode and the zero digest
    after the optional arguments. *)
Fixpoint verity_parse_opt_args (os : list verity_opt) (v : dm_verity)
  (m : verity_mode) (zd : option (list byte))
  : Z * verity_mode * option (list byte) :=
  match os with
  | [] => (0, m, zd)
  | DM_VERITY_OPT_LOGGING :: os' =>
      verity_parse_opt_args os' v DM_VERITY_MODE_LOGGING zd
  | DM_VERITY_OPT_RESTART :: os' =>
      verity_parse_opt_args os' v DM_VERITY_MODE_RESTART zd
  | DM_VERITY_OPT_IGN_ZEROES :: os' =>
      let '(r, d) := verity_alloc_zero_digest v in
      if negb (r =? 0) then (r, m, Some d)
      else verity_parse_opt_args os' v m (Some d)
  end.

(** [while (hash_per_block_bits * levels < 64 &&
           (unsigned long long)(data_blocks - 1) >> (hash_per_block_bits * levels))
      levels++;]
    [levels] is an [unsigned char]. *)
Fixpoint levels_loop (fuel : nat) (hpb db lv : Z) : option Z :=
  if (hpb * lv <? 64) && negb (Z.shiftr (u64 (db - 1)) (hpb * lv) =? 0)
  then match fuel with
       | O => None
       | S fuel' => levels_loop fuel' hpb db (u8 (lv + 1))
       end
  else Some lv.

(** With at least two digests per hash block the loop above leaves after at
    most 64 increments. *)
Definition levels_fuel : nat := 64.

Definition compute_levels (hpb db : Z) : option Z :=
  if db =? 0 then Some 0 else levels_loop levels_fuel hpb db 0.

(** [for (i = levels - 1; i >= 0; i--)]: the argument [n] is [i + 1].
    Result: an errno, or the final [hash_position] and the filled table. *)
Fixpoint hash_level_loop (n : nat) (hpb db hash_position : Z) (hlb : list Z)
  : option (Z + Z * list Z) :=
  match n with
  | O => Some (inr (hash_position, hlb))
  | S i =>
      let sh := (Z.of_nat i + 1) * hpb in
      if (sh <? 0) || (64 <=? sh) then None else
      let hlb' := <[ i := hash_position ]> hlb in
      let s := Z.shiftr (u64 (u64 (db + u64 (Z.shiftl 1 sh)) - 1)) sh in
      if u64 (hash_position + s) <? hash_position then Some (inl (- E2BIG))
      else hash_level_loop i hpb db (u64 (hash_position + s)) hlb'
  end.

(** [verity_ctr] on a tokenised table line.  The checks on the table itself
    (read-only mode, argument count) and the steps that acquire resources
    (allocation, device lookup, transform allocation, dm-bufio client, work
    queue, FEC set-up) are taken to succeed; their failure only adds error
    returns.  [Some (inl r)] is the [goto bad] exit with
    return value [r]; [Some (inr v)] is the structure filled in so far.

    First part: everything up to and including the optional arguments.
    [hash_per_block_bits], [levels], [hash_blocks] and [hash_level_block] are
    still zero (kzalloc). *)
Definition verity_ctr_args (e : ctr_env) (a : verity_args)
  : option (Z + dm_verity) :=
  if 1 <? arg_version a then Some (inl (- EINVAL)) else
  let num := arg_data_block_size a in
  if (num =? 0) || negb (Z.land num (num - 1) =? 0)
     || (num <? data_logical_block_size e) || (PAGE_SIZE e <? num)
  then Some (inl (- EINVAL)) else
  let dbits := __ffs num in
  let num := arg_hash_block_size a in
  if (num =? 0) || negb (Z.land num (num - 1) =? 0)
     || (num <? hash_logical_block_size e) || (INT_MAX <? num)
  then Some (inl (- EINVAL)) else
  let hbits := __ffs num in
  if (dbits <? SECTOR_SHIFT) || (hbits <? SECTOR_SHIFT) then None else
  let num_ll := arg_data_blocks a in
  if negb (Z.shiftr (u64 (Z.shiftl num_ll (dbits - SECTOR_SHIFT)))
                    (dbits - SECTOR_SHIFT) =? num_ll)
  then Some (inl (- EINVAL)) else
  let db := num_ll in
  if u64 (Z.shiftl db (dbits - SECTOR_SHIFT)) <? ti_len e
  then Some (inl (- EINVAL)) else
  let num_ll := arg_hash_start a in
  if negb (Z.shiftr (u64 (Z.shiftl num_ll (hbits - SECTOR_SHIFT)))
                    (hbits - SECTOR_SHIFT) =? num_ll)
  then Some (inl (- EINVAL)) else
  let hs := num_ll in
  let dsz := shash_digestsize e in
  if Z.shiftl 1 hbits <? u32 (dsz * 2) then Some (inl (- EINVAL)) else
  if negb (Z.of_nat (length (arg_root_digest a)) =? dsz)
  then Some (inl (- EINVAL)) else
  let v0 := {| version := arg_version a;
               data_dev_block_bits := dbits; hash_dev_block_bits := hbits;
               hash_per_block_bits := 0; levels := 0;
               digest_size := dsz; salt := arg_salt a;
               root_digest := arg_root_digest a; zero_digest := None;
               data_blocks := db; hash_start := hs; hash_blocks := 0;
               hash_level_block :=
                 replicate (Z.to_nat (DM_VERITY_MAX_LEVELS e)) 0;
               mode := DM_VERITY_MODE_EIO |} in
  let '(r, m, zd) :=
    verity_parse_opt_args (arg_opts a) v0 DM_VERITY_MODE_EIO None in
  if r <? 0 then Some (inl r) else
  Some (inr {| version := version v0;
               data_dev_block_bits := dbits; hash_dev_block_bits := hbits;
               hash_per_block_bits := 0; levels := 0;
               digest_size := dsz; salt := salt v0;
               root_digest := root_digest v0; zero_digest := zd;
               data_blocks := db; hash_start := hs; hash_blocks := 0;
               hash_level_block := hash_level_block v0;
               mode := m |}).

(** Second part: [hash_per_block_bits], [levels], the level offsets and the
    size check of the hash device. *)
Definition verity_ctr_tree (e : ctr_env) (v : dm_verity)
  : option (Z + dm_verity) :=
  let dsz := digest_size v in
  let hbits := hash_dev_block_bits v in
  if dsz =? 0 then None else
  if Z.shiftl 1 hbits / dsz =? 0 then None else
  let hpb := __fls (Z.shiftl 1 hbits / dsz) in
  match compute_levels hpb (data_blocks v) with
  | None => None
  | Some lv =>
      if DM_VERITY_MAX_LEVELS e <? lv then Some (inl (- E2BIG)) else
      match hash_level_loop (Z.to_nat lv) hpb (data_blocks v) (hash_start v)
              (hash_level_block v) with
      | None => None
      | Some (inl r) => Some (inl r)
      | Some (inr (hash_position, hlb)) =>
          if hash_dev_size e <? hash_position then Some (inl (- E2BIG)) else
          Some (inr {| version := version v;
                       data_dev_block_bits := data_dev_block_bits v;
                       hash_dev_block_bits := hbits;
                       hash_per_block_bits := hpb;
                       levels := lv;
                       digest_size := dsz;
                       salt := salt v;
                       root_digest := root_digest v;
                       zero_digest := zero_digest v;
                       data_blocks := data_blocks v;
                       hash_start := hash_start v;
                       hash_blocks := hash_position;
                       hash_level_block := hlb;
                       mode := mode v |})
      end
  end.

Definition verity_ctr (e : ctr_env) (a : verity_args)
  : option (Z + dm_verity) :=
  match verity_ctr_args e a with
  | Some (inr v) => verity_ctr_tree e v
  | r => r
  end.

(** ** Hash-tree addressing *)

(** Return hash position of a specified block at a specified tree level
    (0 is the lowest level). *)
Definition verity_position_at_level (v : dm_verity) (block level : Z) : Z :=
  Z.shiftr block (level * hash_per_block_bits v).

(** [*hash_block] and [*offset] *)
Definition verity_hash_at_level (v : dm_verity) (block level : Z) : Z * Z :=
  let position := verity_position_at_level v block level in
  let hash_block :=
    u64 (hash_level_block v !!! Z.to_nat level
         + Z.shiftr position (hash_per_block_bits v)) in
  let idx := u32 (Z.land position (Z.shiftl 1 (hash_per_block_bits v) - 1)) in
  let offset :=
    if version v =? 0 then u32 (idx * digest_size v)
    else u32 (Z.shiftl idx (hash_dev_block_bits v - hash_per_block_bits v)) in
  (hash_block, offset).

(** ** dm-bufio *)

(** Initialize [struct buffer_aux] for a freshly created buffer. *)
Definition dm_bufio_alloc_callback (buf : dm_buffer) : dm_buffer :=
  {| b_data := b_data buf; b_aux := {| hash_verified := 0 |} |}.

(** Modelled from the spec: the buffer cache collaborator ([readBlock],
    [release]); dm-bufio itself is not part of the sources.  A cached block is
    returned as it is; otherwise the block is read from the hash device into
    a new buffer, on which the allocation callback has run. *)
Definition dm_bufio_read (block : Z) : M (Z + dm_buffer) :=
  tell [EvBufioRead block] ;;;
  let* s := get in
  match bufio s !! block with
  | Some buf => ret (inr buf)
  | None =>
      match hash_dev_read X block with
      | inl e => ret (inl e)
      | inr data =>
          let buf :=
            dm_bufio_alloc_callback
              {| b_data := data;
                 b_aux := {| hash_verified := bufio_fresh_aux X |} |} in
          modify (set_bufio (<[ block := buf ]> (bufio s))) ;;;
          ret (inr buf)
      end
  end.

Definition dm_bufio_release (block : Z) : M unit :=
  tell [EvBufioRelease block].

(** The buffer behind the pointers [data] and [aux] of [verity_verify_level]. *)
Definition buffer_at (s : state) (block : Z) : dm_buffer :=
  default {| b_data := []; b_aux := {| hash_verified := 0 |} |}
          (bufio s !! block).

(** [aux->hash_verified = 1] *)
Definition mark_verified (block : Z) (s : state) : state :=
  set_bufio (<[ block := {| b_data := b_data (buffer_at s block);
                            b_aux := {| hash_verified := 1 |} |} ]> (bufio s)) s.

Definition write_buffer (block : Z) (data : list byte) (s : state) : state :=
  set_bufio (<[ block := {| b_data := data;
                            b_aux := b_aux (buffer_at s block) |} ]> (bufio s)) s.

(** ** Telemetry (CONFIG_HUAWEI_DSM) *)

Definition HASH_ERR_VALUE : Z := 1.

Definition verity_dsm (ty : verity_block_type) (block : Z) (code : dsm_code)
  : M unit :=
  when (CONFIG_HUAWEI_DSM X) (tell [EvDsm ty block code]).

Definition write_hw_hash_err_nv (value : Z) : M unit :=
  when (CONFIG_HUAWEI_DSM X) (tell [EvWriteHwHashErrNv value]).

Definition print_block_data (block : Z) (data : list byte) (len : Z) : M unit :=
  when (CONFIG_HUAWEI_DSM X)
       (tell [EvPrintBlockData block (take (Z.to_nat len) data)]).

(** ** Corruption policy *)

Definition DM_VERITY_MAX_CORRUPTED_ERRS : Z := 100.
Definition DM_MAX_ERR_COUNT : Z := 4.

(** The NV item [VMODE] behind [hisi_nve_direct_access]; [None] when the NV
    partition cannot be accessed. *)
Definition verity_read_nv : M Z :=
  let* s := get in
  match nve_vmode s with
  | None => ret (-1)
  | Some x => ret (u8 x)
  end.

Definition verity_write_nv (value : Z) : M Z :=
  let* s := get in
  match nve_vmode s with
  | None => ret (- EIO)
  | Some _ => modify (set_nve_vmode (Some (u8 value))) ;;; ret 0
  end.

(** Handle verification errors. *)
Definition verity_handle_err (v : dm_verity) (ty : verity_block_type)
  (block : Z) : M Z :=
  tell [EvHandleErr ty block] ;;;
  (* Corruption should be visible in device status in all modes *)
  modify (set_hash_failed 1) ;;;
  let* s := get in
  if DM_VERITY_MAX_CORRUPTED_ERRS <=? corrupted_errs s then ret 1 else
  modify (set_corrupted_errs (u32 (corrupted_errs s + 1))) ;;;
  tell [EvUevent ty block] ;;;
  if bool_decide (mode v = DM_VERITY_MODE_LOGGING) then ret 0 else
  if bool_decide (mode v = DM_VERITY_MODE_RESTART) then
    if CONFIG_DM_VERITY_HW_RETRY X then
      let* value := verity_read_nv in
      if value <? 0 then ret 0 else
      if DM_MAX_ERR_COUNT =? value then ret 1 else
      let* s := get in
      (if verify_failed_flag s =? 0 then
         let value := if DM_MAX_ERR_COUNT <=? value
                      then DM_MAX_ERR_COUNT else value + 1 in
         let* _ := verity_write_nv value in
         modify (set_verify_failed_flag 1)
       else ret tt) ;;;
      ret 0
    else ret 0
  else ret 1.

(** ** Level verifier *)

Definition engine_of (count : Z) : crypto_shash :=
  if count =? 0 then tfm_sha2ce else tfm_sha256.

(** A digest wrapper run on the descriptor and the real-digest scratch area
    of the io. *)
Definition on_io_desc (f : shash_desc → Z * shash_desc) : M Z :=
  let* s := get in
  let '(r, desc) := f (io_desc s) in
  modify (set_io_desc desc) ;;; ret r.

Definition on_io_digest
  (f : shash_desc → Z * shash_desc * option (list byte)) : M Z :=
  let* s := get in
  let '(r, desc, d) := f (io_desc s) in
  modify (set_io_desc desc) ;;;
  match d with
  | Some d => modify (set_io_real_digest d)
  | None => ret tt
  end ;;;
  ret r.

(** Modelled from the spec: the FEC collaborator
    [repair(blockType, blockNumber, bufferInPlace, segmentIterator)]; the
    decoder is not part of the sources.  With a buffer it repairs the cached
    hash block in place, with an iterator it repairs the payload of the bio
    from that position on. *)
Inductive fec_dest : Type :=
  | FecBuffer (hash_block : Z)
  | FecIter (iter : bvec_iter).

Definition verity_fec_decode (ty : verity_block_type) (block : Z)
  (dest : fec_dest) : M Z :=
  tell [EvFecDecode ty block] ;;;
  let* s := get in
  match dest with
  | FecBuffer hb =>
      match fec_repair_buffer X ty block (b_data (buffer_at s hb)) with
      | Some data => modify (write_buffer hb data) ;;; ret 0
      | None => ret (- EIO)
      end
  | FecIter it =>
      match fec_repair_bio X ty block (bi_size it, bi_idx it, bi_bvec_done it)
              (bio_pages s) with
      | Some pages => modify (set_bio_pages pages) ;;; ret 0
      | None => ret (- EIO)
      end
  end.

(** The part of [verity_verify_level] from [LABEL] to the end of the
    [if (!aux->hash_verified)] block.  [Some r] stands for
    [goto release_ret_r] with that [r], [None] for falling through to the
    [memcpy]. *)
Fixpoint verify_level_LABEL (fuel : nat) (v : dm_verity) (hash_block : Z)
  (want_digest : list byte) (retry_count : Z) : M (option Z) :=
  match fuel with
  | O => diverge
  | S fuel' =>
      let* s := get in
      let data := b_data (buffer_at s hash_block) in
      tell [EvHash DM_VERITY_BLOCK_TYPE_METADATA hash_block
              (engine_of retry_count)] ;;;
      let* r := on_io_digest (λ desc,
                  verity_hash_sel_sha v desc
                    (take (Z.to_nat (Z.shiftl 1 (hash_dev_block_bits v))) data)
                    retry_count) in
      if r <? 0 then ret (Some r) else
      let* s := get in
      if memcmp_eq (io_real_digest s) want_digest (digest_size v) then
        modify (mark_verified hash_block) ;;;
        (if negb (retry_count =? 0) then
           (* soft hash OK while first ce hard hash fail *)
           verity_dsm DM_VERITY_BLOCK_TYPE_METADATA hash_block
             DSM_DM_VERITY_CE_ERROR_NO ;;;
           write_hw_hash_err_nv HASH_ERR_VALUE
         else ret tt) ;;;
        ret None
      else
        (* hash fail *)
        let retry_count := u32 (retry_count + 1) in
        if retry_count =? 1 then
          verify_level_LABEL fuel' v hash_block want_digest retry_count
        else
          let* f := verity_fec_decode DM_VERITY_BLOCK_TYPE_METADATA hash_block
                      (FecBuffer hash_block) in
          if f =? 0 then
            (* fec success *)
            verity_dsm DM_VERITY_BLOCK_TYPE_METADATA hash_block
              DSM_DM_VERITY_FEC_INFO_NO ;;;
            modify (mark_verified hash_block) ;;;
            ret None
          else
            let* e := verity_handle_err v DM_VERITY_BLOCK_TYPE_METADATA
                        hash_block in
            if negb (e =? 0) then
              (* ce&soft hash fail, fec fail *)
              let* s := get in
              print_block_data hash_block (io_real_digest s) (digest_size v) ;;;
              print_block_data hash_block want_digest (digest_size v) ;;;
              verity_dsm DM_VERITY_BLOCK_TYPE_METADATA hash_block
                DSM_DM_VERITY_ERROR_NO ;;;
              ret (Some (- EIO))
            else
              (* verity_handle_err success *)
              ret None
  end.

(** Two passes through [LABEL] are all the code can make. *)
Definition retry_fuel : nat := 2.

(** Verify hash of a metadata block pertaining to the specified data block
    ("block" argument) at a specified level ("level" argument).  The result
    is the return value and the contents of [want_digest] on return.

    If "skip_unverified" is true, unverified buffer is skipped and 1 is
    returned. *)
Definition verity_verify_level (v : dm_verity) (block level : Z)
  (skip_unverified : bool) (want_digest : list byte) : M (Z * list byte) :=
  let '(hash_block, offset) := verity_hash_at_level v block level in
  let* data := dm_bufio_read hash_block in
  match data with
  | inl e => ret (e, want_digest)
  | inr buf =>
      let* r :=
        (if hash_verified (b_aux buf) =? 0 then
           if skip_unverified then ret (Some 1)
           else verify_level_LABEL retry_fuel v hash_block want_digest 0
         else ret None) in
      match r with
      | Some r => dm_bufio_release hash_block ;;; ret (r, want_digest)
      | None =>
          let* s := get in
          let want_digest :=
            memcpy_from (b_data (buffer_at s hash_block)) offset
                        (digest_size v) in
          dm_bufio_release hash_block ;;; ret (0, want_digest)
      end
  end.

(** ** Expected digest of a data block *)

(** [for (i = v->levels - 1; i >= 0; i--)]; [n] is [i + 1] and [r] the
    current value of the variable [r]. *)
Fixpoint hash_for_block_loop (n : nat) (v : dm_verity) (block : Z) (r : Z)
  (digest : list byte) : M (Z * list byte) :=
  match n with
  | O => ret (r, digest)
  | S i =>
      let* (r, digest) :=
        verity_verify_level v block (Z.of_nat i) false digest in
      if negb (r =? 0) then ret (r, digest)
      else hash_for_block_loop i v block r digest
  end.

Definition hash_for_block_out (v : dm_verity) (r : Z) (digest : list byte)
  : M (Z * list byte * bool) :=
  match zero_digest v with
  | Some zd =>
      if r =? 0 then ret (r, digest, memcmp_eq zd digest (digest_size v))
      else ret (r, digest, false)
  | None => ret (r, digest, false)
  end.

(** Find a hash for a given block, write it to digest and verify the
    integrity of the hash tree if necessary.  The result is the return value,
    the contents of [digest] and [*is_zero]. *)
Definition verity_hash_for_block (v : dm_verity) (block : Z)
  (digest : list byte) : M (Z * list byte * bool) :=
  let* (r, digest, done) :=
    (if negb (levels v =? 0) then
       let* (r, digest) := verity_verify_level v block 0 true digest in
       ret (r, digest, r <=? 0)
     else ret (0, digest, false)) in
  if (done : bool) then hash_for_block_out v r digest else
  let digest := memcpy_from (root_digest v) 0 (digest_size v) in
  let* (r, digest) :=
    hash_for_block_loop (Z.to_nat (levels v)) v block r digest in
  hash_for_block_out v r digest.

(** ** Walking the payload of a bio *)

(** Modelled from the spec: the request collaborator's iterator "yielding
    contiguous byte segments in order, rewindable to a saved position"
    ([bio_iter_iovec], [bio_advance_iter]; the bio helpers are not part of
    the sources).  The current segment is identified by its index and the
    offset already consumed in it; its length is capped by [bi_size]. *)
Definition bio_iter_iovec (pages : list (list byte)) (iter : bvec_iter)
  : nat * nat * nat :=
  (bi_idx iter, bi_bvec_done iter,
   Nat.min (bi_size iter)
           (length (pages !!! bi_idx iter) - bi_bvec_done iter))%nat.

(** Advancing by [bytes], which never exceeds what is left of the current
    segment. *)
Definition bio_advance_iter (pages : list (list byte)) (iter : bvec_iter)
  (bytes : nat) : bvec_iter :=
  if (bytes =? 0)%nat then iter else
  let done := (bi_bvec_done iter + bytes)%nat in
  if (done =? length (pages !!! bi_idx iter))%nat
  then {| bi_size := bi_size iter - bytes; bi_idx := S (bi_idx iter);
          bi_bvec_done := 0 |}
  else {| bi_size := bi_size iter - bytes; bi_idx := bi_idx iter;
          bi_bvec_done := done |}.

(** The [do ... while (todo)] loop of [verity_for_bv_block] on a local copy
    of the iterator; [process] receives the segment index, the offset in it
    and the length. *)
Fixpoint for_bv_block_loop (fuel : nat) (process : nat → nat → nat → M Z)
  (iter : bvec_iter) (todo : nat) : M (Z * bvec_iter) :=
  match fuel with
  | O => diverge
  | S fuel' =>
      let* s := get in
      let '(idx, off, len) := bio_iter_iovec (bio_pages s) iter in
      let len := if (todo <=? len)%nat then todo else len in
      let* r := process idx off len in
      if r <? 0 then ret (r, iter) else
      let* s := get in
      let iter := bio_advance_iter (bio_pages s) iter len in
      let todo := (todo - len)%nat in
      if (todo =? 0)%nat then ret (0, iter)
      else for_bv_block_loop fuel' process iter todo
  end.

(** Calls function process for [1 << v->data_dev_block_bits] bytes in the
    bio_vec starting from iter.  Every pass over a non-empty segment lowers
    [todo], so [todo] passes suffice unless the loop never ends. *)
Definition verity_for_bv_block (v : dm_verity) (iter : bvec_iter)
  (process : nat → nat → nat → M Z) : M (Z * bvec_iter) :=
  let todo := Z.to_nat (u32 (Z.shiftl 1 (data_dev_block_bits v))) in
  for_bv_block_loop (S todo) process iter todo.

Definition verity_bv_hash_update (v : dm_verity) (idx off len : nat) : M Z :=
  let* s := get in
  let data := take len (drop off (bio_pages s !!! idx)) in
  on_io_desc (λ desc, verity_hash_update v desc data).

(** [memset(data, 0, len)] *)
Definition verity_bv_zero (idx off len : nat) : M Z :=
  modify (λ s,
    let page := bio_pages s !!! idx in
    set_bio_pages
      (<[ idx := take off page ++ replicate len x00
                 ++ drop (off + len) page ]> (bio_pages s)) s) ;;;
  ret 0.

(** ** Verifying one io *)

(** The body of the [for] loop of [verity_verify_io] from [LABEL] on, for
    the data block [cur] = [io->block + b].  [Some r] stands for [return r],
    [None] for going on with the next block. *)
Fixpoint verify_io_LABEL (fuel : nat) (v : dm_verity) (cur : Z)
  (retry_count : Z) (start_retry : bvec_iter) : M (option Z) :=
  match fuel with
  | O => diverge
  | S fuel' =>
      let* s := get in
      let* (r, want, is_zero) :=
        verity_hash_for_block v cur (io_want_digest s) in
      modify (set_io_want_digest want) ;;;
      if r <? 0 then ret (Some r) else
      if (is_zero : bool) then
        (* If we expect a zero block, don't validate, just return zeros. *)
        let* s := get in
        let* (r, iter) := verity_for_bv_block v (io_iter s) verity_bv_zero in
        modify (set_io_iter iter) ;;;
        if r <? 0 then ret (Some r) else ret None
      else
      tell [EvHash DM_VERITY_BLOCK_TYPE_DATA cur (engine_of retry_count)] ;;;
      let* r := on_io_desc (λ desc, verity_hash_init v desc retry_count) in
      if r <? 0 then ret (Some r) else
      let* (r, start, start_retry) :=
        (if retry_count =? 0 then
           let* s := get in
           let start := io_iter s in
           let* (r, iter) :=
             verity_for_bv_block v (io_iter s) (verity_bv_hash_update v) in
           modify (set_io_iter iter) ;;;
           ret (r, start, start)
         else
           (* retry *)
           let* (r, _) :=
             verity_for_bv_block v start_retry (verity_bv_hash_update v) in
           ret (r, start_retry, start_retry)) in
      if r <? 0 then ret (Some r) else
      let* r := on_io_digest (λ desc, verity_hash_final v desc) in
      if r <? 0 then ret (Some r) else
      let* s := get in
      if memcmp_eq (io_real_digest s) (io_want_digest s) (digest_size v) then
        (if negb (retry_count =? 0) then
           (* soft hash OK while first ce hard hash fail *)
           verity_dsm DM_VERITY_BLOCK_TYPE_DATA cur DSM_DM_VERITY_CE_ERROR_NO ;;;
           write_hw_hash_err_nv HASH_ERR_VALUE
         else ret tt) ;;;
        ret None
      else
        (* hash fail *)
        let retry_count := u32 (retry_count + 1) in
        if retry_count =? 1 then
          verify_io_LABEL fuel' v cur retry_count start_retry
        else
          let* f := verity_fec_decode DM_VERITY_BLOCK_TYPE_DATA cur
                      (FecIter start) in
          if f =? 0 then
            (* fec success *)
            verity_dsm DM_VERITY_BLOCK_TYPE_DATA cur DSM_DM_VERITY_FEC_INFO_NO ;;;
            ret None
          else
            let* e := verity_handle_err v DM_VERITY_BLOCK_TYPE_DATA cur in
            if negb (e =? 0) then
              (* ce&soft hash fail, fec fail *)
              let* s := get in
              print_block_data cur (io_real_digest s) (digest_size v) ;;;
              print_block_data cur (io_want_digest s) (digest_size v) ;;;
              verity_dsm DM_VERITY_BLOCK_TYPE_DATA cur DSM_DM_VERITY_ERROR_NO ;;;
              ret (Some (- EIO))
            else
              (* verity_handle_err success *)
              ret None
  end.

(** One pass of [for (b = 0; b < io->n_blocks; b++)]. *)
Definition verify_io_block (v : dm_verity) (block b : Z) : M (option Z) :=
  let* s := get in
  verify_io_LABEL retry_fuel v (u64 (block + b)) 0 (io_iter s).

Fixpoint verify_io_loop (n : nat) (v : dm_verity) (block b : Z) : M Z :=
  match n with
  | O => ret 0
  | S n' =>
      let* r := verify_io_block v block b in
      match r with
      | Some r => ret r
      | None => verify_io_loop n' v block (u32 (b + 1))
      end
  end.

(** Verify one "dm_verity_io" structure: the blocks
    [block .. block + n_blocks - 1], read through [io->iter]. *)
Definition verity_verify_io (v : dm_verity) (block n_blocks : Z) : M Z :=
  verify_io_loop (Z.to_nat n_blocks) v block 0.

End Driver.

(** ** A test double for the collaborators

    Both transforms digest a message to its first [n] bytes padded with
    zeros; no repair is available; the hash device is empty. *)
Definition toy_digest (n : nat) (msg : list byte) : list byte :=
  take n (msg ++ replicate n x00).

Definition toy_externals : externals :=
  {| crypto_shash_init_rc := λ _, 0;
     crypto_shash_update_rc := λ _ _ _, 0;
     crypto_shash_final_rc := λ _ _, 0;
     crypto_shash_digest := λ _, toy_digest 32;
     fec_repair_buffer := λ _ _ _, None;
     fec_repair_bio := λ _ _ _ _, None;
     hash_dev_read := λ _, inl (- EIO);
     bufio_fresh_aux := 7;
     CONFIG_HUAWEI_DSM := true;
     CONFIG_DM_VERITY_HW_RETRY := true |}.

(** The concrete scenario of the specification: 4 KiB data and hash blocks,
    32-byte digests, 1024 data blocks. *)
Definition env_4k : ctr_env :=
  {| PAGE_SIZE := 4096; DM_VERITY_MAX_LEVELS := 63;
     data_logical_block_size := 512; hash_logical_block_size := 512;
     ti_len := 8192; shash_digestsize := 32; hash_dev_size := 1000000 |}.

Definition args_4k (hs : Z) : verity_args :=
  {| arg_version := 1; arg_data_block_size := 4096;
     arg_hash_block_size := 4096; arg_data_blocks := 1024;
     arg_hash_start := hs; arg_root_digest := replicate 32 x00;
     arg_salt := []; arg_opts := [] |}.


(** A two-level target in logging mode, with one cached, unverified block of
    level 0 whose digest is [x5a] followed by 31 times [x11]. *)
Definition v_4k : dm_verity :=
  {| version := 1; data_dev_block_bits := 12; hash_dev_block_bits := 12;
     hash_per_block_bits := 7; levels := 2; digest_size := 32;
     salt := [x5a]; root_digest := replicate 32 x01; zero_digest := None;
     data_blocks := 1024; hash_start := 0; hash_blocks := 9;
     hash_level_block := 1 :: 0 :: replicate 61 0;
     mode := DM_VERITY_MODE_LOGGING |}.

Definition buf_x11 : dm_buffer :=
  {| b_data := replicate 4096 x11; b_aux := {| hash_verified := 0 |} |}.

Definition st_meta : state :=
  {| hash_failed := 0; corrupted_errs := 0; verify_failed_flag := 0;
     nve_vmode := Some 0; bufio := {[ 1 := buf_x11 ]};
     io_desc := {| tfm := tfm_sha2ce; fed := [] |};
     io_real_digest := replicate 32 x00; io_want_digest := replicate 32 x00;
     io_iter := {| bi_size := 0; bi_idx := 0; bi_bvec_done := 0 |};
     bio_pages := [] |}.

Definition st_full : state := set_corrupted_errs 100 st_meta.

(** A target of one 512-byte data block whose root digest is the zero
    digest, and an io over that block. *)
Definition env_one : ctr_env :=
  {| PAGE_SIZE := 4096; DM_VERITY_MAX_LEVELS := 63;
     data_logical_block_size := 512; hash_logical_block_size := 512;
     ti_len := 1; shash_digestsize := 32; hash_dev_size := 100 |}.

Definition args_one : verity_args :=
  {| arg_version := 1; arg_data_block_size := 512;
     arg_hash_block_size := 512; arg_data_blocks := 1;
     arg_hash_start := 0; arg_root_digest := replicate 32 x00;
     arg_salt := []; arg_opts := [DM_VERITY_OPT_IGN_ZEROES] |}.

Definition v_zero : dm_verity :=
  {| version := 1; data_dev_block_bits := 9; hash_dev_block_bits := 9;
     hash_per_block_bits := 4; levels := 0; digest_size := 32;
     salt := []; root_digest := replicate 32 x00;
     zero_digest := Some (replicate 32 x00);
     data_blocks := 1; hash_start := 0; hash_blocks := 0;
     hash_level_block := replicate 63 0;
     mode := DM_VERITY_MODE_EIO |}.

(** The same target without the zero digest, in logging mode. *)
Definition v_root : dm_verity :=
  {| version := 1; data_dev_block_bits := 9; hash_dev_block_bits := 9;
     hash_per_block_bits := 4; levels := 0; digest_size := 32;
     salt := []; root_digest := replicate 32 x00; zero_digest := None;
     data_blocks := 1; hash_start := 0; hash_blocks := 0;
     hash_level_block := replicate 63 0;
     mode := DM_VERITY_MODE_LOGGING |}.

Definition st_io : state :=
  {| hash_failed := 0; corrupted_errs := 0; verify_failed_flag := 0;
     nve_vmode := Some 0; bufio := ∅;
     io_desc := {| tfm := tfm_sha2ce; fed := [] |};
     io_real_digest := replicate 32 x00; io_want_digest := replicate 32 x00;
     io_iter := {| bi_size := 512; bi_idx := 0; bi_bvec_done := 0 |};
     bio_pages := [replicate 512 x07] |}.

(** ** Specification predicates *)

(** [L] levels suffice for [db] data blocks: [hpb * L >= 64], or
    [(db - 1) >> (hpb * L) == 0]. *)
Definition covers (hpb db L : Z) : Prop :=
  64 ≤ hpb * L ∨ Z.shiftr (db - 1) (hpb * L) = 0.

(** [L] is the smallest such number. *)
Definition smallest_covering (hpb db L : Z) : Prop :=
  0 ≤ L ∧ covers hpb db L ∧ ∀ L', 0 ≤ L' < L → ¬ covers hpb db L'.

(** The fixed order of attempts on one block: primary transform, fallback
    transform, FEC decoder, corruption policy. *)
Definition attempt_sequence (ty : verity_block_type) (block : Z) : list event :=
  [EvHash ty block tfm_sha2ce; EvHash ty block tfm_sha256;
   EvFecDecode ty block; EvHandleErr ty block].

(** The [hash_verified] flags only ever go up: a cached buffer stays cached
    with its flag unchanged or set to 1, and a buffer that enters the cache
    has its flag at 0 or 1. *)
Definition flags_monotone (s s' : state) : Prop :=
  ∀ hb,
    match bufio s !! hb with
    | Some b =>
        ∃ b', bufio s' !! hb = Some b'
              ∧ (hash_verified (b_aux b') = hash_verified (b_aux b)
                 ∨ hash_verified (b_aux b') = 1)
    | None =>
        ∀ b', bufio s' !! hb = Some b' →
              hash_verified (b_aux b') = 0 ∨ hash_verified (b_aux b') = 1
    end.

(** The outcome of one hash attempt on [content] with the transform selected
    by [count]: the return code and the digest if one was produced.  The
    descriptor an attempt starts from is immaterial, since
    [verity_hash_init] resets it. *)
Definition digest_of (X : externals) (v : dm_verity) (count : Z)
  (content : list byte) : Z * option (list byte) :=
  let '(r, _, d) :=
    verity_hash_sel_sha X v {| tfm := tfm_sha2ce; fed := [] |} content count in
  (r, d).

(** The attempt went through and its digest differs from [want]. *)
Definition digest_mismatch (X : externals) (v : dm_verity) (count : Z)
  (content want : list byte) : Prop :=
  ∃ r d, digest_of X v count content = (r, Some d) ∧ 0 ≤ r
         ∧ memcmp_eq d want (digest_size v) = false.

Section BioLayout.

#[local] Open Scope nat_scope.

(** The position of an iterator as an offset into the payload of the bio
    laid out flat, and what [verity_map] guarantees about an iterator: no
    empty segment, a position inside the current segment, and [bi_size]
    bytes left at most. *)
Definition flat_pos (pages : list (list byte)) (iter : bvec_iter) : nat :=
  length (concat (take (bi_idx iter) pages)) + bi_bvec_done iter.

Definition bio_wf (pages : list (list byte)) (iter : bvec_iter) : Prop :=
  Forall (λ p, p ≠ []) pages
  ∧ (bi_idx iter < length pages →
     bi_bvec_done iter < length (pages !!! bi_idx iter))
  ∧ flat_pos pages iter + bi_size iter ≤ length (concat pages).

(** The pages after [memset(page + off, 0, len)] on segment [idx]. *)
Definition zero_chunk (pages : list (list byte)) (idx off len : nat)
  : list (list byte) :=
  let page := pages !!! idx in
  <[ idx := take off page ++ replicate len x00 ++ drop (off + len) page ]> pages.

End BioLayout.

(** A run keeps the relation [R] between the state before and after, and
    logs only events satisfying [T]. *)
Definition run_keeps (R : state → state → Prop) (T : event → Prop) {A}
  (m : M A) : Prop :=
  ∀ s a s' t, m s = Some (a, s', t) → R s s' ∧ Forall T t.

(** [T] admits every event about blocks of type [ty]. *)
Definition run_logs_ok (T : event → Prop) (ty : verity_block_type) : Prop :=
  ∀ b, (∀ t, T (EvHash ty b t)) ∧ T (EvFecDecode ty b) ∧ T (EvHandleErr ty b)
       ∧ T (EvUevent ty b) ∧ (∀ c, T (EvDsm ty b c)).

(** The byte string the specification prescribes for a digest of [content]:
    salt first from format version 1 on, salt last in format version 0. *)
Definition salted (v : dm_verity) (content : list byte) : list byte :=
  if 1 <=? version v then salt v ++ content else content ++ salt v.

(** ** Further specification predicates *)

(** The number of hash blocks of tree level [i]: the data blocks divided by
    the number of data blocks one hash block of that level covers, rounded
    up. *)
Definition level_blocks (hpb db : Z) (i : Z) : Z :=
  Z.shiftr (db + 2 ^ ((i + 1) * hpb) - 1) ((i + 1) * hpb).

(** A data block of zero bytes. *)
Definition zero_block (v : dm_verity) : list byte :=
  replicate (Z.to_nat (2 ^ data_dev_block_bits v)) x00.

#[global] Instance verity_opt_eq_dec : EqDecision verity_opt.
Proof. solve_decision. Defined.

(** One corruption event handled by the policy, as a step between driver
    states. *)
Definition handle_err_step (X : externals) (v : dm_verity) (s s' : state)
  : Prop :=
  ∃ ty block r t, verity_handle_err X v ty block s = Some (r, s', t).

(** What a run of corruption events does to the NV item [VMODE], starting
    from the value [x]: the item holds [x], or it holds [x + 1] capped at
    [DM_MAX_ERR_COUNT] and the driver remembers having written it. *)
Definition vmode_bumped_once (x : Z) (s : state) : Prop :=
  nve_vmode s = Some x
  ∨ (nve_vmode s = Some (Z.min (x + 1) DM_MAX_ERR_COUNT)
     ∧ verify_failed_flag s ≠ 0).

(** The two-level target in restart mode. *)
Definition v_restart : dm_verity :=
  {| version := 1; data_dev_block_bits := 12; hash_dev_block_bits := 12;
     hash_per_block_bits := 7; levels := 2; digest_size := 32;
     salt := [x5a]; root_digest := replicate 32 x01; zero_digest := None;
     data_blocks := 1024; hash_start := 0; hash_blocks := 9;
     hash_level_block := 1 :: 0 :: replicate 61 0;
     mode := DM_VERITY_MODE_RESTART |}.

(** The attempt by the transform selected by [count] went through and its
    digest equals [want]. *)
Definition digest_match (X : externals) (v : dm_verity) (count : Z)
  (content want : list byte) : Prop :=
  ∃ r d, digest_of X v count content = (r, Some d) ∧ 0 ≤ r
         ∧ memcmp_eq d want (digest_size v) = true.

(** The buffer a read of hash block [hb] yields: the cached one, or a new
    one with the content of the hash device and the flag at 0. *)
Definition tree_block (X : externals) (s : state) (hb : Z)
  : option dm_buffer :=
  match bufio s !! hb with
  | Some buf => Some buf
  | None =>
      match hash_dev_read X hb with
      | inr data => Some {| b_data := data; b_aux := {| hash_verified := 0 |} |}
      | inl _ => None
      end
  end.

(** The hash blocks of data block [block] at the levels below [n] form a
    consistent path from the digest [d] down to the digest [d'] of the data
    block: each block can be read, is already verified or has the digest the
    level above expects, and holds the expected digest of the level below. *)
Fixpoint path_verifies (X : externals) (v : dm_verity) (block : Z) (s : state)
  (n : nat) (d d' : list byte) : Prop :=
  match n with
  | O => d' = d
  | S i =>
      let '(hb, offset) := verity_hash_at_level v block (Z.of_nat i) in
      ∃ buf, tree_block X s hb = Some buf
             ∧ (hash_verified (b_aux buf) ≠ 0
                ∨ digest_match X v 0
                    (take (Z.to_nat (Z.shiftl 1 (hash_dev_block_bits v)))
                          (b_data buf)) d)
             ∧ path_verifies X v block s i
                 (memcpy_from (b_data buf) offset (digest_size v)) d'
  end.

(** Between two states every readable hash block stays readable, keeps its
    content, and stays verified if it was. *)
Definition tree_refines (X : externals) (s s' : state) : Prop :=
  ∀ hb buf, tree_block X s hb = Some buf →
    ∃ buf', tree_block X s' hb = Some buf' ∧ b_data buf' = b_data buf
            ∧ (hash_verified (b_aux buf) ≠ 0 → hash_verified (b_aux buf') ≠ 0).

(** Nothing but the buffer cache and the hashing scratch area changed. *)
Definition policy_untouched (s s' : state) : Prop :=
  hash_failed s' = hash_failed s ∧ corrupted_errs s' = corrupted_errs s
  ∧ verify_failed_flag s' = verify_failed_flag s
  ∧ nve_vmode s' = nve_vmode s
  ∧ bio_pages s' = bio_pages s ∧ io_iter s' = io_iter s.

(** A two-level target without salt whose root digest is the digest of a
    hash block of [x11] bytes, and a state that caches such a block for both
    levels. *)
Definition v_tree : dm_verity :=
  {| version := 1; data_dev_block_bits := 12; hash_dev_block_bits := 12;
     hash_per_block_bits := 7; levels := 2; digest_size := 32;
     salt := []; root_digest := replicate 32 x11; zero_digest := None;
     data_blocks := 1024; hash_start := 0; hash_blocks := 9;
     hash_level_block := 1 :: 0 :: replicate 61 0;
     mode := DM_VERITY_MODE_EIO |}.

Definition st_tree : state :=
  {| hash_failed := 0; corrupted_errs := 0; verify_failed_flag := 0;
     nve_vmode := Some 0; bufio := {[ 0 := buf_x11; 1 := buf_x11 ]};
     io_desc := {| tfm := tfm_sha2ce; fed := [] |};
     io_real_digest := replicate 32 x00; io_want_digest := replicate 32 x00;
     io_iter := {| bi_size := 4096; bi_idx := 0; bi_bvec_done := 0 |};
     bio_pages := [replicate 4096 x11] |}.

Definition is_bufio_release (e : event) : bool :=
  match e with EvBufioRelease _ => true | _ => false end.


(** The transforms report no error. *)
Definition crypto_no_error (X : externals) : Prop :=
  (∀ t, 0 ≤ crypto_shash_init_rc X t)
  ∧ (∀ t f d, 0 ≤ crypto_shash_update_rc X t f d)
  ∧ (∀ t f, 0 ≤ crypto_shash_final_rc X t f).

(** The level-0 hash block of data block [cur] is cached and verified, and
    stores [want] as the digest of [cur]. *)
Definition digest_cached (v : dm_verity) (s : state) (cur : Z)
  (want : list byte) : Prop :=
  ∃ buf, bufio s !! (verity_hash_at_level v cur 0).1 = Some buf
         ∧ hash_verified (b_aux buf) ≠ 0
         ∧ want = memcpy_from (b_data buf) (verity_hash_at_level v cur 0).2
                    (digest_size v).

(** [*is_zero] for the expected digest [want]. *)
Definition is_zero_digest (v : dm_verity) (want : list byte) : bool :=
  match zero_digest v with
  | Some zd => memcmp_eq zd want (digest_size v)
  | None => false
  end.

(** The two-level target with its level-0 block verified, over a payload
    that matches the stored digest and over one that does not. *)
Definition st_tree_verified : state := mark_verified 1 st_tree.


(** Data block [block + b] of an io is expected, cached in the tree, not a
    zero block, and the [b]-th block of the payload after position [P]
    hashes to the expected digest under the primary transform. *)
Definition block_intact (X : externals) (v : dm_verity) (s : state)
  (block : Z) (P : nat) (b : Z) : Prop :=
  let bs := Z.to_nat (u32 (Z.shiftl 1 (data_dev_block_bits v))) in
  ∃ want,
    digest_cached v s (u64 (block + b)) want
    ∧ is_zero_digest v want = false
    ∧ memcmp_eq
        (crypto_shash_digest X tfm_sha2ce
           (salted v (take bs (drop (P + Z.to_nat b * bs)%nat
                                    (concat (bio_pages s))))))
        want (digest_size v) = true.

(** ** Prefetch *)





(** ** Mapping a bio *)









(** The reads of a full walk over the [n] lowest levels for data block
    [block]: one hash block per level, the highest level first. *)
Definition walk_reads (v : dm_verity) (block : Z) (n : nat) : list event :=
  (λ i, EvBufioRead (verity_hash_at_level v block (Z.of_nat i)).1)
    <$> rev (seq 0 n).

(** ** Status *)



(** ** Queue limits *)



(** * Proofs *)

(** ** Machine arithmetic *)

Lemma u64_small x : 0 ≤ x < 2 ^ 64 → u64 x = x.
Proof. intros. unfold u64. apply Z.mod_small. lia. Qed.

Lemma u8_small x : 0 ≤ x < 2 ^ 8 → u8 x = x.
Proof. intros. unfold u8. apply Z.mod_small. lia. Qed.

Lemma u64_range x : 0 ≤ u64 x < 2 ^ 64.
Proof. unfold u64. apply Z.mod_pos_bound. lia. Qed.

(** The overflow test on a [%llu] argument leaves a number that fits the
    shifted 64-bit range. *)
Lemma shift_check_range x k :
  0 ≤ k → Z.shiftr (u64 (Z.shiftl x k)) k = x → 0 ≤ x ∧ x * 2 ^ k < 2 ^ 64.
Proof.
  intros Hk H. pose proof (u64_range (Z.shiftl x k)) as Hr.
  rewrite Z.shiftr_div_pow2 in H by done.
  assert (0 < 2 ^ k) by (apply Z.pow_pos_nonneg; lia).
  assert (Hx : 0 ≤ x) by (rewrite <- H; apply Z.div_pos; lia).
  split; [done|].
  assert (x * 2 ^ k ≤ u64 (Z.shiftl x k)); [|lia].
  rewrite <- H at 1. rewrite Z.mul_comm. apply Z.mul_div_le. lia.
Qed.

(** ** Geometry *)

Lemma levels_loop_no_exit fuel db lv :
  Z.shiftr (u64 (db - 1)) 0 ≠ 0 → levels_loop fuel 0 db lv = None.
Proof.
  intros Hne. revert lv.
  induction fuel as [|fuel IH]; intros lv; cbn [levels_loop];
    change (0 * lv) with 0;
    destruct (Z.eqb_spec (Z.shiftr (u64 (db - 1)) 0) 0); try done.
  cbn. apply IH.
Qed.

Lemma levels_loop_spec fuel hpb db lv L :
  0 ≤ hpb → 0 ≤ lv ≤ 64 →
  levels_loop fuel hpb db lv = Some L →
  lv ≤ L ≤ 64
  ∧ (64 ≤ hpb * L ∨ Z.shiftr (u64 (db - 1)) (hpb * L) = 0)
  ∧ ∀ L', lv ≤ L' < L →
      hpb * L' < 64 ∧ Z.shiftr (u64 (db - 1)) (hpb * L') ≠ 0.
Proof.
  intros Hhpb. revert lv.
  induction fuel as [|fuel IH]; intros lv Hlv; cbn [levels_loop];
    destruct (Z.ltb_spec (hpb * lv) 64) as [Hlt|Hge];
    destruct (Z.eqb_spec (Z.shiftr (u64 (db - 1)) (hpb * lv)) 0) as [Hz|Hnz];
    cbn [andb negb]; intros H; try discriminate;
    try (injection H as <-; split; [lia|]; split; [auto; lia|]; intros; lia).
  destruct (Z.eq_dec hpb 0) as [->|Hpos].
  { rewrite levels_loop_no_exit in H; [done|]. by rewrite Z.mul_0_l in Hnz. }
  assert (lv < 64) by nia.
  rewrite u8_small in H by lia.
  apply IH in H as (Hle & Hstop & Hmin); [|lia].
  split; [lia|]. split; [done|].
  intros L' HL'. destruct (Z.eq_dec L' lv) as [->|]; [done|]. apply Hmin. lia.
Qed.


Lemma levels_loop_more_fuel fuel fuel' hpb db lv L :
  (fuel ≤ fuel')%nat →
  levels_loop fuel hpb db lv = Some L → levels_loop fuel' hpb db lv = Some L.
Proof.
  revert fuel' lv. induction fuel as [|fuel IH]; intros fuel' lv Hf; cbn [levels_loop].
  - destruct fuel'; cbn [levels_loop]; destruct (_ && _); done.
  - destruct fuel' as [|fuel']; [lia|]. cbn [levels_loop].
    destruct (_ && _); [|done]. apply IH. lia.
Qed.

Lemma compute_levels_spec hpb db L :
  0 ≤ hpb → 1 ≤ db < 2 ^ 64 → compute_levels hpb db = Some L →
  0 ≤ L ≤ 64 ∧ smallest_covering hpb db L.
Proof.
  intros Hhpb Hdb. unfold compute_levels.
  destruct (Z.eqb_spec db 0); [lia|]. intros H.
  apply levels_loop_spec in H as (Hle & Hstop & Hmin); [|lia..].
  rewrite u64_small in Hstop by lia.
  split; [lia|]. split; [lia|]. split; [exact Hstop|].
  intros L' HL' [Hc|Hc]; destruct (Hmin L' ltac:(lia)) as [? Hn]; [lia|].
  rewrite u64_small in Hn by lia. done.
Qed.



(** Case analysis on the tests of the constructor. *)
Ltac ctr_cases :=
  repeat match goal with
         | |- context [if ?b then _ else _] =>
             let E := fresh "E" in destruct b eqn:E; try discriminate
         | |- context [let '(_, _) := ?p in _] =>
             let E := fresh "E" in destruct p eqn:E
         | |- context [match ?o with Some _ => _ | None => _ end] =>
             let E := fresh "E" in destruct o eqn:E; try discriminate
         | |- context [match ?o with inl _ => _ | inr _ => _ end] =>
             let E := fresh "E" in destruct o eqn:E; try discriminate
         end.

Section GeometryProofs.

Context (X : externals).

Lemma verity_ctr_args_inv e a v :
  verity_ctr_args X e a = Some (inr v) →
  version v = arg_version a
  ∧ data_dev_block_bits v = __ffs (arg_data_block_size a)
  ∧ hash_dev_block_bits v = __ffs (arg_hash_block_size a)
  ∧ SECTOR_SHIFT ≤ data_dev_block_bits v
  ∧ SECTOR_SHIFT ≤ hash_dev_block_bits v
  ∧ data_blocks v = arg_data_blocks a
  ∧ (0 ≤ data_blocks v
     ∧ data_blocks v * 2 ^ (data_dev_block_bits v - SECTOR_SHIFT) < 2 ^ 64)
  ∧ hash_start v = arg_hash_start a
  ∧ (0 ≤ hash_start v
     ∧ hash_start v * 2 ^ (hash_dev_block_bits v - SECTOR_SHIFT) < 2 ^ 64)
  ∧ digest_size v = shash_digestsize e
  ∧ u32 (digest_size v * 2) ≤ Z.shiftl 1 (hash_dev_block_bits v)
  ∧ root_digest v = arg_root_digest a
  ∧ Z.of_nat (length (root_digest v)) = digest_size v
  ∧ salt v = arg_salt a
  ∧ hash_level_block v = replicate (Z.to_nat (DM_VERITY_MAX_LEVELS e)) 0.
Proof.
  unfold verity_ctr_args. ctr_cases. intros [= <-]. cbn.
  repeat match goal with
         | H : (_ || _) = false |- _ => apply orb_false_elim in H as [? ?]
         | H : negb _ = false |- _ => apply negb_false_iff in H
         | H : (_ =? _) = true |- _ => apply Z.eqb_eq in H
         | H : (_ <? _) = false |- _ => apply Z.ltb_ge in H
         end.
  repeat split; try done.
  all: match goal with
       | H : Z.shiftr (u64 (Z.shiftl ?x ?k)) ?k = ?x |- _ ≤ ?x =>
           apply (shift_check_range x k); [lia|done]
       | H : Z.shiftr (u64 (Z.shiftl ?x ?k)) ?k = ?x |- ?x * _ < _ =>
           apply (shift_check_range x k); [lia|done]
       end.
Qed.

Lemma verity_ctr_tree_inv e v0 v :
  verity_ctr_tree e v0 = Some (inr v) →
  hash_per_block_bits v =
    __fls (Z.shiftl 1 (hash_dev_block_bits v0) / digest_size v0)
  ∧ compute_levels (hash_per_block_bits v) (data_blocks v0) = Some (levels v)
  ∧ levels v ≤ DM_VERITY_MAX_LEVELS e
  ∧ hash_level_loop (Z.to_nat (levels v)) (hash_per_block_bits v)
      (data_blocks v0) (hash_start v0) (hash_level_block v0)
    = Some (inr (hash_blocks v, hash_level_block v))
  ∧ version v = version v0
  ∧ data_dev_block_bits v = data_dev_block_bits v0
  ∧ hash_dev_block_bits v = hash_dev_block_bits v0
  ∧ digest_size v = digest_size v0
  ∧ salt v = salt v0
  ∧ root_digest v = root_digest v0
  ∧ zero_digest v = zero_digest v0
  ∧ data_blocks v = data_blocks v0
  ∧ hash_start v = hash_start v0
  ∧ mode v = mode v0.
Proof.
  unfold verity_ctr_tree. ctr_cases. intros [= <-]. cbn.
  repeat match goal with
         | H : (_ <? _) = false |- _ => apply Z.ltb_ge in H
         end.
  repeat split; done.
Qed.

Lemma verity_ctr_inv e a v :
  verity_ctr X e a = Some (inr v) →
  ∃ v0, verity_ctr_args X e a = Some (inr v0) ∧ verity_ctr_tree e v0 = Some (inr v).
Proof.
  unfold verity_ctr. destruct (verity_ctr_args X e a) as [[r|v0]|]; [done| |done].
  eauto.
Qed.

End GeometryProofs.

Lemma shiftl_1_pow2 k : 0 ≤ k → Z.shiftl 1 k = 2 ^ k.
Proof. intros. rewrite Z.shiftl_mul_pow2 by done. lia. Qed.



(** C1, as amended.  With 4096-byte data and hash blocks, 32-byte digests
    and 1024 data blocks, an accepted configuration has
    [hash_per_block_bits = 7], [levels = 2], [hash_level_block[1]] equal to
    the hash start and [hash_level_block[0]] equal to the hash start plus 1
    (the single block of level 1); the 8 blocks of level 0 end the tree at
    hash start plus 9. *)
Theorem C1_level_offsets_4k (X : externals) (e : ctr_env) (a : verity_args)
  (v : dm_verity) :
  arg_data_block_size a = 4096 →
  arg_hash_block_size a = 4096 →
  shash_digestsize e = 32 →
  arg_data_blocks a = 1024 →
  verity_ctr X e a = Some (inr v) →
  hash_per_block_bits v = 7
  ∧ levels v = 2
  ∧ hash_level_block v !! 1%nat = Some (arg_hash_start a)
  ∧ hash_level_block v !! 0%nat = Some (arg_hash_start a + 1)
  ∧ hash_blocks v = arg_hash_start a + 9.
Proof.
  intros Hd Hh Hs Hn Hctr.
  apply verity_ctr_inv in Hctr as (v0 & Hargs & Htree).
  apply verity_ctr_args_inv in Hargs
    as (_ & _ & Hhbits & _ & _ & Hdb & _ & Hhs & [Hhs0 Hhs1] & Hdsz & _ & _
        & _ & _ & Hhlb).
  apply verity_ctr_tree_inv in Htree
    as (Hhpb & Hlv & Hmax & Hloop & _).
  rewrite Hhbits, Hh, Hdsz, Hs in Hhpb.
  change (__fls (Z.shiftl 1 (__ffs 4096) / 32)) with 7 in Hhpb.
  rewrite Hhpb, Hdb, Hn in Hlv.
  change (compute_levels 7 1024) with (Some 2) in Hlv. injection Hlv as Hlv.
  rewrite Hhbits, Hh in Hhs1. change (__ffs 4096 - SECTOR_SHIFT) with 3 in Hhs1.
  rewrite <- Hlv, Hhpb, Hdb, Hn, Hhs, Hhlb in Hloop. rewrite Hhs in Hhs0, Hhs1.
  set (hs := arg_hash_start a) in *.
  assert (2 ≤ DM_VERITY_MAX_LEVELS e) as Hmax2 by lia.
  change (Z.to_nat 2) with 2%nat in Hloop. cbn [hash_level_loop] in Hloop.
  change ((Z.of_nat 1 + 1) * 7) with 14 in Hloop.
  change ((Z.of_nat 0 + 1) * 7) with 7 in Hloop.
  change ((14 <? 0) || (64 <=? 14)) with false in Hloop.
  change ((7 <? 0) || (64 <=? 7)) with false in Hloop.
  change (Z.shiftr (u64 (u64 (1024 + u64 (Z.shiftl 1 14)) - 1)) 14) with 1 in Hloop.
  change (Z.shiftr (u64 (u64 (1024 + u64 (Z.shiftl 1 7)) - 1)) 7) with 8 in Hloop.
  cbv iota beta zeta in Hloop.
  rewrite (u64_small (hs + 1)) in Hloop by lia.
  destruct (Z.ltb_spec (hs + 1) hs); [lia|].
  rewrite (u64_small (hs + 1 + 8)) in Hloop by lia.
  destruct (Z.ltb_spec (hs + 1 + 8) (hs + 1)); [lia|].
  injection Hloop as Hhb Hl.
  assert (2 ≤ length (replicate (Z.to_nat (DM_VERITY_MAX_LEVELS e)) 0%Z))%nat.
  { rewrite length_replicate. lia. }
  split; [done|]. split; [done|]. split; [|split].
  - rewrite <- Hl. rewrite list_lookup_insert_ne by done.
    apply list_lookup_insert_eq. lia.
  - rewrite <- Hl. apply list_lookup_insert_eq. rewrite length_insert. lia.
  - rewrite <- Hhb. lia.
Qed.

Lemma C1_level_offsets_4k_witness :
  ∃ v, verity_ctr toy_externals env_4k (args_4k 5) = Some (inr v)
       ∧ hash_per_block_bits v = 7
       ∧ levels v = 2
       ∧ hash_level_block v !! 1%nat = Some 5
       ∧ hash_level_block v !! 0%nat = Some 6
       ∧ hash_blocks v = 14.
Proof.
  destruct (verity_ctr toy_externals env_4k (args_4k 5)) as [[r|v]|] eqn:E;
    [vm_compute in E; discriminate| |vm_compute in E; discriminate].
  exists v. split; [reflexivity|].
  exact (C1_level_offsets_4k toy_externals env_4k (args_4k 5) v
           eq_refl eq_refl eq_refl eq_refl E).
Defined.

(** C1 as stated fails: in that geometry [hash_level_block[0]] is the hash
    start plus 1, not plus 8. *)
Lemma C1_counterexample :
  ∃ v, verity_ctr toy_externals env_4k (args_4k 0) = Some (inr v)
       ∧ levels v = 2
       ∧ hash_level_block v !! 1%nat = Some (arg_hash_start (args_4k 0))
       ∧ hash_level_block v !! 0%nat ≠ Some (arg_hash_start (args_4k 0) + 8).
Proof.
  eexists. split; [vm_compute; reflexivity|].
  split; [reflexivity|]. split; [reflexivity|]. cbn. discriminate.
Qed.



(** ** Digest engine *)

Lemma verity_hash_init_spec (X : externals) v desc count r desc' :
  verity_hash_init X v desc count = (r, desc') →
  tfm desc' = engine_of count
  ∧ (¬ r < 0 → r = 0 ∧ fed desc' = if 1 <=? version v then salt v else []).
Proof.
  unfold verity_hash_init, crypto_shash_init, crypto_shash_update, engine_of.
  cbn. intros H.
  repeat match type of H with
         | context [if ?b then _ else _] => destruct b eqn:?
         end; injection H as <- <-; cbn; (split; [done|]); intros; try lia; done.
Qed.

Lemma verity_hash_final_spec (X : externals) v desc r desc' d :
  0 ≤ version v →
  verity_hash_final X v desc = (r, desc', Some d) →
  d = crypto_shash_digest X (tfm desc)
        (fed desc ++ if version v =? 0 then salt v else []).
Proof.
  unfold verity_hash_final, crypto_shash_final, crypto_shash_update.
  cbn. intros Hv H.
  repeat match type of H with
         | context [if ?b then _ else _] => destruct b eqn:?
         end; try discriminate; injection H as <- <- <-; cbn; try done.
  by rewrite app_nil_r.
Qed.


Lemma verity_hash_sel_sha_desc (X : externals) v desc desc' data count :
  verity_hash_sel_sha X v desc data count
  = verity_hash_sel_sha X v desc' data count.
Proof. reflexivity. Qed.

(** ** Corruption policy *)

(** Case analysis on the tests met while running a piece of the driver. *)
Ltac run_cases :=
  repeat (cbn;
          match goal with
          | |- context [if ?b then _ else _] =>
              let E := fresh "E" in destruct b eqn:E
          | |- context [match nve_vmode ?s with Some _ => _ | None => _ end] =>
              let E := fresh "E" in destruct (nve_vmode s) eqn:E
          end).

Ltac bool_hyps :=
  repeat match goal with
         | H : (_ <? _) = true |- _ => apply Z.ltb_lt in H
         | H : (_ <? _) = false |- _ => apply Z.ltb_ge in H
         | H : (_ <=? _) = true |- _ => apply Z.leb_le in H
         | H : (_ <=? _) = false |- _ => apply Z.leb_gt in H
         | H : (_ =? _) = true |- _ => apply Z.eqb_eq in H
         | H : (_ =? _) = false |- _ => apply Z.eqb_neq in H
         | H : bool_decide _ = true |- _ => apply bool_decide_eq_true in H
         | H : bool_decide _ = false |- _ => apply bool_decide_eq_false in H
         | H : negb _ = true |- _ => apply negb_true_iff in H
         | H : negb _ = false |- _ => apply negb_false_iff in H
         end.

(** C3. In logging mode [verity_handle_err] returns 0 on every call made
    while [corrupted_errs] is below [DM_VERITY_MAX_CORRUPTED_ERRS] = 100, and
    counts the call; once the counter has reached 100 every call returns 1,
    in whatever mode, and the counter stays. *)
Theorem C3_logging_until_max (X : externals) (v : dm_verity)
  (ty : verity_block_type) (block : Z) (s : state) :
  (mode v = DM_VERITY_MODE_LOGGING → 0 ≤ corrupted_errs s < 100 →
   ∃ s', verity_handle_err X v ty block s
         = Some (0, s', [EvHandleErr ty block; EvUevent ty block])
         ∧ corrupted_errs s' = corrupted_errs s + 1)
  ∧ (100 ≤ corrupted_errs s →
     ∃ s', verity_handle_err X v ty block s
           = Some (1, s', [EvHandleErr ty block])
           ∧ corrupted_errs s' = corrupted_errs s).
Proof.
  split.
  - intros Hm Hc. unfold verity_handle_err, DM_VERITY_MAX_CORRUPTED_ERRS.
    unfold bind, tell, modify, get, ret. cbn.
    destruct (Z.leb_spec 100 (corrupted_errs s)); [lia|].
    rewrite Hm. cbn. eexists. split; [reflexivity|]. cbn.
    unfold u32. apply Z.mod_small. lia.
  - intros Hc. unfold verity_handle_err, DM_VERITY_MAX_CORRUPTED_ERRS.
    unfold bind, tell, modify, get, ret. cbn.
    destruct (Z.leb_spec 100 (corrupted_errs s)); [|lia].
    eexists. split; reflexivity.
Qed.


(** ** Invariants of runs

    A relation between the state before and after a run, and a property of
    every event the run logs, both kept by each step. *)
Section Invariants.

Context (X : externals).
Variable R : state → state → Prop.
Variable T : event → Prop.
Hypothesis R_refl : ∀ s, R s s.
Hypothesis R_trans : ∀ s1 s2 s3, R s1 s2 → R s2 s3 → R s1 s3.

#[local] Abbreviation keeps := (run_keeps R T).
#[local] Abbreviation logs_ok := (run_logs_ok T).

Lemma keeps_ret {A} (a : A) : keeps (ret a).
Proof. intros s a' s' t [= <- <- <-]. auto. Qed.

Lemma keeps_bind {A B} (m : M A) (k : A → M B) :
  keeps m → (∀ a, keeps (k a)) → keeps (bind m k).
Proof.
  intros Hm Hk s b s' t. unfold bind.
  destruct (m s) as [[[a s1] t1]|] eqn:E1; [|done].
  destruct (k a s1) as [[[b' s2] t2]|] eqn:E2; [|done].
  intros [= <- <- <-].
  destruct (Hm _ _ _ _ E1), (Hk _ _ _ _ _ E2).
  split; [eauto|]. by apply Forall_app.
Qed.

Lemma keeps_get : keeps get.
Proof. intros s a s' t [= <- <- <-]. auto. Qed.

Lemma keeps_tell t : Forall T t → keeps (tell t).
Proof. intros Ht s a s' t' [= <- <- <-]. auto. Qed.

Lemma keeps_modify f : (∀ s, R s (f s)) → keeps (modify f).
Proof. intros Hf s a s' t [= <- <- <-]. auto. Qed.

Lemma keeps_diverge {A} : keeps (@diverge A).
Proof. intros s a s' t [=]. Qed.

Lemma keeps_when b m : keeps m → keeps (when b m).
Proof. destruct b; [done|]. intros _. apply keeps_ret. Qed.

Hypothesis R_hash_failed : ∀ x s, R s (set_hash_failed x s).
Hypothesis R_corrupted_errs : ∀ x s, R s (set_corrupted_errs x s).
Hypothesis R_verify_failed_flag : ∀ x s, R s (set_verify_failed_flag x s).
Hypothesis R_nve_vmode : ∀ x s, R s (set_nve_vmode x s).
Hypothesis R_io_desc : ∀ x s, R s (set_io_desc x s).
Hypothesis R_io_real_digest : ∀ x s, R s (set_io_real_digest x s).
Hypothesis R_io_want_digest : ∀ x s, R s (set_io_want_digest x s).
Hypothesis R_io_iter : ∀ x s, R s (set_io_iter x s).
Hypothesis R_bio_pages : ∀ x s, R s (set_bio_pages x s).
Hypothesis R_mark_verified : ∀ hb s, R s (mark_verified hb s).
Hypothesis R_write_buffer : ∀ hb data s, R s (write_buffer hb data s).
Hypothesis R_new_buffer : ∀ hb data s,
  bufio s !! hb = None →
  R s (set_bufio (<[ hb := {| b_data := data;
                              b_aux := {| hash_verified := 0 |} |} ]> (bufio s)) s).

(** The events that carry no block type. *)
Hypothesis T_read : ∀ b, T (EvBufioRead b).
Hypothesis T_release : ∀ b, T (EvBufioRelease b).
Hypothesis T_hwhash : ∀ x, T (EvWriteHwHashErrNv x).
Hypothesis T_print : ∀ b d, T (EvPrintBlockData b d).

Ltac keeps_step :=
  first
    [ apply keeps_ret
    | apply keeps_get
    | apply keeps_diverge
    | apply keeps_bind; [|intros ?]
    | apply keeps_when
    | apply keeps_modify; solve [auto]
    | apply keeps_tell; repeat constructor; solve [auto]
    | match goal with
      | |- keeps (if ?b then _ else _) => destruct b
      | |- keeps (match ?x with _ => _ end) => destruct x
      end ].

Lemma keeps_handle_err v ty block :
  logs_ok ty → keeps (verity_handle_err X v ty block).
Proof.
  intros Hty. destruct (Hty block) as (? & ? & ? & ? & ?).
  unfold verity_handle_err, verity_read_nv, verity_write_nv.
  repeat keeps_step.
Qed.

Lemma keeps_dm_bufio_read hb : keeps (dm_bufio_read X hb).
Proof.
  unfold dm_bufio_read. apply keeps_bind; [repeat keeps_step|intros _].
  intros s a s' t. unfold bind, get, modify, ret, dm_bufio_alloc_callback.
  destruct (bufio s !! hb) eqn:E.
  - intros [= <- <- <-]. auto.
  - destruct (hash_dev_read X hb); cbn; intros [= <- <- <-]; auto.
Qed.

Lemma keeps_on_io_desc f : keeps (on_io_desc f).
Proof. unfold on_io_desc. repeat keeps_step. Qed.

Lemma keeps_on_io_digest f : keeps (on_io_digest f).
Proof. unfold on_io_digest. repeat keeps_step. Qed.

Lemma keeps_fec_decode_buffer ty block hb :
  logs_ok ty → keeps (verity_fec_decode X ty block (FecBuffer hb)).
Proof.
  intros Hty. destruct (Hty block) as (? & ? & ? & ? & ?).
  unfold verity_fec_decode. repeat keeps_step.
Qed.

Lemma keeps_fec_decode_iter ty block iter :
  logs_ok ty → keeps (verity_fec_decode X ty block (FecIter iter)).
Proof.
  intros Hty. destruct (Hty block) as (? & ? & ? & ? & ?).
  unfold verity_fec_decode. repeat keeps_step.
Qed.

Lemma keeps_telemetry ty block c x d len :
  logs_ok ty →
  keeps (verity_dsm X ty block c) ∧ keeps (write_hw_hash_err_nv X x)
  ∧ keeps (print_block_data X block d len).
Proof.
  intros Hty. destruct (Hty block) as (? & ? & ? & ? & ?).
  unfold verity_dsm, write_hw_hash_err_nv, print_block_data.
  split; [|split]; repeat keeps_step.
Qed.

Lemma keeps_verify_level_LABEL fuel v hb want rc :
  logs_ok DM_VERITY_BLOCK_TYPE_METADATA →
  keeps (verify_level_LABEL X fuel v hb want rc).
Proof.
  intros Hty. destruct (Hty hb) as (? & ? & ? & ? & ?).
  revert rc. induction fuel as [|fuel IH]; intros rc; cbn [verify_level_LABEL].
  { apply keeps_diverge. }
  repeat first
    [ apply IH
    | apply keeps_on_io_digest
    | apply keeps_fec_decode_buffer; solve [auto]
    | apply keeps_handle_err; solve [auto]
    | apply keeps_telemetry; solve [auto]
    | keeps_step ].
Qed.

Lemma keeps_verify_level v block level skip want :
  logs_ok DM_VERITY_BLOCK_TYPE_METADATA →
  keeps (verity_verify_level X v block level skip want).
Proof.
  intros Hty. unfold verity_verify_level, dm_bufio_release.
  destruct (verity_hash_at_level v block level) as [hb off].
  repeat first
    [ apply keeps_dm_bufio_read
    | apply keeps_verify_level_LABEL; solve [auto]
    | keeps_step ].
Qed.

Lemma keeps_hash_for_block_loop n v block r digest :
  logs_ok DM_VERITY_BLOCK_TYPE_METADATA →
  keeps (hash_for_block_loop X n v block r digest).
Proof.
  intros Hty. revert r digest.
  induction n as [|n IH]; intros r digest; cbn [hash_for_block_loop].
  { apply keeps_ret. }
  repeat first
    [ apply IH | apply keeps_verify_level; solve [auto] | keeps_step ].
Qed.

Lemma keeps_hash_for_block v block digest :
  logs_ok DM_VERITY_BLOCK_TYPE_METADATA →
  keeps (verity_hash_for_block X v block digest).
Proof.
  intros Hty. unfold verity_hash_for_block, hash_for_block_out.
  repeat first
    [ apply keeps_hash_for_block_loop; solve [auto]
    | apply keeps_verify_level; solve [auto]
    | keeps_step ].
Qed.

Lemma keeps_for_bv_block_loop fuel process iter todo :
  (∀ idx off len, keeps (process idx off len)) →
  keeps (for_bv_block_loop fuel process iter todo).
Proof.
  intros Hp. revert iter todo.
  induction fuel as [|fuel IH]; intros iter todo; cbn [for_bv_block_loop].
  { apply keeps_diverge. }
  repeat first [ apply IH | apply Hp | keeps_step ].
Qed.

Lemma keeps_bv_hash_update v idx off len :
  keeps (verity_bv_hash_update X v idx off len).
Proof.
  unfold verity_bv_hash_update. repeat first [apply keeps_on_io_desc|keeps_step].
Qed.

Lemma keeps_bv_zero idx off len : keeps (verity_bv_zero idx off len).
Proof. unfold verity_bv_zero. repeat keeps_step. Qed.

Lemma keeps_verify_io_LABEL fuel v cur rc start_retry :
  logs_ok DM_VERITY_BLOCK_TYPE_METADATA → logs_ok DM_VERITY_BLOCK_TYPE_DATA →
  keeps (verify_io_LABEL X fuel v cur rc start_retry).
Proof.
  intros Hm Hd. destruct (Hd cur) as (? & ? & ? & ? & ?).
  revert rc start_retry.
  induction fuel as [|fuel IH]; intros rc start_retry; cbn [verify_io_LABEL].
  { apply keeps_diverge. }
  unfold verity_for_bv_block.
  repeat first
    [ apply IH
    | apply keeps_hash_for_block; solve [auto]
    | apply keeps_for_bv_block_loop; intros;
        first [apply keeps_bv_zero|apply keeps_bv_hash_update]
    | apply keeps_on_io_desc
    | apply keeps_on_io_digest
    | apply keeps_fec_decode_iter; solve [auto]
    | apply keeps_handle_err; solve [auto]
    | apply keeps_telemetry; solve [auto]
    | keeps_step ].
Qed.

Lemma keeps_verify_io v block n_blocks :
  logs_ok DM_VERITY_BLOCK_TYPE_METADATA → logs_ok DM_VERITY_BLOCK_TYPE_DATA →
  keeps (verity_verify_io X v block n_blocks).
Proof.
  intros Hm Hd. unfold verity_verify_io.
  generalize 0. induction (Z.to_nat n_blocks) as [|n IH]; intros b;
    cbn [verify_io_loop].
  { apply keeps_ret. }
  unfold verify_io_block.
  repeat first
    [ apply IH | apply keeps_verify_io_LABEL; solve [auto] | keeps_step ].
Qed.

End Invariants.

(** ** The verified flag *)

Lemma flags_monotone_refl s : flags_monotone s s.
Proof. intros hb. destruct (bufio s !! hb) eqn:E; [eauto|done]. Qed.

Lemma flags_monotone_trans s1 s2 s3 :
  flags_monotone s1 s2 → flags_monotone s2 s3 → flags_monotone s1 s3.
Proof.
  intros H12 H23 hb. specialize (H12 hb). specialize (H23 hb).
  destruct (bufio s1 !! hb) as [b1|] eqn:E1.
  - destruct H12 as (b2 & E2 & H2). rewrite E2 in H23.
    destruct H23 as (b3 & E3 & H3). exists b3. split; [done|].
    lia.
  - destruct (bufio s2 !! hb) as [b2|] eqn:E2; [|done].
    destruct H23 as (b3 & E3 & H3). intros b' Hb'.
    rewrite E3 in Hb'. injection Hb' as <-.
    specialize (H12 b2 eq_refl). lia.
Qed.

Lemma flags_monotone_same_bufio s s' : bufio s' = bufio s → flags_monotone s s'.
Proof. intros E hb. rewrite E. destruct (bufio s !! hb) eqn:E'; [eauto|done]. Qed.

Lemma flags_monotone_insert s hb buf :
  (∀ b, bufio s !! hb = Some b →
        hash_verified (b_aux buf) = hash_verified (b_aux b)
        ∨ hash_verified (b_aux buf) = 1) →
  (bufio s !! hb = None →
   hash_verified (b_aux buf) = 0 ∨ hash_verified (b_aux buf) = 1) →
  flags_monotone s (set_bufio (<[ hb := buf ]> (bufio s)) s).
Proof.
  intros HS HN hb'. cbn. destruct (decide (hb = hb')) as [<-|Hne].
  - rewrite lookup_insert_eq. destruct (bufio s !! hb) eqn:E.
    + exists buf. split; [done|]. by apply HS.
    + intros b' [= <-]. by apply HN.
  - rewrite lookup_insert_ne by done.
    destruct (bufio s !! hb') eqn:E; [eauto|done].
Qed.

Lemma flags_monotone_mark_verified hb s : flags_monotone s (mark_verified hb s).
Proof. apply flags_monotone_insert; cbn; auto. Qed.

Lemma flags_monotone_write_buffer hb data s :
  flags_monotone s (write_buffer hb data s).
Proof.
  apply flags_monotone_insert; unfold buffer_at; cbn.
  - intros b ->. auto.
  - intros ->. auto.
Qed.

Lemma mark_verified_idempotent hb s :
  mark_verified hb (mark_verified hb s) = mark_verified hb s.
Proof.
  unfold mark_verified, buffer_at, set_bufio. cbn.
  rewrite lookup_insert_eq, insert_insert_eq. reflexivity.
Qed.

Lemma mark_verified_commute hb1 hb2 s :
  mark_verified hb1 (mark_verified hb2 s) = mark_verified hb2 (mark_verified hb1 s).
Proof.
  destruct (decide (hb1 = hb2)) as [->|Hne]; [done|].
  unfold mark_verified, buffer_at, set_bufio. cbn.
  rewrite !lookup_insert_ne by done.
  rewrite (insert_insert_ne (bufio s) hb1 hb2) by done. reflexivity.
Qed.

(** Symbolic execution of a run: case analysis on the innermost test that
    blocks evaluation. *)
Ltac blocked x :=
  lazymatch x with
  | context [if ?b then _ else _] => blocked b
  | context [match ?o with Some _ => _ | None => _ end] => blocked o
  | context [match ?o with inl _ => _ | inr _ => _ end] => blocked o
  | context [let '(_, _) := ?p in _] => blocked p
  | _ => x
  end.

Ltac run_step :=
  match goal with
  | |- ?G => let x := blocked G in
             lazymatch x with
             | G => fail
             | _ => let E := fresh "E" in destruct x eqn:E
             end
  end.

Ltac run_all :=
  repeat (cbn; try change (u32 (0 + 1)) with 1;
          try change (u32 (1 + 1)) with 2;
          try change (- EIO =? 0) with false; cbn; run_step).

Ltac unfold_level :=
  unfold verity_verify_level, dm_bufio_read, dm_bufio_release,
    dm_bufio_alloc_callback, retry_fuel, verify_level_LABEL, on_io_digest,
    verity_fec_decode, verity_handle_err, verity_dsm, write_hw_hash_err_nv,
    print_block_data, verity_read_nv, verity_write_nv, when;
  unfold bind, tell, modify, get, ret, diverge.

#[local] Opaque verity_hash_sel_sha memcmp_eq memcpy_from.

(** A call of [verity_verify_level] that turns the flag of its hash block
    on has seen a matching digest or a successful repair. *)
Lemma verify_level_sets_flag (X : externals) v block level skip want s r s' t :
  verity_verify_level X v block level skip want s = Some (r, s', t) →
  hash_verified (b_aux (buffer_at s (verity_hash_at_level v block level).1)) = 0 →
  hash_verified (b_aux (buffer_at s' (verity_hash_at_level v block level).1)) ≠ 0 →
  memcmp_eq (io_real_digest s') want (digest_size v) = true
  ∨ ∃ d0 d1, fec_repair_buffer X DM_VERITY_BLOCK_TYPE_METADATA
               (verity_hash_at_level v block level).1 d0 = Some d1.
Proof.
  intros H. revert H. unfold_level.
  destruct (verity_hash_at_level v block level) as [hb off].
  run_all.
  all: try discriminate.
  all: intros [= <- <- <-].
  all: unfold buffer_at, mark_verified, write_buffer; cbn.
  all: rewrite ?lookup_insert_eq; cbn.
  all: try (left; assumption).
  all: try (right; eauto; fail).
  all: try (intros; congruence).
  all: try (intros H1 H2; rewrite ?E, ?E0 in *; cbn in *; bool_hyps; congruence).
Qed.

Section FlagProofs.

Context (X : externals).

Lemma logs_ok_True ty : run_logs_ok (λ _, True) ty.
Proof. intros b. auto. Qed.

Lemma flags_monotone_verify_level v block level skip want s r s' t :
  verity_verify_level X v block level skip want s = Some (r, s', t) →
  flags_monotone s s'.
Proof.
  intros H.
  eapply (keeps_verify_level X flags_monotone (λ _, True)); try exact H;
    eauto using flags_monotone_refl, flags_monotone_trans,
      flags_monotone_mark_verified, flags_monotone_write_buffer,
      flags_monotone_same_bufio, logs_ok_True.
  all: try (intros; apply flags_monotone_insert; cbn; auto; congruence).
  all: try (intros; exact I).
Qed.

Lemma flags_monotone_hash_for_block v block digest s r s' t :
  verity_hash_for_block X v block digest s = Some (r, s', t) →
  flags_monotone s s'.
Proof.
  intros H.
  eapply (keeps_hash_for_block X flags_monotone (λ _, True)); try exact H;
    eauto using flags_monotone_refl, flags_monotone_trans,
      flags_monotone_mark_verified, flags_monotone_write_buffer,
      flags_monotone_same_bufio, logs_ok_True.
  all: try (intros; apply flags_monotone_insert; cbn; auto; congruence).
  all: try (intros; exact I).
Qed.

Lemma flags_monotone_verify_io v block n s r s' t :
  verity_verify_io X v block n s = Some (r, s', t) →
  flags_monotone s s'.
Proof.
  intros H.
  eapply (keeps_verify_io X flags_monotone (λ _, True)); try exact H;
    eauto using flags_monotone_refl, flags_monotone_trans,
      flags_monotone_mark_verified, flags_monotone_write_buffer,
      flags_monotone_same_bufio, logs_ok_True.
  all: try (intros; apply flags_monotone_insert; cbn; auto; congruence).
  all: try (intros; exact I).
Qed.

End FlagProofs.

(** C9. [hash_verified] is 0 after the allocation callback; across
    [verity_verify_level], [verity_hash_for_block] and [verity_verify_io]
    every cached buffer keeps its flag or gets it set to 1, and a buffer that
    enters the cache carries 0 or 1; [verity_verify_level] turns the flag of
    its hash block on only after a matching digest or a successful FEC
    repair; the write itself is idempotent and two such writes commute, so
    racing writers store the same value. *)
Theorem C9_hash_verified_monotone (X : externals) (v : dm_verity) :
  (∀ buf, hash_verified (b_aux (dm_bufio_alloc_callback buf)) = 0)
  ∧ (∀ block level skip want s r s' t,
       verity_verify_level X v block level skip want s = Some (r, s', t) →
       flags_monotone s s'
       ∧ (hash_verified
            (b_aux (buffer_at s (verity_hash_at_level v block level).1)) = 0 →
          hash_verified
            (b_aux (buffer_at s' (verity_hash_at_level v block level).1)) ≠ 0 →
          memcmp_eq (io_real_digest s') want (digest_size v) = true
          ∨ ∃ d0 d1, fec_repair_buffer X DM_VERITY_BLOCK_TYPE_METADATA
                       (verity_hash_at_level v block level).1 d0 = Some d1))
  ∧ (∀ block digest s r s' t,
       verity_hash_for_block X v block digest s = Some (r, s', t) →
       flags_monotone s s')
  ∧ (∀ block n_blocks s r s' t,
       verity_verify_io X v block n_blocks s = Some (r, s', t) →
       flags_monotone s s')
  ∧ (∀ hb s, mark_verified hb (mark_verified hb s) = mark_verified hb s)
  ∧ (∀ hb1 hb2 s,
       mark_verified hb1 (mark_verified hb2 s)
       = mark_verified hb2 (mark_verified hb1 s)).
Proof.
  split; [reflexivity|]. split; [|split; [|split; [|split]]].
  - intros * H. split.
    + eapply flags_monotone_verify_level, H.
    + eapply verify_level_sets_flag, H.
  - intros *. apply flags_monotone_hash_for_block.
  - intros *. apply flags_monotone_verify_io.
  - apply mark_verified_idempotent.
  - apply mark_verified_commute.
Qed.

(** ** Level verifier *)

Lemma attempt_sequence_complete ty block l :
  l `prefix_of` attempt_sequence ty block →
  In (EvHandleErr ty block) l → l = attempt_sequence ty block.
Proof.
  intros [k Hk] Hin. unfold attempt_sequence in *.
  destruct l as [|e1 [|e2 [|e3 [|e4 [|e5 l]]]]]; cbn in *;
    simplify_eq; intuition (try discriminate).
Qed.

Lemma verify_level_attempts (X : externals) v block level skip want s :
  match verity_verify_level X v block level skip want s with
  | Some (r, s', t) =>
      List.filter (is_attempt DM_VERITY_BLOCK_TYPE_METADATA) t
        `prefix_of` attempt_sequence DM_VERITY_BLOCK_TYPE_METADATA
                      (verity_hash_at_level v block level).1
  | None => False
  end.
Proof.
  unfold_level. unfold attempt_sequence.
  destruct (verity_hash_at_level v block level) as [hb off].
  run_all.
  all: cbn; eexists; reflexivity.
Qed.

Lemma dm_bufio_read_inr (X : externals) hb s buf s1 t1 :
  dm_bufio_read X hb s = Some (inr buf, s1, t1) →
  bufio s1 !! hb = Some buf
  ∧ corrupted_errs s1 = corrupted_errs s ∧ nve_vmode s1 = nve_vmode s.
Proof.
  unfold dm_bufio_read, dm_bufio_alloc_callback.
  unfold bind, tell, modify, get, ret.
  destruct (bufio s !! hb) eqn:E; cbn.
  - intros [= <- <- <-]. done.
  - destruct (hash_dev_read X hb); cbn; [done|].
    intros [= <- <- <-]. cbn. by rewrite lookup_insert_eq.
Qed.

Lemma buffer_at_lookup s hb buf :
  bufio s !! hb = Some buf → buffer_at s hb = buf.
Proof. intros H. unfold buffer_at. by rewrite H. Qed.

(** The answer of the corruption policy depends on the error counter and
    the NV item only, and the policy leaves the buffer cache alone. *)
Lemma verity_handle_err_frame (X : externals) v ty block s1 s2 :
  corrupted_errs s1 = corrupted_errs s2 → nve_vmode s1 = nve_vmode s2 →
  match verity_handle_err X v ty block s1,
        verity_handle_err X v ty block s2 with
  | Some (r1, _, _), Some (r2, s2', _) => r1 = r2 ∧ bufio s2' = bufio s2
  | _, _ => False
  end.
Proof.
  intros Hc Hn.
  unfold verity_handle_err, verity_read_nv, verity_write_nv.
  unfold bind, tell, modify, get, ret.
  destruct s1, s2; cbn in *; subst.
  repeat (cbn; run_step); cbn; done.
Qed.

#[local] Opaque verity_handle_err.

(** C4. When the read of the hash block succeeds with an unverified buffer,
    both hash attempts on its content go through and mismatch, the FEC
    decoder fails and the corruption policy answers 0 (continue),
    [verity_verify_level] returns 0 with [want_digest] holding the
    [digest_size] bytes stored at the computed offset of the block, and the
    buffer is still cached with [hash_verified] at 0. *)
Theorem C4_continue_leaves_flag_unset (X : externals) (v : dm_verity)
  (block level : Z) (want : list byte) (s s1 : state) (buf : dm_buffer)
  (t1 : list event) :
  let hb := (verity_hash_at_level v block level).1 in
  let offset := (verity_hash_at_level v block level).2 in
  let content := take (Z.to_nat (Z.shiftl 1 (hash_dev_block_bits v))) (b_data buf) in
  dm_bufio_read X hb s = Some (inr buf, s1, t1) →
  hash_verified (b_aux buf) = 0 →
  digest_mismatch X v 0 content want →
  digest_mismatch X v 1 content want →
  fec_repair_buffer X DM_VERITY_BLOCK_TYPE_METADATA hb (b_data buf) = None →
  (∃ s2 t2, verity_handle_err X v DM_VERITY_BLOCK_TYPE_METADATA hb s
            = Some (0, s2, t2)) →
  ∃ s' t,
    verity_verify_level X v block level false want s
    = Some ((0, memcpy_from (b_data buf) offset (digest_size v)), s', t)
    ∧ bufio s' !! hb = Some buf.
Proof.
  cbv zeta.
  destruct (verity_hash_at_level v block level) as [hb off] eqn:Eh.
  cbn [fst snd].
  intros Hread Hflag (r1 & d1 & Hd1 & Hr1 & Hm1) (r2 & d2 & Hd2 & Hr2 & Hm2)
    Hfec (s2 & t2 & Herr).
  destruct (dm_bufio_read_inr _ _ _ _ _ _ Hread) as (Hbuf & Hce & Hnv).
  unfold digest_of in Hd1, Hd2.
  destruct (verity_hash_sel_sha X v _ _ 0) as [[r1' desc1] o1] eqn:E1.
  destruct (verity_hash_sel_sha X v _ _ 1) as [[r2' desc2] o2] eqn:E2.
  injection Hd1 as -> ->. injection Hd2 as -> ->.
  unfold verity_verify_level. rewrite Eh.
  unfold bind at 1. rewrite Hread. rewrite Hflag. cbn [Z.eqb].
  unfold retry_fuel, verify_level_LABEL, on_io_digest, verity_fec_decode,
    verity_dsm, write_hw_hash_err_nv, print_block_data, dm_bufio_release, when.
  unfold bind, tell, modify, get, ret. cbn.
  rewrite !(buffer_at_lookup _ hb buf) by exact Hbuf.
  rewrite (verity_hash_sel_sha_desc X v _ {| tfm := tfm_sha2ce; fed := [] |}), E1.
  destruct (Z.ltb_spec r1 0); [lia|]. cbn. rewrite Hm1.
  change (u32 (0 + 1)) with 1. cbn.
  rewrite !(buffer_at_lookup _ hb buf) by exact Hbuf.
  rewrite (verity_hash_sel_sha_desc X v _ {| tfm := tfm_sha2ce; fed := [] |}), E2.
  destruct (Z.ltb_spec r2 0); [lia|]. cbn. rewrite Hm2.
  change (u32 (1 + 1)) with 2. cbn.
  rewrite !(buffer_at_lookup _ hb buf) by exact Hbuf. rewrite Hfec. cbn.
  change (- EIO =? 0) with false. cbn.
  match goal with
  | |- context [verity_handle_err X v ?ty hb ?sm] =>
      pose proof (verity_handle_err_frame X v ty hb s sm) as Hfr;
      destruct (verity_handle_err X v ty hb sm) as [[[e s3] t3]|]
  end.
  all: rewrite Herr in Hfr; cbn in Hfr.
  2: { exfalso. apply Hfr; done. }
  destruct Hfr as [<- Hb3]; [done..|]. cbn.
  rewrite (buffer_at_lookup s3 hb buf) by (rewrite Hb3; exact Hbuf).
  eexists _, _. split; [reflexivity|]. rewrite Hb3. exact Hbuf.
Qed.

(** ** Verifying one io *)

Lemma Forall_filter_nil {A} (f : A → bool) (l : list A) :
  Forall (λ x, f x = false) l → List.filter f l = [].
Proof. induction 1 as [|x l Hx _ IH]; cbn; [done|]. by rewrite Hx. Qed.

Lemma Forall_False_nil {A} (l : list A) : Forall (λ _, False) l → l = [].
Proof. destruct 1; done. Qed.

(** Finding the expected digest logs nothing about data blocks. *)
Lemma hash_for_block_no_data_attempts (X : externals) v block digest s r s' t :
  verity_hash_for_block X v block digest s = Some (r, s', t) →
  List.filter (is_attempt DM_VERITY_BLOCK_TYPE_DATA) t = [].
Proof.
  intros H. apply Forall_filter_nil.
  eapply (keeps_hash_for_block X (λ _ _, True)
            (λ e, is_attempt DM_VERITY_BLOCK_TYPE_DATA e = false));
    try exact H; try done.
Qed.

(** Walking a block of the bio logs nothing. *)
Lemma for_bv_block_zero_silent v iter s r s' t :
  verity_for_bv_block v iter verity_bv_zero s = Some (r, s', t) → t = [].
Proof.
  intros H. apply Forall_False_nil. unfold verity_for_bv_block in H.
  eapply (keeps_for_bv_block_loop (λ _ _, True) (λ _, False));
    try exact H; try done.
  intros. apply keeps_bv_zero; done.
Qed.

Lemma for_bv_block_hash_silent (X : externals) v iter s r s' t :
  verity_for_bv_block v iter (verity_bv_hash_update X v) s = Some (r, s', t) →
  t = [].
Proof.
  intros H. apply Forall_False_nil. unfold verity_for_bv_block in H.
  eapply (keeps_for_bv_block_loop (λ _ _, True) (λ _, False));
    try exact H; try done.
  intros. apply keeps_bv_hash_update; done.
Qed.

#[local] Transparent verity_handle_err.

Lemma handle_err_attempts (X : externals) v ty block s r s' t :
  verity_handle_err X v ty block s = Some (r, s', t) →
  List.filter (is_attempt ty) t = [EvHandleErr ty block].
Proof.
  unfold verity_handle_err, verity_read_nv, verity_write_nv.
  unfold bind, tell, modify, get, ret.
  repeat (cbn; run_step); cbn; intros [= <- <- <-]; cbn;
    rewrite bool_decide_eq_true_2 by done; reflexivity.
Qed.

#[local] Opaque verity_handle_err verity_hash_for_block verity_for_bv_block
  verity_hash_init verity_hash_final verity_hash_update.

Ltac unfold_io :=
  unfold retry_fuel, verify_io_LABEL, on_io_desc, on_io_digest,
    verity_fec_decode, verity_dsm, write_hw_hash_err_nv, print_block_data,
    when;
  unfold bind, tell, modify, get, ret, diverge.

Ltac sub_traces :=
  repeat match goal with
         | H : verity_hash_for_block _ _ _ _ _ = Some _ |- _ =>
             apply hash_for_block_no_data_attempts in H
         | H : verity_for_bv_block _ _ verity_bv_zero _ = Some _ |- _ =>
             apply for_bv_block_zero_silent in H
         | H : verity_for_bv_block _ _ (verity_bv_hash_update _ _) _ = Some _
           |- _ =>
             apply for_bv_block_hash_silent in H
         | H : verity_handle_err _ _ _ _ _ = Some _ |- _ =>
             apply handle_err_attempts in H
         end.

Ltac filter_traces :=
  subst; cbn;
  repeat (rewrite ?List.filter_app, ?app_nil_r; cbn);
  repeat match goal with
         | H : List.filter _ _ = _ |- _ => rewrite H; clear H
         end;
  cbn.

Lemma verify_io_LABEL_attempts (X : externals) v cur start_retry s r s' t :
  verify_io_LABEL X retry_fuel v cur 0 start_retry s = Some (r, s', t) →
  List.filter (is_attempt DM_VERITY_BLOCK_TYPE_DATA) t
    `prefix_of` attempt_sequence DM_VERITY_BLOCK_TYPE_DATA cur.
Proof.
  intros H. revert H. unfold_io. unfold attempt_sequence.
  run_all.
  all: try discriminate.
  all: intros [= <- <- <-].
  all: sub_traces; filter_traces; eexists; reflexivity.
Qed.

(** ** Zero blocks *)

Section ZeroBlocks.

#[local] Open Scope nat_scope.

Lemma bio_wf_idx pages iter :
  bio_wf pages iter → 0 < bi_size iter → bi_idx iter < length pages.
Proof.
  intros (_ & _ & H) Hs. unfold flat_pos in H.
  destruct (decide (bi_idx iter < length pages)) as [|Hge]; [done|].
  rewrite take_ge in H by lia. lia.
Qed.

Lemma zero_chunk_length_at (pages : list (list byte)) (idx off len : nat) :
  off + len ≤ length (pages !!! idx) →
  length (take off (pages !!! idx) ++ replicate len x00
          ++ drop (off + len) (pages !!! idx)) = length (pages !!! idx).
Proof.
  intros H. rewrite !length_app, length_take, length_replicate, length_drop. lia.
Qed.

Lemma zero_chunk_lengths (pages : list (list byte)) (idx off len : nat) :
  off + len ≤ length (pages !!! idx) →
  length <$> zero_chunk pages idx off len = length <$> pages.
Proof.
  intros H. unfold zero_chunk. rewrite list_fmap_insert.
  rewrite zero_chunk_length_at by done.
  apply list_eq. intros i. destruct (decide (i = idx)) as [->|Hne].
  - destruct (decide (idx < length pages)).
    + rewrite list_lookup_insert_eq by (by rewrite length_fmap).
      rewrite list_lookup_fmap.
      by rewrite (list_lookup_lookup_total_lt pages idx).
    + rewrite list_insert_ge by (rewrite length_fmap; lia). done.
  - by rewrite list_lookup_insert_ne.
Qed.

Lemma concat_middle (pages : list (list byte)) idx :
  idx < length pages →
  concat pages = concat (take idx pages) ++ pages !!! idx
                 ++ concat (drop (S idx) pages).
Proof.
  intros H.
  rewrite <- (take_drop_middle pages idx (pages !!! idx)) at 1
    by (by apply list_lookup_lookup_total_lt).
  by rewrite concat_app.
Qed.

Lemma zero_chunk_concat (pages : list (list byte)) (idx off len : nat) :
  idx < length pages → off + len ≤ length (pages !!! idx) →
  concat (zero_chunk pages idx off len)
  = take (length (concat (take idx pages)) + off) (concat pages)
    ++ replicate len x00
    ++ drop (length (concat (take idx pages)) + off + len) (concat pages).
Proof.
  intros Hi Hl. unfold zero_chunk.
  rewrite insert_take_drop by done. rewrite concat_app. cbn [concat].
  pose proof (concat_middle pages idx Hi) as Hc.
  set (pre := concat (take idx pages)) in *.
  set (post := concat (drop (S idx) pages)) in *.
  set (p := pages !!! idx) in *.
  rewrite Hc, <- Nat.add_assoc.
  rewrite take_app_add', drop_app_add' by done.
  rewrite take_app_le, drop_app_le by lia.
  by rewrite <- !app_assoc.
Qed.

Lemma concat_length_eq (l1 l2 : list (list byte)) :
  length <$> l1 = length <$> l2 → length (concat l1) = length (concat l2).
Proof.
  revert l2. induction l1 as [|a l1 IH]; intros [|b l2]; cbn; try done.
  intros [= Hab H]. rewrite !length_app, Hab. f_equal. by apply IH.
Qed.

Lemma take_lengths_eq (l1 l2 : list (list byte)) n :
  length <$> l1 = length <$> l2 →
  length (concat (take n l1)) = length (concat (take n l2)).
Proof.
  intros H. apply concat_length_eq. rewrite !fmap_take. by rewrite H.
Qed.

Lemma lookup_total_length_eq (l1 l2 : list (list byte)) (i : nat) :
  length <$> l1 = length <$> l2 → length (l1 !!! i) = length (l2 !!! i).
Proof.
  intros H.
  assert (length <$> (l1 !! i) = length <$> (l2 !! i)) as Hi
    by (by rewrite <- !list_lookup_fmap, H).
  rewrite !list_lookup_total_alt.
  destruct (l1 !! i), (l2 !! i); cbn in *; congruence.
Qed.

(** One pass of the loop over a well-formed iterator. *)
Lemma zero_step (pages : list (list byte)) (iter : bvec_iter) (todo : nat) :
  bio_wf pages iter → 0 < todo → todo ≤ bi_size iter →
  let len0 := Nat.min (bi_size iter)
                (length (pages !!! bi_idx iter) - bi_bvec_done iter) in
  let len := if (todo <=? len0)%nat then todo else len0 in
  let pages' := zero_chunk pages (bi_idx iter) (bi_bvec_done iter) len in
  let iter' := bio_advance_iter pages' iter len in
  0 < len ≤ todo
  ∧ concat pages'
    = take (flat_pos pages iter) (concat pages) ++ replicate len x00
      ++ drop (flat_pos pages iter + len) (concat pages)
  ∧ length <$> pages' = length <$> pages
  ∧ bio_wf pages' iter'
  ∧ flat_pos pages' iter' = flat_pos pages iter + len
  ∧ bi_size iter' = bi_size iter - len.
Proof.
  intros Hwf Htodo Hsz. pose proof (bio_wf_idx _ _ Hwf ltac:(lia)) as Hidx.
  destruct Hwf as (Hne & Hdone & Htot). specialize (Hdone Hidx).
  cbv zeta.
  set (len0 := Nat.min _ _).
  set (len := if (todo <=? len0)%nat then _ else _).
  assert (0 < len ≤ todo ∧ len ≤ bi_size iter
          ∧ bi_bvec_done iter + len ≤ length (pages !!! bi_idx iter))
    as (Hlen & Hlsz & Hfit).
  { subst len len0. destruct (Nat.leb_spec todo (Nat.min (bi_size iter)
      (length (pages !!! bi_idx iter) - bi_bvec_done iter))); lia. }
  set (pages' := zero_chunk pages (bi_idx iter) (bi_bvec_done iter) len).
  assert (length <$> pages' = length <$> pages) as Hlens
    by (by apply zero_chunk_lengths).
  assert (length pages' = length pages) as Hlp
    by (unfold pages', zero_chunk; by rewrite length_insert).
  assert (Forall (λ p, p ≠ []) pages') as Hne'.
  { unfold pages', zero_chunk. apply Forall_insert; [done|].
    intros Hnil. apply (f_equal length) in Hnil.
    rewrite zero_chunk_length_at in Hnil by done. cbn in Hnil. lia. }
  split; [done|]. split; [by apply zero_chunk_concat|]. split; [done|].
  assert (length (pages' !!! bi_idx iter) = length (pages !!! bi_idx iter))
    as Hlq by (by apply lookup_total_length_eq).
  unfold bio_advance_iter. destruct (Nat.eqb_spec len 0); [lia|].
  rewrite Hlq.
  destruct (Nat.eqb_spec (bi_bvec_done iter + len)
              (length (pages !!! bi_idx iter))) as [Heq|Hneq].
  - unfold bio_wf, flat_pos. cbn.
    assert (length (concat (take (S (bi_idx iter)) pages'))
            = length (concat (take (bi_idx iter) pages))
              + length (pages !!! bi_idx iter)) as Hpos.
    { rewrite (take_lengths_eq pages' pages) by done.
      rewrite (take_S_r pages _ (pages !!! bi_idx iter))
        by (by apply list_lookup_lookup_total_lt).
      rewrite concat_app, length_app. cbn. rewrite app_nil_r. done. }
    rewrite Hpos, (concat_length_eq pages' pages) by done.
    unfold flat_pos in Htot.
    repeat split; try done; try lia.
    intros Hlt. apply Nat.neq_0_lt_0. intros H0.
    apply length_zero_iff_nil in H0.
    by eapply (Forall_lookup_total_1 _ pages' (S (bi_idx iter))) in Hne'; [|lia].
  - unfold bio_wf, flat_pos. cbn.
    rewrite (take_lengths_eq pages' pages), (concat_length_eq pages' pages),
      Hlq by done.
    unfold flat_pos in Htot. repeat split; try done; lia.
Qed.

Lemma splice_twice (c za zb : list byte) (P : nat) :
  P + length za + length zb ≤ length c →
  take (P + length za) (take P c ++ za ++ drop (P + length za) c) ++ zb
  ++ drop (P + length za + length zb)
       (take P c ++ za ++ drop (P + length za) c)
  = take P c ++ (za ++ zb) ++ drop (P + length za + length zb) c.
Proof.
  intros H.
  assert (length (take P c) = P) as HP by (rewrite length_take; lia).
  rewrite (app_assoc (take P c) za).
  rewrite take_app_length' by (rewrite length_app; lia).
  rewrite drop_app_ge by (rewrite length_app; lia).
  rewrite length_app, HP, drop_drop.
  replace (P + length za + (P + length za + length zb - (P + length za)))
    with (P + length za + length zb) by lia.
  by rewrite <- !app_assoc.
Qed.

(** Zero-filling one block through a well-formed iterator: the loop ends,
    logs nothing, overwrites exactly the next [todo] bytes of the payload
    with zeros and advances the iterator by [todo]. *)
Lemma for_bv_block_zero_run fuel iter todo s :
  0 < todo ≤ fuel → bio_wf (bio_pages s) iter → todo ≤ bi_size iter →
  ∃ pages' iter',
    for_bv_block_loop fuel verity_bv_zero iter todo s
    = Some ((0%Z, iter'), set_bio_pages pages' s, [])
    ∧ concat pages'
      = take (flat_pos (bio_pages s) iter) (concat (bio_pages s))
        ++ replicate todo x00
        ++ drop (flat_pos (bio_pages s) iter + todo) (concat (bio_pages s))
    ∧ length <$> pages' = length <$> bio_pages s
    ∧ bio_wf pages' iter'
    ∧ flat_pos pages' iter' = flat_pos (bio_pages s) iter + todo
    ∧ bi_size iter' = bi_size iter - todo.
Proof.
  revert iter todo s.
  induction fuel as [|fuel IH]; intros iter todo s Htodo Hwf Hsz; [lia|].
  destruct (zero_step (bio_pages s) iter todo Hwf ltac:(lia) Hsz)
    as (Hlen & Hcat & Hlens & Hwf' & Hpos & Hsize).
  cbn [for_bv_block_loop]. unfold bind, get, modify, ret, verity_bv_zero,
    bio_iter_iovec.
  cbn.
  set (len0 := Nat.min _ _) in *.
  set (len := if (todo <=? len0)%nat then _ else _) in *.
  fold (zero_chunk (bio_pages s) (bi_idx iter) (bi_bvec_done iter) len).
  set (pages1 := zero_chunk (bio_pages s) (bi_idx iter) (bi_bvec_done iter) len)
    in *.
  set (iter1 := bio_advance_iter pages1 iter len) in *.
  destruct (Nat.eqb_spec (todo - len) 0) as [Hz|Hnz].
  - assert (len = todo) as Hlt by lia. rewrite Hlt in *.
    exists pages1, iter1. cbn. done.
  - destruct (IH iter1 (todo - len) (set_bio_pages pages1 s))
      as (pages' & iter' & Hrun & Hcat' & Hlens' & Hwf'' & Hpos' & Hsize');
      [lia|done|lia|].
    fold verity_bv_zero. rewrite Hrun. cbn in *.
    exists pages', iter'. split; [done|].
    split.
    + rewrite Hcat', Hpos, Hcat.
      assert (flat_pos (bio_pages s) iter + todo ≤ length (concat (bio_pages s)))
        as Hfit by (destruct Hwf as (_ & _ & ?); lia).
      pose proof (splice_twice (concat (bio_pages s)) (replicate len x00)
                    (replicate (todo - len) x00) (flat_pos (bio_pages s) iter))
        as Hsp.
      rewrite !length_replicate in Hsp.
      replace (flat_pos (bio_pages s) iter + len + (todo - len))
        with (flat_pos (bio_pages s) iter + todo) in * by lia.
      rewrite Hsp by lia. rewrite <- replicate_add.
      by replace (len + (todo - len)) with todo by lia.
    + split; [congruence|]. split; [done|]. split; lia.
Qed.

End ZeroBlocks.

#[local] Transparent verity_hash_for_block verity_for_bv_block.
#[local] Opaque verity_verify_level.

(** [*is_zero] is only ever set on a successful return. *)
Lemma hash_for_block_is_zero (X : externals) v block digest s r want s' t :
  verity_hash_for_block X v block digest s = Some ((r, want, true), s', t) →
  r = 0.
Proof.
  unfold verity_hash_for_block, hash_for_block_out.
  unfold bind, ret.
  repeat (cbn; run_step); cbn; intros ?; simplify_eq; bool_hyps; done.
Qed.

(** Finding the expected digest touches neither the payload of the bio nor
    the iterator of the io. *)
Lemma hash_for_block_keeps_bio (X : externals) v block digest s r s' t :
  verity_hash_for_block X v block digest s = Some (r, s', t) →
  bio_pages s' = bio_pages s ∧ io_iter s' = io_iter s.
Proof.
  intros H.
  eapply (keeps_hash_for_block X
            (λ s s', bio_pages s' = bio_pages s ∧ io_iter s' = io_iter s)
            (λ _, True));
    try exact H; try done.
  intros s1 s2 s3 [? ?] [? ?]. split; congruence.
Qed.

#[local] Transparent verity_verify_level.
#[local] Opaque verity_hash_for_block.

(** C5, as amended.  When the expected digest of a data block equals the
    zero digest ([*is_zero] true), that pass of [verity_verify_io] logs
    nothing beyond finding the digest (no hash attempt on the data, the
    descriptor is not fed), overwrites the next [1 << data_dev_block_bits]
    bytes of the payload with zeros and goes on with the next block; and
    [io->iter] has advanced by exactly that many bytes. *)
Theorem C5_zero_block_zero_filled (X : externals) (v : dm_verity)
  (block b : Z) (s s1 : state) (r : Z) (want : list byte) (t1 : list event) :
  let bs := Z.to_nat (u32 (Z.shiftl 1 (data_dev_block_bits v))) in
  let P := flat_pos (bio_pages s) (io_iter s) in
  verity_hash_for_block X v (u64 (block + b)) (io_want_digest s) s
  = Some ((r, want, true), s1, t1) →
  bio_wf (bio_pages s) (io_iter s) →
  (0 < bs ≤ bi_size (io_iter s))%nat →
  ∃ s',
    verify_io_block X v block b s = Some (None, s', t1)
    ∧ List.filter (is_attempt DM_VERITY_BLOCK_TYPE_DATA) t1 = []
    ∧ io_desc s' = io_desc s1
    ∧ concat (bio_pages s')
      = take P (concat (bio_pages s)) ++ replicate bs x00
        ++ drop (P + bs) (concat (bio_pages s))
    ∧ length <$> bio_pages s' = length <$> bio_pages s
    ∧ bi_size (io_iter s') = (bi_size (io_iter s) - bs)%nat
    ∧ flat_pos (bio_pages s') (io_iter s') = (P + bs)%nat.
Proof.
  intros bs P Hh Hwf Hbs.
  pose proof (hash_for_block_is_zero _ _ _ _ _ _ _ _ _ Hh) as ->.
  destruct (hash_for_block_keeps_bio _ _ _ _ _ _ _ _ Hh) as [Hpages Hiter].
  pose proof (hash_for_block_no_data_attempts _ _ _ _ _ _ _ _ Hh) as Hnone.
  destruct (for_bv_block_zero_run (S bs) (io_iter s) bs
              (set_io_want_digest want s1))
    as (pages' & iter' & Hrun & Hcat & Hlens & Hwf' & Hpos & Hsize);
    [lia|cbn; by rewrite Hpages|lia|].
  cbn in Hcat, Hlens, Hpos. rewrite Hpages in Hcat, Hlens, Hpos.
  unfold verify_io_block, retry_fuel. cbn [verify_io_LABEL].
  unfold bind, get, modify, ret. rewrite Hh.
  cbn -[verity_for_bv_block].
  unfold verity_for_bv_block.
  change (Z.to_nat (u32 (Z.shiftl 1 (data_dev_block_bits v)))) with bs.
  rewrite Hiter, Hrun. cbn.
  eexists. split; [by rewrite app_nil_r|]. cbn. done.
Qed.

(** ** The fixed fallback sequence *)

(** More passes than [retry_fuel] change nothing: the third pass through
    [LABEL] is never taken. *)
Lemma verify_level_LABEL_fuel (X : externals) n v hb want :
  verify_level_LABEL X (S (S n)) v hb want 0
  = verify_level_LABEL X retry_fuel v hb want 0.
Proof. reflexivity. Qed.

Lemma verify_io_LABEL_fuel (X : externals) n v cur start_retry :
  verify_io_LABEL X (S (S n)) v cur 0 start_retry
  = verify_io_LABEL X retry_fuel v cur 0 start_retry.
Proof. reflexivity. Qed.

(** C2. Every call of [verity_verify_level] returns, and what it logs about
    its hash block (hash attempts, FEC calls, policy calls) is a prefix of
    the fixed sequence: primary transform, fallback transform, FEC decoder,
    corruption policy; every pass of [verity_verify_io] over a data block
    that returns logs such a prefix about that data block.  So the content
    is hashed at most twice, the fallback only after the primary, the
    decoder is called at most once and after both, and the policy is
    consulted only once all three have been logged. *)
Theorem C2_fixed_fallback_sequence (X : externals) (v : dm_verity) :
  (∀ block level skip want s,
     ∃ r s' t,
       verity_verify_level X v block level skip want s = Some (r, s', t)
       ∧ List.filter (is_attempt DM_VERITY_BLOCK_TYPE_METADATA) t
           `prefix_of` attempt_sequence DM_VERITY_BLOCK_TYPE_METADATA
                         (verity_hash_at_level v block level).1
       ∧ (In (EvHandleErr DM_VERITY_BLOCK_TYPE_METADATA
                (verity_hash_at_level v block level).1) t →
          List.filter (is_attempt DM_VERITY_BLOCK_TYPE_METADATA) t
          = attempt_sequence DM_VERITY_BLOCK_TYPE_METADATA
              (verity_hash_at_level v block level).1))
  ∧ (∀ block b s r s' t,
       verify_io_block X v block b s = Some (r, s', t) →
       List.filter (is_attempt DM_VERITY_BLOCK_TYPE_DATA) t
         `prefix_of` attempt_sequence DM_VERITY_BLOCK_TYPE_DATA
                       (u64 (block + b))
       ∧ (In (EvHandleErr DM_VERITY_BLOCK_TYPE_DATA (u64 (block + b))) t →
          List.filter (is_attempt DM_VERITY_BLOCK_TYPE_DATA) t
          = attempt_sequence DM_VERITY_BLOCK_TYPE_DATA (u64 (block + b)))).
Proof.
  split.
  - intros block level skip want s.
    pose proof (verify_level_attempts X v block level skip want s) as H.
    destruct (verity_verify_level X v block level skip want s)
      as [[[r s'] t]|]; [|done].
    exists r, s', t. split; [done|]. split; [done|].
    intros Hin. apply attempt_sequence_complete; [done|].
    apply List.filter_In. split; [done|]. cbn. by apply bool_decide_eq_true_2.
  - intros block b s r s' t H. unfold verify_io_block in H.
    unfold bind, get in H. cbv beta iota in H.
    assert (verify_io_LABEL X retry_fuel v (u64 (block + b)) 0 (io_iter s) s
            = Some (r, s', t)) as H'.
    { destruct (verify_io_LABEL X retry_fuel v (u64 (block + b)) 0 (io_iter s) s)
        as [[[r0 s0] t0]|]; [|done]. cbn [app] in H. by injection H as -> -> ->. }
    apply verify_io_LABEL_attempts in H'. split; [done|].
    intros Hin. apply attempt_sequence_complete; [done|].
    apply List.filter_In. split; [done|]. cbn. by apply bool_decide_eq_true_2.
Qed.

(** ** A tree without levels *)

#[local] Opaque verity_handle_err verity_hash_for_block
  verity_hash_init verity_hash_final verity_hash_update memcmp_eq.




#[local] Opaque verity_for_bv_block.



#[local] Transparent verity_hash_for_block.


(** ** Concrete runs *)

#[local] Transparent verity_handle_err verity_hash_for_block
  verity_for_bv_block verity_hash_init verity_hash_final verity_hash_update
  verity_hash_sel_sha memcmp_eq memcpy_from verity_verify_level.

Example ctr_one_block :
  verity_ctr toy_externals env_one args_one = Some (inr v_zero).
Proof. vm_compute. reflexivity. Qed.

Lemma C3_logging_until_max_witness :
  (∃ s', verity_handle_err toy_externals v_4k DM_VERITY_BLOCK_TYPE_DATA 7 st_meta
         = Some (0, s', [EvHandleErr DM_VERITY_BLOCK_TYPE_DATA 7;
                         EvUevent DM_VERITY_BLOCK_TYPE_DATA 7])
         ∧ corrupted_errs s' = corrupted_errs st_meta + 1)
  ∧ (∃ s', verity_handle_err toy_externals v_4k DM_VERITY_BLOCK_TYPE_DATA 7 st_full
           = Some (1, s', [EvHandleErr DM_VERITY_BLOCK_TYPE_DATA 7])
           ∧ corrupted_errs s' = corrupted_errs st_full).
Proof.
  split.
  - apply (proj1 (C3_logging_until_max toy_externals v_4k
                    DM_VERITY_BLOCK_TYPE_DATA 7 st_meta)); [reflexivity|].
    cbn. lia.
  - apply (proj2 (C3_logging_until_max toy_externals v_4k
                    DM_VERITY_BLOCK_TYPE_DATA 7 st_full)).
    cbn. lia.
Defined.



Lemma C4_continue_leaves_flag_unset_witness :
  ∃ s' t,
    verity_verify_level toy_externals v_4k 0 0 false (replicate 32 x00) st_meta
    = Some ((0, memcpy_from (b_data buf_x11)
                  (verity_hash_at_level v_4k 0 0).2 (digest_size v_4k)), s', t)
    ∧ bufio s' !! (verity_hash_at_level v_4k 0 0).1 = Some buf_x11.
Proof.
  apply (C4_continue_leaves_flag_unset toy_externals v_4k 0 0
           (replicate 32 x00) st_meta st_meta buf_x11 [EvBufioRead 1]).
  - vm_compute. reflexivity.
  - reflexivity.
  - exists 0, (x5a :: replicate 31 x11).
    split; [vm_compute; reflexivity|]. split; [lia|vm_compute; reflexivity].
  - exists 0, (x5a :: replicate 31 x11).
    split; [vm_compute; reflexivity|]. split; [lia|vm_compute; reflexivity].
  - reflexivity.
  - eexists _, _. reflexivity.
Defined.

Lemma C9_hash_verified_monotone_witness :
  ∃ r s' t,
    verity_verify_level toy_externals v_4k 0 0 false
      (x5a :: replicate 31 x11) st_meta = Some (r, s', t)
    ∧ flags_monotone st_meta s'
    ∧ hash_verified (b_aux (buffer_at s' 1)) = 1.
Proof.
  destruct (verity_verify_level toy_externals v_4k 0 0 false
              (x5a :: replicate 31 x11) st_meta) as [[[r s'] t]|] eqn:E;
    [|vm_compute in E; discriminate].
  exists r, s', t. split; [reflexivity|]. split.
  - exact (proj1 (proj1 (proj2 (C9_hash_verified_monotone toy_externals v_4k))
                    _ _ _ _ _ _ _ _ E)).
  - vm_compute in E. injection E as <- <- <-. vm_compute. reflexivity.
Defined.

Lemma C2_fixed_fallback_sequence_witness :
  ∃ r s' t,
    verify_io_block toy_externals v_root 0 0 st_io = Some (r, s', t)
    ∧ List.filter (is_attempt DM_VERITY_BLOCK_TYPE_DATA) t
      = attempt_sequence DM_VERITY_BLOCK_TYPE_DATA (u64 (0 + 0)).
Proof.
  destruct (verify_io_block toy_externals v_root 0 0 st_io)
    as [[[r s'] t]|] eqn:E; [|vm_compute in E; discriminate].
  exists r, s', t. split; [reflexivity|].
  apply (proj2 (proj2 (C2_fixed_fallback_sequence toy_externals v_root)
                  0 0 st_io r s' t E)).
  vm_compute in E. injection E as <- <- <-. vm_compute. tauto.
Defined.

Lemma C5_zero_block_zero_filled_witness :
  ∃ s',
    verify_io_block toy_externals v_zero 0 0 st_io = Some (None, s', [])
    ∧ concat (bio_pages s') = replicate 512 x00
    ∧ bi_size (io_iter s') = 0%nat.
Proof.
  destruct (C5_zero_block_zero_filled toy_externals v_zero 0 0 st_io st_io 0
              (replicate 32 x00) [])
    as (s' & Hrun & _ & _ & Hcat & _ & Hsz & _).
  - vm_compute. reflexivity.
  - split; [repeat constructor; discriminate|].
    split; [intros _; vm_compute; lia|vm_compute; lia].
  - vm_compute. lia.
  - exists s'. split; [exact Hrun|]. split; [|exact Hsz].
    rewrite Hcat. vm_compute. reflexivity.
Defined.

(** C5 as stated fails on the iterator: a zero block is zero-filled without
    being hashed, but [io->iter] is walked over the block and ends 512
    bytes further, in the next segment. *)
Lemma C5_counterexample :
  ∃ s' t,
    verity_hash_for_block toy_externals v_zero (u64 (0 + 0))
      (io_want_digest st_io) st_io
    = Some ((0, replicate 32 x00, true), st_io, [])
    ∧ verify_io_block toy_externals v_zero 0 0 st_io = Some (None, s', t)
    ∧ io_iter st_io = {| bi_size := 512; bi_idx := 0; bi_bvec_done := 0 |}
    ∧ io_iter s' = {| bi_size := 0; bi_idx := 1; bi_bvec_done := 0 |}
    ∧ io_iter s' ≠ io_iter st_io.
Proof.
  destruct (verify_io_block toy_externals v_zero 0 0 st_io)
    as [[[r s'] t]|] eqn:E; vm_compute in E; [|discriminate].
  injection E as <- <- <-. eexists _, _.
  split; [vm_compute; reflexivity|]. split; [reflexivity|].
  split; [reflexivity|]. split; [reflexivity|]. cbn. discriminate.
Qed.



(** * Further properties of the driver *)

(** ** Layout of the tree on the hash device *)

Lemma u32_small x : 0 ≤ x < 2 ^ 32 → u32 x = x.
Proof. intros. unfold u32. by apply Z.mod_small. Qed.

Lemma u64_sub_1 x : u64 (u64 x - 1) = u64 (x - 1).
Proof. unfold u64. rewrite Zminus_mod_idemp_l. reflexivity. Qed.

Lemma hash_level_loop_spec n hpb db pos hlb pos' hlb' :
  0 ≤ hpb → 0 ≤ db ≤ 2 ^ 63 → 0 ≤ pos < 2 ^ 64 → (n ≤ length hlb)%nat →
  hash_level_loop n hpb db pos hlb = Some (inr (pos', hlb')) →
  pos ≤ pos' < 2 ^ 64
  ∧ length hlb' = length hlb
  ∧ (∀ i, (n ≤ i)%nat → hlb' !! i = hlb !! i)
  ∧ match n with
    | O => pos' = pos
    | S m =>
        hlb' !! m = Some pos
        ∧ (∀ i, (i < m)%nat →
             hlb' !!! i = hlb' !!! S i + level_blocks hpb db (Z.of_nat (S i)))
        ∧ pos' = hlb' !!! 0%nat + level_blocks hpb db 0
    end.
Proof.
  intros Hhpb Hdb. revert pos hlb.
  induction n as [|m IH]; intros pos hlb Hpos Hlen; cbn [hash_level_loop].
  { intros [= <- <-]. repeat split; try done; lia. }
  set (sh := (Z.of_nat m + 1) * hpb).
  destruct (Z.ltb_spec sh 0) as [?|Hsh0]; [done|].
  destruct (Z.leb_spec 64 sh) as [?|Hsh]; [done|]. cbn [orb].
  assert (0 < 2 ^ sh ≤ 2 ^ 63) as Hp.
  { split; [apply Z.pow_pos_nonneg; lia|apply Z.pow_le_mono_r; lia]. }
  rewrite u64_sub_1, Z.shiftl_mul_pow2, Z.mul_1_l by done.
  rewrite (u64_small (2 ^ sh)) by lia.
  rewrite (u64_small (db + 2 ^ sh - 1)) by lia.
  set (s := Z.shiftr (db + 2 ^ sh - 1) sh).
  assert (s = level_blocks hpb db (Z.of_nat m)) as Hsdef by reflexivity.
  assert (0 ≤ s < 2 ^ 64) as Hs.
  { subst s. rewrite Z.shiftr_div_pow2 by done.
    split; [apply Z.div_pos; lia|].
    apply Z.div_lt_upper_bound; [lia|]. nia. }
  destruct (Z.ltb_spec (u64 (pos + s)) pos) as [?|Hnw]; [done|].
  assert (pos + s < 2 ^ 64) as Hfit.
  { destruct (Z.lt_ge_cases (pos + s) (2 ^ 64)) as [|Hge]; [done|].
    unfold u64 in Hnw.
    rewrite <- (Z.mod_add _ (-1)), Z.mod_small in Hnw by lia. lia. }
  rewrite u64_small by lia. intros Hrun.
  apply IH in Hrun as (Hpos' & Hlen' & Hhigh & Hlow);
    [|lia|rewrite length_insert; lia].
  rewrite length_insert in Hlen'.
  assert (hlb' !! m = Some pos) as Hm.
  { rewrite Hhigh by lia. apply list_lookup_insert_eq. lia. }
  split; [lia|]. split; [done|]. split.
  { intros i Hi. rewrite Hhigh by lia. apply list_lookup_insert_ne. lia. }
  split; [done|].
  destruct m as [|m'].
  - rewrite (list_lookup_total_correct _ _ _ Hm). split; [intros; lia|].
    change (Z.of_nat 0) with 0 in Hsdef. lia.
  - destruct Hlow as (Hm' & Hrec & Hend). split; [|done].
    intros i Hi. destruct (decide (i = m')) as [->|Hne].
    + rewrite (list_lookup_total_correct _ _ _ Hm),
        (list_lookup_total_correct _ _ _ Hm'). lia.
    + apply Hrec. lia.
Qed.

Lemma hash_level_loop_shift m hpb db pos hlb r :
  hash_level_loop (S m) hpb db pos hlb = Some (inr r) →
  0 ≤ (Z.of_nat m + 1) * hpb < 64.
Proof.
  cbn [hash_level_loop].
  destruct (Z.ltb_spec ((Z.of_nat m + 1) * hpb) 0); [done|].
  destruct (Z.leb_spec 64 ((Z.of_nat m + 1) * hpb)); [done|]. lia.
Qed.

(** What an accepted table line fixes about the tree. *)
Lemma verity_ctr_geometry (X : externals) e a v :
  verity_ctr X e a = Some (inr v) →
  0 ≤ hash_per_block_bits v
  ∧ 0 ≤ data_blocks v < 2 ^ 64
  ∧ 0 ≤ hash_start v < 2 ^ 64
  ∧ 0 ≤ levels v ≤ DM_VERITY_MAX_LEVELS e
  ∧ (0 < levels v →
     hash_per_block_bits v * levels v < 64
     ∧ data_blocks v ≤ 2 ^ (hash_per_block_bits v * levels v))
  ∧ hash_level_loop (Z.to_nat (levels v)) (hash_per_block_bits v)
      (data_blocks v) (hash_start v)
      (replicate (Z.to_nat (DM_VERITY_MAX_LEVELS e)) 0)
    = Some (inr (hash_blocks v, hash_level_block v)).
Proof.
  intros Hctr. apply verity_ctr_inv in Hctr as (v0 & Hargs & Htree).
  apply verity_ctr_args_inv in Hargs
    as (_ & _ & _ & Hdbits & Hhbits & _ & [Hdb0 Hdb1] & _ & [Hhs0 Hhs1] & _ & _
        & _ & _ & _ & Hhlb).
  apply verity_ctr_tree_inv in Htree
    as (Hhpb & Hlv & Hmax & Hloop & _ & _ & _ & _ & _ & _ & _ & Hdbe & Hhse & _).
  rewrite Hhlb, <- Hdbe, <- Hhse in Hloop. rewrite <- Hdbe in Hlv, Hdb0, Hdb1.
  rewrite <- Hhse in Hhs0, Hhs1.
  assert (0 ≤ hash_per_block_bits v) as Hhpb0
    by (rewrite Hhpb; apply Z.log2_nonneg).
  assert (∀ k, SECTOR_SHIFT ≤ k → 1 ≤ 2 ^ (k - SECTOR_SHIFT)) as Hpow.
  { intros k Hk. apply Z.pow_le_mono_r with (b := 0) (a := 2); lia. }
  pose proof (Hpow _ Hdbits). pose proof (Hpow _ Hhbits).
  assert (data_blocks v < 2 ^ 64) by nia.
  assert (hash_start v < 2 ^ 64) by nia.
  assert (0 ≤ levels v) as Hlv0.
  { unfold compute_levels in Hlv.
    destruct (data_blocks v =? 0); [by injection Hlv as <-|].
    apply levels_loop_spec in Hlv; lia. }
  split; [done|]. split; [done|]. split; [done|]. split; [done|].
  split; [|done]. intros Hpos.
  assert (hash_per_block_bits v * levels v < 64) as Hsh.
  { destruct (Z.to_nat (levels v)) as [|m] eqn:Em; [lia|].
    apply hash_level_loop_shift in Hloop.
    replace (Z.of_nat m + 1) with (levels v) in Hloop by lia. lia. }
  split; [done|].
  destruct (Z.eq_dec (data_blocks v) 0) as [->|Hne].
  { apply Z.pow_nonneg. lia. }
  apply compute_levels_spec in Hlv as (_ & _ & [Hc|Hc] & _); [lia| |lia..].
  rewrite Z.shiftr_div_pow2 in Hc by lia.
  assert (0 < 2 ^ (hash_per_block_bits v * levels v))
    by (apply Z.pow_pos_nonneg; lia).
  apply Z.div_small_iff in Hc; lia.
Qed.




(** ** Addressing inside the tree *)

Lemma pow2_land_pred x :
  0 < x → Z.land x (x - 1) = 0 → x = 2 ^ Z.log2 x.
Proof.
  intros Hx Hland.
  destruct (Z.log2_spec x Hx) as [Hlo Hhi].
  destruct (Z.le_gt_cases x (2 ^ Z.log2 x)) as [|Hgt]; [lia|].
  assert (0 < 2 ^ Z.log2 x) by (apply Z.pow_pos_nonneg; [lia|apply Z.log2_nonneg]).
  assert (Z.log2 (x - 1) = Z.log2 x) as Hl.
  { apply Z.log2_unique; [apply Z.log2_nonneg|].
    rewrite <- Z.add_1_r. change (Z.succ (Z.log2 x)) with (Z.log2 x + 1) in Hhi.
    rewrite Z.add_1_r. lia. }
  assert (Z.testbit (Z.land x (x - 1)) (Z.log2 x) = true) as Hb.
  { rewrite Z.land_spec, Z.bit_log2 by done.
    rewrite <- Hl. rewrite Z.bit_log2 by lia. done. }
  rewrite Hland, Z.bits_0 in Hb. done.
Qed.

(** [__ffs] of a power of two is its exponent. *)
Lemma ffs_pow2 x :
  0 < x → Z.land x (x - 1) = 0 → 0 ≤ __ffs x ∧ x = 2 ^ __ffs x.
Proof.
  intros Hx Hland. pose proof (pow2_land_pred x Hx Hland) as Hp.
  set (k := Z.log2 x) in *. assert (0 ≤ k) by apply Z.log2_nonneg.
  assert (Z.land x (- x) = x) as Hl.
  { replace (- x) with (Z.lnot (Z.ones k))
      by (rewrite Z.ones_equiv; unfold Z.lnot; lia).
    rewrite <- Z.ldiff_land, Z.ldiff_ones_r by done.
    rewrite Z.shiftr_div_pow2, Z.shiftl_mul_pow2 by done.
    rewrite Hp at 1. rewrite Z.div_same by lia. lia. }
  unfold __ffs. rewrite Hl. fold k. done.
Qed.

Lemma verity_ctr_args_block_sizes (X : externals) e a v :
  verity_ctr_args X e a = Some (inr v) →
  2 ^ data_dev_block_bits v = arg_data_block_size a
  ∧ arg_data_block_size a ≤ PAGE_SIZE e
  ∧ 2 ^ hash_dev_block_bits v = arg_hash_block_size a
  ∧ arg_hash_block_size a ≤ INT_MAX.
Proof.
  unfold verity_ctr_args. ctr_cases. intros [= <-]. cbn.
  repeat match goal with
         | H : (_ || _) = false |- _ => apply orb_false_elim in H as [? ?]
         | H : negb _ = false |- _ => apply negb_false_iff in H
         | H : (_ =? _) = true |- _ => apply Z.eqb_eq in H
         | H : (_ =? _) = false |- _ => apply Z.eqb_neq in H
         | H : (_ <? _) = false |- _ => apply Z.ltb_ge in H
         end.
  assert (∀ x, x ≠ 0 → Z.land x (x - 1) = 0 → 0 < x) as Hpos.
  { intros x Hx Hl. destruct (Z.lt_ge_cases x 0) as [Hneg|]; [|lia].
    assert (Z.land x (x - 1) < 0) by (apply Z.land_neg; lia). lia. }
  repeat split; try done; symmetry; apply ffs_pow2; auto.
Qed.

Lemma verity_ctr_digests_fit (X : externals) e a v :
  verity_ctr X e a = Some (inr v) →
  SECTOR_SHIFT ≤ hash_dev_block_bits v ≤ 30
  ∧ 0 < digest_size v
  ∧ 1 ≤ hash_per_block_bits v ≤ hash_dev_block_bits v
  ∧ digest_size v * 2 ^ hash_per_block_bits v ≤ 2 ^ hash_dev_block_bits v.
Proof.
  intros Hctr. apply verity_ctr_inv in Hctr as (v0 & Hargs & Htree).
  pose proof (verity_ctr_args_block_sizes _ _ _ _ Hargs) as (_ & _ & Hhb & Hmax).
  apply verity_ctr_args_inv in Hargs
    as (_ & _ & _ & _ & Hhbits & _ & _ & _ & _ & _ & Hle & _ & Hlen & _).
  pose proof Htree as Htree'. unfold verity_ctr_tree in Htree'.
  destruct (Z.eqb_spec (digest_size v0) 0) as [|Hd0]; [done|].
  destruct (Z.eqb_spec (Z.shiftl 1 (hash_dev_block_bits v0) / digest_size v0) 0)
    as [|Hq0]; [done|]. clear Htree'.
  apply verity_ctr_tree_inv in Htree
    as (Hhpb & _ & _ & _ & _ & _ & -> & -> & _).
  rewrite Hhpb. clear Hhpb.
  assert (0 ≤ hash_dev_block_bits v0) by (unfold SECTOR_SHIFT in *; lia).
  rewrite shiftl_1_pow2 in * by done.
  assert (hash_dev_block_bits v0 ≤ 30) as H30.
  { destruct (Z.le_gt_cases (hash_dev_block_bits v0) 30) as [|Hgt]; [done|].
    assert (2 ^ 31 ≤ 2 ^ hash_dev_block_bits v0)
      by (apply Z.pow_le_mono_r; lia).
    unfold INT_MAX in Hmax. lia. }
  assert (0 < digest_size v0) as Hd by lia.
  assert (2 ^ hash_dev_block_bits v0 ≤ 2 ^ 30) by (apply Z.pow_le_mono_r; lia).
  set (q := 2 ^ hash_dev_block_bits v0 / digest_size v0) in *.
  assert (0 < q) as Hq.
  { assert (0 ≤ q) by (apply Z.div_pos; lia). lia. }
  destruct (Z.log2_spec q Hq) as [Hlo Hhi]. unfold __fls.
  assert (digest_size v0 * q ≤ 2 ^ hash_dev_block_bits v0) as Hdq
    by (apply Z.mul_div_le; lia).
  assert (2 ≤ q).
  { unfold u32 in Hle. apply Z.div_le_lower_bound; [lia|].
    destruct (Z.lt_ge_cases (digest_size v0) (2 ^ 31)) as [Hs|Hs].
    - rewrite Z.mod_small in Hle by lia. lia.
    - subst q. rewrite Z.div_small in Hq by lia. lia. }
  assert (1 ≤ Z.log2 q).
  { change 1 with (Z.log2 2). by apply Z.log2_le_mono. }
  repeat split; try done.
  - etrans; [|apply Z.eq_le_incl, (Z.log2_pow2 (hash_dev_block_bits v0)); done].
    apply Z.log2_le_mono. apply Z.div_le_upper_bound; nia.
  - nia.
Qed.

Lemma hash_offset_in_block (X : externals) (e : ctr_env)
  (a : verity_args) (v : dm_verity) (block level : Z) :
  verity_ctr X e a = Some (inr v) →
  let slot := if version v =? 0 then digest_size v
              else 2 ^ (hash_dev_block_bits v - hash_per_block_bits v) in
  let idx := verity_position_at_level v block level
             mod 2 ^ hash_per_block_bits v in
  snd (verity_hash_at_level v block level) = idx * slot
  ∧ digest_size v ≤ slot
  ∧ 0 ≤ idx * slot
  ∧ idx * slot + digest_size v ≤ 2 ^ hash_dev_block_bits v.
Proof.
  intros Hctr slot idx.
  apply verity_ctr_digests_fit in Hctr as (Hhb & Hd & Hhpb & Hfit).
  unfold SECTOR_SHIFT in Hhb.
  assert (0 < 2 ^ hash_per_block_bits v) as Hp by (apply Z.pow_pos_nonneg; lia).
  assert (0 ≤ idx < 2 ^ hash_per_block_bits v) as Hidx
    by (apply Z.mod_pos_bound; done).
  assert (2 ^ hash_dev_block_bits v ≤ 2 ^ 30) by (apply Z.pow_le_mono_r; lia).
  assert (2 ^ hash_per_block_bits v ≤ 2 ^ 30) by (apply Z.pow_le_mono_r; lia).
  assert (2 ^ hash_dev_block_bits v =
          2 ^ hash_per_block_bits v
          * 2 ^ (hash_dev_block_bits v - hash_per_block_bits v)) as Hsplit.
  { rewrite <- Z.pow_add_r by lia. f_equal. lia. }
  assert (0 < 2 ^ (hash_dev_block_bits v - hash_per_block_bits v)) as Hs
    by (apply Z.pow_pos_nonneg; lia).
  assert (digest_size v ≤ slot ∧ 0 < slot
          ∧ slot * 2 ^ hash_per_block_bits v ≤ 2 ^ hash_dev_block_bits v)
    as (Hslot & Hslot0 & Hslotp).
  { subst slot. destruct (version v =? 0); [lia|]. split; [|lia].
    apply Z.mul_le_mono_pos_r with (p := 2 ^ hash_per_block_bits v); lia. }
  assert (snd (verity_hash_at_level v block level) = idx * slot) as ->.
  { unfold verity_hash_at_level. cbn [snd].
    rewrite shiftl_1_pow2 by lia.
    replace (2 ^ hash_per_block_bits v - 1) with (Z.ones (hash_per_block_bits v))
      by (rewrite Z.ones_equiv; lia).
    rewrite Z.land_ones by lia. fold idx.
    rewrite (u32_small idx) by lia.
    subst slot. destruct (version v =? 0).
    - apply u32_small. nia.
    - rewrite Z.shiftl_mul_pow2 by lia. apply u32_small. nia. }
  split; [done|]. split; [done|]. split; nia.
Qed.

(** X2. On an accepted table line the digest of any block at any level
    lies inside its hash block: the offset is the slot index (the position at
    that level modulo the digests per block) times the slot size, the slot
    size is the digest size for version 0 and the block size divided by the
    digests per block otherwise, a slot holds a digest, and the digest ends
    at or before the end of the block. *)
Theorem hash_at_level_offset_in_block (X : externals) (e : ctr_env)
  (a : verity_args) (v : dm_verity) (block level : Z) :
  verity_ctr X e a = Some (inr v) →
  let slot := if version v =? 0 then digest_size v
              else 2 ^ (hash_dev_block_bits v - hash_per_block_bits v) in
  let idx := verity_position_at_level v block level
             mod 2 ^ hash_per_block_bits v in
  snd (verity_hash_at_level v block level) = idx * slot
  ∧ digest_size v ≤ slot
  ∧ 0 ≤ idx * slot
  ∧ idx * slot + digest_size v ≤ 2 ^ hash_dev_block_bits v.
Proof. apply hash_offset_in_block. Qed.

Lemma hash_at_level_offset_in_block_witness :
  ∃ v, verity_ctr toy_externals env_4k (args_4k 5) = Some (inr v)
       ∧ snd (verity_hash_at_level v 130 0) = 64.
Proof.
  destruct (verity_ctr toy_externals env_4k (args_4k 5)) as [[r|v]|] eqn:E;
    [vm_compute in E; discriminate| |vm_compute in E; discriminate].
  exists v. split; [reflexivity|].
  destruct (hash_at_level_offset_in_block toy_externals env_4k (args_4k 5) v
              130 0 E) as [-> _].
  injection E as <-. reflexivity.
Defined.





(** ** Optional arguments *)

Lemma verity_hash_digest (X : externals) v desc data r desc' d :
  0 ≤ version v →
  verity_hash X v desc data = (r, desc', Some d) →
  d = crypto_shash_digest X tfm_sha2ce (salted v data).
Proof.
  intros Hv.
  unfold verity_hash, verity_hash_init, verity_hash_update,
    verity_hash_final, crypto_shash_init, crypto_shash_update,
    crypto_shash_final, salted.
  cbn.
  repeat match goal with
         | |- context [if ?b then _ else _] => destruct b eqn:?
         end; cbn; try discriminate;
  repeat match goal with
         | H : (_ <=? _) = true |- _ => apply Z.leb_le in H
         | H : (_ <=? _) = false |- _ => apply Z.leb_gt in H
         | H : (_ =? _) = true |- _ => apply Z.eqb_eq in H
         | H : (_ =? _) = false |- _ => apply Z.eqb_neq in H
         end; try lia;
  intros [= <- <- <-]; rewrite ?app_nil_l, ?app_nil_r; done.
Qed.

Lemma verity_alloc_zero_digest_spec (X : externals) v r d :
  0 ≤ version v → 0 ≤ data_dev_block_bits v →
  verity_alloc_zero_digest X v = (r, d) → ¬ r < 0 →
  d = crypto_shash_digest X tfm_sha2ce (salted v (zero_block v)).
Proof.
  intros Hv Hb. unfold verity_alloc_zero_digest.
  rewrite shiftl_1_pow2 by done. fold (zero_block v).
  destruct (verity_hash X v _ (zero_block v)) as [[r' desc'] [d'|]] eqn:E.
  - intros [= <- <-] _. by eapply verity_hash_digest.
  - intros [= <- <-] Hr. exfalso. apply Hr. revert E.
    unfold verity_hash, verity_hash_init, verity_hash_update,
      verity_hash_final, crypto_shash_init, crypto_shash_update,
      crypto_shash_final.
    cbn.
    repeat match goal with
           | |- context [if ?b then _ else _] => destruct b eqn:?
           end; cbn; try discriminate;
    intros [= <-]; by apply Z.ltb_lt.
Qed.

Lemma verity_parse_opt_args_zero_digest (X : externals) v os m zd r m' zd' :
  0 ≤ version v → 0 ≤ data_dev_block_bits v →
  verity_parse_opt_args X os v m zd = (r, m', zd') → ¬ r < 0 →
  (DM_VERITY_OPT_IGN_ZEROES ∈ os →
   zd' = Some (crypto_shash_digest X tfm_sha2ce (salted v (zero_block v))))
  ∧ (DM_VERITY_OPT_IGN_ZEROES ∉ os → zd' = zd).
Proof.
  intros Hv Hb. revert m zd.
  induction os as [|o os IH]; intros m zd; cbn [verity_parse_opt_args].
  - intros [= <- <- <-] _. split; [by intros ?%elem_of_nil|done].
  - destruct o.
    + intros H Hr. destruct (IH _ _ H Hr) as [H1 H2]. split; intros Hin.
      * apply H1. by apply elem_of_cons in Hin as [?|?].
      * apply H2. intros ?. apply Hin. by right.
    + intros H Hr. destruct (IH _ _ H Hr) as [H1 H2]. split; intros Hin.
      * apply H1. by apply elem_of_cons in Hin as [?|?].
      * apply H2. intros ?. apply Hin. by right.
    + destruct (verity_alloc_zero_digest X v) as [r0 d] eqn:Ez.
      destruct (r0 =? 0) eqn:Er0; cbn [negb].
      * apply Z.eqb_eq in Er0 as ->.
        apply verity_alloc_zero_digest_spec in Ez as ->; [|done|done|lia].
        intros H Hr. destruct (IH _ _ H Hr) as [H1 H2]. split.
        -- intros _. destruct (decide (DM_VERITY_OPT_IGN_ZEROES ∈ os)); auto.
        -- intros Hin. exfalso. apply Hin. by left.
      * intros [= <- <- <-] Hr.
        apply verity_alloc_zero_digest_spec in Ez as ->; [|done..].
        split; [done|]. intros Hin. exfalso. apply Hin. by left.
Qed.

Lemma verity_ctr_args_opts (X : externals) e a v :
  verity_ctr_args X e a = Some (inr v) →
  ∃ v0 r, verity_parse_opt_args X (arg_opts a) v0 DM_VERITY_MODE_EIO None
          = (r, mode v, zero_digest v)
          ∧ ¬ r < 0
          ∧ version v0 = version v ∧ salt v0 = salt v
          ∧ data_dev_block_bits v0 = data_dev_block_bits v.
Proof.
  unfold verity_ctr_args. ctr_cases. intros [= <-]. cbn.
  repeat match goal with
         | H : (_ <? _) = false |- _ => apply Z.ltb_ge in H
         end.
  match goal with
  | H : verity_parse_opt_args X _ ?v0 _ _ = (?r, _, _) |- _ =>
      exists v0, r
  end.
  repeat split; try done. lia.
Qed.

(** X4. An accepted table line has a zero digest exactly when it carries
    the option [ignore_zero_blocks], and then the zero digest is the digest,
    by the primary transform and under the salting rule of the format
    version, of one data block of zero bytes. *)
Theorem ctr_zero_digest (X : externals) (e : ctr_env) (a : verity_args)
  (v : dm_verity) :
  0 ≤ arg_version a →
  verity_ctr X e a = Some (inr v) →
  zero_digest v =
    if decide (DM_VERITY_OPT_IGN_ZEROES ∈ arg_opts a)
    then Some (crypto_shash_digest X tfm_sha2ce (salted v (zero_block v)))
    else None.
Proof.
  intros Hv Hctr. apply verity_ctr_inv in Hctr as (v1 & Hargs & Htree).
  pose proof (verity_ctr_args_opts _ _ _ _ Hargs)
    as (v0 & r & Hp & Hr & Hver & Hsalt & Hbits).
  apply verity_ctr_args_inv in Hargs as (Hver1 & _ & _ & Hdb & _).
  apply verity_ctr_tree_inv in Htree
    as (_ & _ & _ & _ & Hv2 & Hb2 & _ & _ & Hs2 & _ & Hz2 & _).
  unfold SECTOR_SHIFT in Hdb.
  apply verity_parse_opt_args_zero_digest in Hp as [Hin Hout];
    [|lia..].
  assert (salted v0 (zero_block v0) = salted v (zero_block v)) as Heq.
  { unfold salted, zero_block. by rewrite Hver, Hsalt, Hbits, Hv2, Hs2, Hb2. }
  rewrite Heq in Hin. rewrite Hz2.
  destruct (decide _); auto.
Qed.

Lemma ctr_zero_digest_witness :
  ∃ v, verity_ctr toy_externals env_one args_one = Some (inr v)
       ∧ zero_digest v =
           Some (crypto_shash_digest toy_externals tfm_sha2ce
                   (salted v (zero_block v))).
Proof.
  destruct (verity_ctr toy_externals env_one args_one) as [[r|v]|] eqn:E;
    [vm_compute in E; discriminate| |vm_compute in E; discriminate].
  exists v. split; [reflexivity|].
  exact (ctr_zero_digest toy_externals env_one args_one v
           ltac:(vm_compute; discriminate) E).
Defined.

(** ** The corruption policy over many events *)

Lemma verity_handle_err_total (X : externals) v ty block s :
  ∃ r s' t, verity_handle_err X v ty block s = Some (r, s', t)
            ∧ (r = 0 ∨ r = 1).
Proof.
  unfold verity_handle_err, verity_read_nv, verity_write_nv.
  unfold bind, tell, modify, get, ret.
  run_cases; eauto 10.
Qed.

Lemma handle_err_step_counter (X : externals) v s s' :
  handle_err_step X v s s' → 0 ≤ corrupted_errs s ≤ 100 →
  corrupted_errs s' = Z.min (corrupted_errs s + 1) 100
  ∧ hash_failed s' = 1.
Proof.
  intros (ty & block & r & t & H) Hc. revert H.
  unfold verity_handle_err, verity_read_nv, verity_write_nv,
    DM_VERITY_MAX_CORRUPTED_ERRS.
  unfold bind, tell, modify, get, ret.
  run_cases; bool_hyps; intros [= <- <- <-]; cbn;
    rewrite ?u32_small by lia; split; (lia || reflexivity).
Qed.

(** X5. However many corruption events the policy handles, the error
    counter moves from [c] to at most [min (c + n) 100]: it never decreases
    and, once within [0, 100], never leaves that range; [hash_failed], once
    1, stays 1; and in the mode that fails io the next call returns 1
    whatever happened before. *)
Theorem handle_err_counter_saturates (X : externals) (v : dm_verity)
  (s s' : state) :
  0 ≤ corrupted_errs s ≤ 100 →
  rtc (handle_err_step X v) s s' →
  corrupted_errs s ≤ corrupted_errs s' ≤ 100
  ∧ (hash_failed s = 1 → hash_failed s' = 1)
  ∧ (mode v = DM_VERITY_MODE_EIO →
     ∀ ty block, ∃ s'' t, verity_handle_err X v ty block s' = Some (1, s'', t)).
Proof.
  intros Hc Hrtc. split; [|split].
  - induction Hrtc as [s|s1 s2 s3 Hstep _ IH]; [lia|].
    apply handle_err_step_counter in Hstep as [Hc2 _]; [|done]. lia.
  - induction Hrtc as [s|s1 s2 s3 Hstep Hrtc IH]; [done|]. intros _.
    apply handle_err_step_counter in Hstep as [Hc2 Hf]; [|done].
    apply IH; [lia|done].
  - intros Hm ty block.
    unfold verity_handle_err, DM_VERITY_MAX_CORRUPTED_ERRS.
    unfold bind, tell, modify, get, ret. rewrite Hm.
    rewrite !bool_decide_eq_false_2 by done.
    run_cases; eauto.
Qed.

Lemma handle_err_counter_saturates_witness :
  ∃ s', verity_handle_err toy_externals v_4k DM_VERITY_BLOCK_TYPE_DATA 3 st_meta
        = Some (0, s', [EvHandleErr DM_VERITY_BLOCK_TYPE_DATA 3;
                        EvUevent DM_VERITY_BLOCK_TYPE_DATA 3])
        ∧ corrupted_errs st_meta ≤ corrupted_errs s' ≤ 100.
Proof.
  destruct (verity_handle_err toy_externals v_4k DM_VERITY_BLOCK_TYPE_DATA 3
              st_meta) as [[[r s'] t]|] eqn:E; [|vm_compute in E; discriminate].
  assert (r = 0 ∧ t = [EvHandleErr DM_VERITY_BLOCK_TYPE_DATA 3;
                       EvUevent DM_VERITY_BLOCK_TYPE_DATA 3]) as [-> ->]
    by (vm_compute in E; injection E as <- _ <-; split; reflexivity).
  exists s'. split; [reflexivity|].
  refine (proj1 (handle_err_counter_saturates toy_externals v_4k st_meta s'
                   ltac:(vm_compute; split; discriminate) _)).
  eapply rtc_l; [|apply rtc_refl]. do 4 eexists. exact E.
Defined.

Lemma handle_err_step_vmode (X : externals) v x s s' :
  0 ≤ x ≤ DM_MAX_ERR_COUNT →
  handle_err_step X v s s' → vmode_bumped_once x s → vmode_bumped_once x s'.
Proof.
  unfold DM_MAX_ERR_COUNT, vmode_bumped_once.
  intros Hx (ty & block & r & t & H) Hinv. revert H.
  unfold verity_handle_err, verity_read_nv, verity_write_nv, DM_MAX_ERR_COUNT.
  unfold bind, tell, modify, get, ret.
  run_cases; bool_hyps; intros [= <- <- <-]; cbn; try done;
    destruct Hinv as [Hy|[Hy Hf]]; try congruence;
    rewrite Hy in *; simplify_eq;
    rewrite ?u8_small in * by lia;
    first [ by left | by right | left; f_equal; lia
          | right; split; [f_equal; lia|done] ].
Qed.

(** X6. The NV item [VMODE] is advanced at most once however many
    corruption events follow: starting from a stored value [x] in
    [0, DM_MAX_ERR_COUNT], after any number of calls it holds [x] or [x + 1]
    capped at [DM_MAX_ERR_COUNT] = 4.  In restart mode with the hardware
    retry configured and the error counter below its maximum, a call on a
    readable item returns 1 exactly when the item holds 4, and 0 when the
    item cannot be read. *)
Theorem handle_err_vmode_bumped_once (X : externals) (v : dm_verity)
  (x : Z) (s s' : state) :
  0 ≤ x ≤ DM_MAX_ERR_COUNT →
  nve_vmode s = Some x →
  rtc (handle_err_step X v) s s' →
  (∃ x', nve_vmode s' = Some x' ∧ x ≤ x' ≤ Z.min (x + 1) DM_MAX_ERR_COUNT)
  ∧ (mode v = DM_VERITY_MODE_RESTART → CONFIG_DM_VERITY_HW_RETRY X = true →
     0 ≤ corrupted_errs s' < DM_VERITY_MAX_CORRUPTED_ERRS →
     ∀ ty block,
       ∃ s'' t, verity_handle_err X v ty block s'
                = Some (if bool_decide (nve_vmode s' = Some DM_MAX_ERR_COUNT)
                        then 1 else 0, s'', t)).
Proof.
  intros Hx Hnv Hrtc.
  assert (vmode_bumped_once x s') as Hinv.
  { assert (vmode_bumped_once x s) as H0 by (by left).
    clear Hnv. induction Hrtc; eauto using handle_err_step_vmode. }
  unfold vmode_bumped_once in Hinv.
  unfold DM_MAX_ERR_COUNT, DM_VERITY_MAX_CORRUPTED_ERRS in *.
  assert (∃ x', nve_vmode s' = Some x' ∧ x ≤ x' ≤ Z.min (x + 1) 4)
    as (x' & Hx' & Hrange).
  { destruct Hinv as [?|[? _]]; eexists; (split; [eassumption|lia]). }
  split; [eauto|].
  intros Hm Hhw Hc ty block.
  unfold verity_handle_err, verity_read_nv, verity_write_nv,
    DM_VERITY_MAX_CORRUPTED_ERRS, DM_MAX_ERR_COUNT.
  unfold bind, tell, modify, get, ret. rewrite Hm, Hhw.
  rewrite !bool_decide_eq_false_2, bool_decide_eq_true_2 by done.
  run_cases; bool_hyps; simplify_eq; rewrite ?u8_small in * by lia;
    try lia; try congruence; eauto.
  exfalso. destruct x' as [|q|q]; try discriminate.
  apply Pos.eqb_eq in E3 as <-. done.
Qed.

Lemma handle_err_vmode_bumped_once_witness :
  ∃ s', verity_handle_err toy_externals v_restart DM_VERITY_BLOCK_TYPE_DATA 3
          st_meta
        = Some (0, s', [EvHandleErr DM_VERITY_BLOCK_TYPE_DATA 3;
                        EvUevent DM_VERITY_BLOCK_TYPE_DATA 3])
        ∧ ∃ x', nve_vmode s' = Some x' ∧ 0 ≤ x' ≤ 1.
Proof.
  destruct (verity_handle_err toy_externals v_restart DM_VERITY_BLOCK_TYPE_DATA
              3 st_meta) as [[[r s'] t]|] eqn:E; [|vm_compute in E; discriminate].
  assert (r = 0 ∧ t = [EvHandleErr DM_VERITY_BLOCK_TYPE_DATA 3;
                       EvUevent DM_VERITY_BLOCK_TYPE_DATA 3]) as [-> ->]
    by (vm_compute in E; injection E as <- _ <-; split; reflexivity).
  exists s'. split; [reflexivity|].
  refine (proj1 (handle_err_vmode_bumped_once toy_externals v_restart 0
                   st_meta s' ltac:(vm_compute; split; discriminate)
                   eq_refl _)).
  eapply rtc_l; [|apply rtc_refl]. do 4 eexists. exact E.
Defined.

(** ** Walking a consistent path of the tree *)

Lemma tree_refines_refl X s : tree_refines X s s.
Proof. intros hb buf H. eauto. Qed.

Lemma tree_refines_trans X s1 s2 s3 :
  tree_refines X s1 s2 → tree_refines X s2 s3 → tree_refines X s1 s3.
Proof.
  intros H12 H23 hb buf H.
  destruct (H12 _ _ H) as (b2 & H2 & Hd2 & Hf2).
  destruct (H23 _ _ H2) as (b3 & H3 & Hd3 & Hf3).
  exists b3. split; [done|]. split; [congruence|auto].
Qed.

Lemma policy_untouched_refl s : policy_untouched s s.
Proof. repeat split. Qed.

Lemma policy_untouched_trans s1 s2 s3 :
  policy_untouched s1 s2 → policy_untouched s2 s3 → policy_untouched s1 s3.
Proof. unfold policy_untouched. intuition congruence. Qed.

(** A buffer replaced by one with the same content and a flag that is set
    if it was. *)
Lemma tree_refines_insert X s hb buf buf' :
  tree_block X s hb = Some buf → b_data buf' = b_data buf →
  (hash_verified (b_aux buf) ≠ 0 → hash_verified (b_aux buf') ≠ 0) →
  tree_refines X s (set_bufio (<[hb := buf']> (bufio s)) s).
Proof.
  intros Hb Hd Hf hb0 buf0 H0. unfold tree_block. cbn.
  destruct (decide (hb0 = hb)) as [->|Hne].
  - rewrite lookup_insert_eq. exists buf'. by simplify_eq.
  - rewrite lookup_insert_ne by done. exists buf0. done.
Qed.

Lemma path_verifies_mono X v block s s' n d d' :
  tree_refines X s s' →
  path_verifies X v block s n d d' → path_verifies X v block s' n d d'.
Proof.
  intros Href. revert d. induction n as [|i IH]; intros d; cbn; [done|].
  destruct (verity_hash_at_level v block (Z.of_nat i)) as [hb off].
  intros (buf & Hb & Hok & Hrest).
  destruct (Href _ _ Hb) as (buf' & Hb' & Hd & Hf).
  exists buf'. rewrite Hd. split; [done|]. split; [|by apply IH].
  destruct Hok; auto.
Qed.

(** The digest at the end of a path is the one stored in the block of
    level 0. *)
Lemma path_verifies_level0 X v block s n d d' :
  path_verifies X v block s (S n) d d' →
  ∃ buf, tree_block X s (verity_hash_at_level v block 0).1 = Some buf
         ∧ d' = memcpy_from (b_data buf) (verity_hash_at_level v block 0).2
                  (digest_size v).
Proof.
  revert d. induction n as [|i IH]; intros d.
  - cbn. change (Z.of_nat 0) with 0.
    destruct (verity_hash_at_level v block 0) as [hb off].
    intros (buf & Hb & _ & ->). eauto.
  - cbn [path_verifies].
    destruct (verity_hash_at_level v block (Z.of_nat (S i))) as [hb off].
    intros (buf & _ & _ & Hrest). by apply IH in Hrest.
Qed.

Lemma dm_bufio_read_tree_block X s hb buf :
  tree_block X s hb = Some buf →
  ∃ s1, dm_bufio_read X hb s = Some (inr buf, s1, [EvBufioRead hb])
        ∧ bufio s1 !! hb = Some buf
        ∧ tree_refines X s s1 ∧ policy_untouched s s1.
Proof.
  unfold tree_block, dm_bufio_read, dm_bufio_alloc_callback.
  unfold bind, tell, modify, get, ret. cbn.
  destruct (bufio s !! hb) as [b|] eqn:E.
  - intros [= ->]. exists s.
    split; [done|]. split; [done|].
    split; [apply tree_refines_refl|apply policy_untouched_refl].
  - destruct (hash_dev_read X hb) as [e|data] eqn:Er; [done|].
    intros [= <-]. cbn. eexists. split; [reflexivity|]. cbn.
    split; [apply lookup_insert_eq|]. split; [|done].
    eapply tree_refines_insert; [|reflexivity|done].
    unfold tree_block. by rewrite E, Er.
Qed.

#[local] Opaque verity_hash_sel_sha memcmp_eq memcpy_from.

Lemma buffer_at_mark_verified s hb :
  b_data (buffer_at (mark_verified hb s) hb) = b_data (buffer_at s hb).
Proof. unfold buffer_at at 1, mark_verified. cbn. by rewrite lookup_insert_eq. Qed.

Lemma tree_refines_mark_verified X s hb buf :
  bufio s !! hb = Some buf → tree_refines X s (mark_verified hb s).
Proof.
  intros Hbuf. unfold mark_verified.
  eapply tree_refines_insert.
  - unfold tree_block. by rewrite Hbuf.
  - cbn. by rewrite (buffer_at_lookup _ _ _ Hbuf).
  - done.
Qed.

(** One level of the walk: a readable block that is already verified, or
    whose digest by the primary transform is the expected one, is accepted
    and marked; neither the fallback transform nor the decoder nor the
    policy runs. *)
Lemma verify_level_consistent (X : externals) v block level want s buf :
  tree_block X s (verity_hash_at_level v block level).1 = Some buf →
  hash_verified (b_aux buf) ≠ 0
  ∨ digest_match X v 0
      (take (Z.to_nat (Z.shiftl 1 (hash_dev_block_bits v))) (b_data buf))
      want →
  ∃ s' t,
    verity_verify_level X v block level false want s
    = Some ((0, memcpy_from (b_data buf)
                  (verity_hash_at_level v block level).2 (digest_size v)),
            s', t)
    ∧ tree_refines X s s' ∧ policy_untouched s s'
    ∧ (∃ buf', bufio s' !! (verity_hash_at_level v block level).1 = Some buf'
               ∧ hash_verified (b_aux buf') ≠ 0)
    ∧ Forall (λ e, is_attempt DM_VERITY_BLOCK_TYPE_METADATA e = true →
                   e = EvHash DM_VERITY_BLOCK_TYPE_METADATA
                         (verity_hash_at_level v block level).1 tfm_sha2ce) t.
Proof.
  destruct (verity_hash_at_level v block level) as [hb off] eqn:Eh.
  cbn [fst snd]. intros Hb Hok.
  destruct (dm_bufio_read_tree_block _ _ _ _ Hb) as (s1 & Hread & Hbuf & Hr1 & Hp1).
  unfold verity_verify_level. rewrite Eh.
  unfold bind at 1. rewrite Hread.
  destruct (Z.eqb_spec (hash_verified (b_aux buf)) 0) as [Hflag|Hflag].
  - destruct Hok as [?|(r & d & Hd & Hr & Hm)]; [done|].
    unfold digest_of in Hd.
    destruct (verity_hash_sel_sha X v _ _ 0) as [[r' desc1] o1] eqn:E1.
    injection Hd as -> ->.
    unfold retry_fuel, verify_level_LABEL, on_io_digest, dm_bufio_release.
    unfold bind, tell, modify, get, ret. cbn.
    rewrite !(buffer_at_lookup _ hb buf) by exact Hbuf.
    rewrite (verity_hash_sel_sha_desc X v _ {| tfm := tfm_sha2ce; fed := [] |}),
      E1.
    destruct (Z.ltb_spec r 0); [lia|]. cbn. rewrite Hm. cbn.
    rewrite buffer_at_mark_verified.
    rewrite !(buffer_at_lookup _ hb buf) by exact Hbuf.
    eexists _, _. split; [reflexivity|]. split; [|split; [|split]].
    + eapply tree_refines_trans; [exact Hr1|].
      eapply tree_refines_trans; [|by eapply tree_refines_mark_verified].
      intros hb0 buf0 H0. eauto.
    + eapply policy_untouched_trans; [exact Hp1|]. repeat split.
    + unfold mark_verified. cbn. rewrite lookup_insert_eq.
      eexists. split; [reflexivity|]. done.
    + repeat constructor; cbn; try done.
  - unfold dm_bufio_release. unfold bind, tell, modify, get, ret. cbn.
    rewrite !(buffer_at_lookup _ hb buf) by exact Hbuf.
    eexists _, _. split; [reflexivity|]. split; [done|]. split; [done|].
    split; [eauto|]. repeat constructor; cbn; done.
Qed.

(** The probe of level 0 that [verity_hash_for_block] starts with. *)
Lemma verify_level_probe (X : externals) v block level want s buf :
  tree_block X s (verity_hash_at_level v block level).1 = Some buf →
  ∃ s',
    verity_verify_level X v block level true want s
    = Some (if hash_verified (b_aux buf) =? 0 then (1, want)
            else (0, memcpy_from (b_data buf)
                       (verity_hash_at_level v block level).2 (digest_size v)),
            s',
            [EvBufioRead (verity_hash_at_level v block level).1;
             EvBufioRelease (verity_hash_at_level v block level).1])
    ∧ tree_refines X s s' ∧ policy_untouched s s'
    ∧ bufio s' !! (verity_hash_at_level v block level).1 = Some buf.
Proof.
  destruct (verity_hash_at_level v block level) as [hb off] eqn:Eh.
  cbn [fst snd]. intros Hb.
  destruct (dm_bufio_read_tree_block _ _ _ _ Hb) as (s1 & Hread & Hbuf & Hr1 & Hp1).
  unfold verity_verify_level. rewrite Eh.
  unfold bind at 1. rewrite Hread. exists s1.
  unfold dm_bufio_release. unfold bind, tell, modify, get, ret.
  destruct (hash_verified (b_aux buf) =? 0); cbn.
  - done.
  - rewrite !(buffer_at_lookup _ hb buf) by exact Hbuf. done.
Qed.

Lemma hash_for_block_loop_consistent (X : externals) v block n r d d' s :
  path_verifies X v block s n d d' →
  ∃ s' t,
    hash_for_block_loop X n v block r d s
    = Some ((match n with O => r | S _ => 0 end, d'), s', t)
    ∧ tree_refines X s s' ∧ policy_untouched s s'
    ∧ (∀ i, (i < n)%nat →
         ∃ buf', tree_block X s' (verity_hash_at_level v block (Z.of_nat i)).1
                 = Some buf'
                 ∧ hash_verified (b_aux buf') ≠ 0)
    ∧ Forall (λ e, is_attempt DM_VERITY_BLOCK_TYPE_METADATA e = true →
                   ∃ hb, e = EvHash DM_VERITY_BLOCK_TYPE_METADATA hb tfm_sha2ce)
        t.
Proof.
  revert r d s. induction n as [|i IH]; intros r d s; cbn [path_verifies].
  - intros ->. exists s, []. cbn.
    split; [done|]. split; [apply tree_refines_refl|].
    split; [apply policy_untouched_refl|]. split; [intros; lia|constructor].
  - destruct (verity_hash_at_level v block (Z.of_nat i)) as [hb off] eqn:Eh.
    intros (buf & Hb & Hok & Hrest).
    pose proof (verify_level_consistent X v block (Z.of_nat i) d s buf) as Hlev.
    rewrite Eh in Hlev. cbn [fst snd] in Hlev.
    destruct (Hlev Hb Hok) as (s1 & t1 & Hrun & Hr1 & Hp1 & Hv1 & Ht1).
    apply (path_verifies_mono _ _ _ _ _ _ _ _ Hr1) in Hrest.
    destruct (IH 0 _ _ Hrest) as (s2 & t2 & Hloop & Hr2 & Hp2 & Hv2 & Ht2).
    cbn [hash_for_block_loop]. unfold bind. rewrite Hrun.
    change (negb (0 =? 0)) with false. cbv iota beta.
    rewrite Hloop. exists s2, (t1 ++ t2).
    split; [by destruct i|].
    split; [by eapply tree_refines_trans|].
    split; [by eapply policy_untouched_trans|]. split.
    + intros j Hj. destruct (decide (j = i)) as [->|Hne].
      * rewrite Eh. cbn [fst]. destruct Hv1 as (b1 & Hb1 & Hf1).
        destruct (Hr2 hb b1) as (b2 & Hb2 & _ & Hf2).
        { unfold tree_block. by rewrite Hb1. }
        eauto.
      * apply Hv2. lia.
    + apply Forall_app. split; [|done].
      eapply Forall_impl; [exact Ht1|]. cbn. eauto.
Qed.

(** X7. When the hash blocks of a data block form a consistent path (every
    block on it can be read and is already verified, or has the digest the
    level above stores for it, the top one the root digest),
    [verity_hash_for_block] returns 0 with the digest stored for the data
    block at level 0.  The walk leaves the corruption state, the NV item and
    the bio alone, keeps every hash block readable with its content, ends
    with the level-0 block verified, and makes hash attempts by the primary
    transform only: no fallback, no decoder, no policy. *)
Theorem hash_for_block_consistent_path (X : externals) (v : dm_verity)
  (block : Z) (digest d' : list byte) (s : state) :
  0 < levels v →
  path_verifies X v block s (Z.to_nat (levels v))
    (memcpy_from (root_digest v) 0 (digest_size v)) d' →
  ∃ s' t,
    verity_hash_for_block X v block digest s
    = Some ((0, d',
             match zero_digest v with
             | Some zd => memcmp_eq zd d' (digest_size v)
             | None => false
             end), s', t)
    ∧ tree_refines X s s' ∧ policy_untouched s s'
    ∧ (∃ buf', tree_block X s' (verity_hash_at_level v block 0).1 = Some buf'
               ∧ hash_verified (b_aux buf') ≠ 0)
    ∧ Forall (λ e, is_attempt DM_VERITY_BLOCK_TYPE_METADATA e = true →
                   ∃ hb, e = EvHash DM_VERITY_BLOCK_TYPE_METADATA hb tfm_sha2ce)
        t.
Proof.
  intros Hlv Hpath.
  destruct (Z.to_nat (levels v)) as [|m] eqn:Em; [lia|].
  destruct (path_verifies_level0 _ _ _ _ _ _ _ Hpath) as (buf0 & Hb0 & Hd').
  destruct (verify_level_probe X v block 0 digest s buf0 Hb0)
    as (s1 & Hprobe & Hr1 & Hp1 & Hbuf1).
  unfold verity_hash_for_block.
  destruct (Z.eqb_spec (levels v) 0) as [|_]; [lia|]. cbn [negb].
  unfold bind at 1. unfold bind at 1. rewrite Hprobe.
  destruct (Z.eqb_spec (hash_verified (b_aux buf0)) 0) as [Hf|Hf].
  - unfold ret at 1. cbv iota beta. change (1 <=? 0) with false. cbv iota.
    apply (path_verifies_mono _ _ _ _ _ _ _ _ Hr1) in Hpath.
    destruct (hash_for_block_loop_consistent X v block (S m) 1 _ _ _ Hpath)
      as (s2 & t2 & Hloop & Hr2 & Hp2 & Hv2 & Ht2).
    rewrite Em. unfold bind. rewrite Hloop. unfold hash_for_block_out, ret.
    destruct (zero_digest v); cbn;
      (eexists _, _; split; [reflexivity|];
       split; [by eapply tree_refines_trans|];
       split; [by eapply policy_untouched_trans|];
       split; [apply (Hv2 0%nat); lia|]);
      repeat (constructor; [cbn; done|]); rewrite app_nil_r; exact Ht2.
  - unfold ret at 1. cbv iota beta. change (0 <=? 0) with true. cbv iota.
    unfold hash_for_block_out, ret. rewrite <- Hd'.
    assert (tree_block X s1 (verity_hash_at_level v block 0).1 = Some buf0)
      as Hb1 by (unfold tree_block; by rewrite Hbuf1).
    destruct (zero_digest v); cbn;
      (eexists _, _; split; [reflexivity|];
       split; [done|]; split; [done|]; split; [eauto|]);
      repeat (constructor; [cbn; done|]); constructor.
Qed.

#[local] Transparent verity_hash_sel_sha memcmp_eq memcpy_from.

Lemma path_verifies_st_tree :
  path_verifies toy_externals v_tree 0 st_tree 2
    (memcpy_from (root_digest v_tree) 0 (digest_size v_tree))
    (replicate 32 x11).
Proof.
  cbn [path_verifies].
  change (verity_hash_at_level v_tree 0 (Z.of_nat 1)) with (0, 0).
  cbv iota beta. exists buf_x11. split; [reflexivity|]. split.
  { right. exists 0, (replicate 32 x11).
    split; [vm_compute; reflexivity|]. split; [lia|vm_compute; reflexivity]. }
  change (verity_hash_at_level v_tree 0 (Z.of_nat 0)) with (1, 0).
  cbv iota beta. exists buf_x11. split; [reflexivity|]. split.
  { right. exists 0, (replicate 32 x11).
    split; [vm_compute; reflexivity|]. split; [lia|vm_compute; reflexivity]. }
  vm_compute. reflexivity.
Qed.

Lemma hash_for_block_consistent_path_witness :
  ∃ s' t,
    verity_hash_for_block toy_externals v_tree 0 [] st_tree
    = Some ((0, replicate 32 x11, false), s', t)
    ∧ policy_untouched st_tree s'.
Proof.
  destruct (hash_for_block_consistent_path toy_externals v_tree 0 []
              (replicate 32 x11) st_tree ltac:(reflexivity)
              path_verifies_st_tree)
    as (s' & t & Hrun & _ & Hp & _).
  exists s', t. split; [exact Hrun|exact Hp].
Defined.

#[local] Opaque verity_hash_sel_sha memcmp_eq memcpy_from.

(** ** Buffers held by the level verifier *)

Lemma verify_level_reads_once (X : externals) (v : dm_verity)
  (block level : Z) (skip : bool) (want d : list byte) (s s' : state) (r : Z)
  (t : list event) :
  verity_verify_level X v block level skip want s = Some ((r, d), s', t) →
  let hb := (verity_hash_at_level v block level).1 in
  List.filter is_bufio_read t = [EvBufioRead hb]
  ∧ head t = Some (EvBufioRead hb)
  ∧ match tree_block X s hb with
    | None =>
        hash_dev_read X hb = inl r ∧ d = want ∧ s' = s
        ∧ List.filter is_bufio_release t = []
    | Some _ =>
        List.filter is_bufio_release t = [EvBufioRelease hb]
        ∧ last t = Some (EvBufioRelease hb)
    end.
Proof.
  cbv zeta. unfold tree_block. unfold_level.
  destruct (verity_hash_at_level v block level) as [hb off]. cbn [fst snd].
  run_all.
  all: intros [= <- <- <- <-]; cbn; repeat split; done.
Qed.

(** X8. Every return of [verity_verify_level] has read its hash block once,
    first of all, and no other block.  If the block could not be read the
    error of the read is returned as it is, with the digest and the state
    untouched and nothing to release; otherwise the buffer is released
    exactly once, as the last step, on every path. *)
Theorem verify_level_releases_buffer (X : externals) (v : dm_verity)
  (block level : Z) (skip : bool) (want d : list byte) (s s' : state) (r : Z)
  (t : list event) :
  verity_verify_level X v block level skip want s = Some ((r, d), s', t) →
  let hb := (verity_hash_at_level v block level).1 in
  List.filter is_bufio_read t = [EvBufioRead hb]
  ∧ head t = Some (EvBufioRead hb)
  ∧ match tree_block X s hb with
    | None =>
        hash_dev_read X hb = inl r ∧ d = want ∧ s' = s
        ∧ List.filter is_bufio_release t = []
    | Some _ =>
        List.filter is_bufio_release t = [EvBufioRelease hb]
        ∧ last t = Some (EvBufioRelease hb)
    end.
Proof. apply verify_level_reads_once. Qed.

(** ** The paths through the retry logic of the level verifier *)



Lemma verity_handle_err_sets_failed (X : externals) v ty block s r s' t :
  verity_handle_err X v ty block s = Some (r, s', t) →
  hash_failed s' = 1 ∧ bufio s' = bufio s.
Proof.
  unfold verity_handle_err, verity_read_nv, verity_write_nv.
  unfold bind, tell, modify, get, ret. intros H. revert H.
  run_cases; intros [= <- <- <-]; done.
Qed.

#[local] Transparent verity_hash_sel_sha memcmp_eq memcpy_from.



#[local] Opaque verity_hash_sel_sha memcmp_eq memcpy_from.

(** ** Hashing a data block of a bio *)

Section HashBlocks.

#[local] Open Scope nat_scope.

(** One pass of the loop of [verity_for_bv_block] that leaves the pages
    alone: the segment handed to [process] is the next [len] bytes of the
    payload. *)
Lemma read_step (pages : list (list byte)) (iter : bvec_iter) (todo : nat) :
  bio_wf pages iter → 0 < todo → todo ≤ bi_size iter →
  let len0 := Nat.min (bi_size iter)
                (length (pages !!! bi_idx iter) - bi_bvec_done iter) in
  let len := if (todo <=? len0)%nat then todo else len0 in
  let iter' := bio_advance_iter pages iter len in
  0 < len ≤ todo
  ∧ take len (drop (bi_bvec_done iter) (pages !!! bi_idx iter))
    = take len (drop (flat_pos pages iter) (concat pages))
  ∧ bio_wf pages iter'
  ∧ flat_pos pages iter' = flat_pos pages iter + len
  ∧ bi_size iter' = bi_size iter - len.
Proof.
  intros Hwf Htodo Hsz. pose proof (bio_wf_idx _ _ Hwf ltac:(lia)) as Hidx.
  destruct Hwf as (Hne & Hdone & Htot). specialize (Hdone Hidx).
  cbv zeta.
  set (len0 := Nat.min _ _).
  set (len := if (todo <=? len0)%nat then _ else _).
  assert (0 < len ≤ todo ∧ len ≤ bi_size iter
          ∧ bi_bvec_done iter + len ≤ length (pages !!! bi_idx iter))
    as (Hlen & Hlsz & Hfit).
  { subst len len0. destruct (Nat.leb_spec todo (Nat.min (bi_size iter)
      (length (pages !!! bi_idx iter) - bi_bvec_done iter))); lia. }
  split; [done|]. split.
  { unfold flat_pos. rewrite (concat_middle pages (bi_idx iter) Hidx) at 1.
    rewrite drop_app_add'  by done.
    rewrite drop_app_le by lia. rewrite take_app_le; [done|].
    rewrite length_drop. lia. }
  unfold bio_advance_iter. destruct (Nat.eqb_spec len 0); [lia|].
  destruct (Nat.eqb_spec (bi_bvec_done iter + len)
              (length (pages !!! bi_idx iter))) as [Heq|Hneq].
  - unfold bio_wf, flat_pos. cbn.
    assert (length (concat (take (S (bi_idx iter)) pages))
            = length (concat (take (bi_idx iter) pages))
              + length (pages !!! bi_idx iter)) as Hpos.
    { rewrite (take_S_r pages _ (pages !!! bi_idx iter))
        by (by apply list_lookup_lookup_total_lt).
      rewrite concat_app, length_app. cbn. rewrite app_nil_r. done. }
    rewrite Hpos. unfold flat_pos in Htot.
    repeat split; try done; try lia.
    intros Hlt. apply Nat.neq_0_lt_0. intros H0.
    apply length_zero_iff_nil in H0.
    by eapply (Forall_lookup_total_1 _ pages (S (bi_idx iter))) in Hne; [|lia].
  - unfold bio_wf, flat_pos. cbn.
    unfold flat_pos in Htot. repeat split; try done; lia.
Qed.

Lemma take_drop_split (c : list byte) (P a b : nat) :
  take a (drop P c) ++ take b (drop (P + a) c) = take (a + b) (drop P c).
Proof.
  rewrite <- drop_drop. apply take_take_drop.
Qed.

(** Hashing one block through a well-formed iterator: the loop ends, logs
    nothing, feeds exactly the next [todo] bytes of the payload to the
    descriptor, in order, and advances the iterator by [todo]. *)
Lemma for_bv_block_hash_run (X : externals) v fuel iter todo s :
  (∀ t f d, (0 ≤ crypto_shash_update_rc X t f d)%Z) →
  0 < todo ≤ fuel → bio_wf (bio_pages s) iter → todo ≤ bi_size iter →
  ∃ iter',
    for_bv_block_loop fuel (verity_bv_hash_update X v) iter todo s
    = Some ((0%Z, iter'),
            set_io_desc
              {| tfm := tfm (io_desc s);
                 fed := fed (io_desc s)
                        ++ take todo (drop (flat_pos (bio_pages s) iter)
                                           (concat (bio_pages s))) |} s,
            [])
    ∧ bio_wf (bio_pages s) iter'
    ∧ flat_pos (bio_pages s) iter' = flat_pos (bio_pages s) iter + todo
    ∧ bi_size iter' = bi_size iter - todo.
Proof.
  intros Hup. revert iter todo s.
  induction fuel as [|fuel IH]; intros iter todo s Htodo Hwf Hsz; [lia|].
  destruct (read_step (bio_pages s) iter todo Hwf ltac:(lia) Hsz)
    as (Hlen & Hchunk & Hwf' & Hpos & Hsize).
  cbn [for_bv_block_loop].
  unfold bind, get, modify, ret, verity_bv_hash_update, on_io_desc,
    verity_hash_update, crypto_shash_update, bio_iter_iovec.
  cbn.
  set (len0 := Nat.min _ _) in *.
  set (len := if (todo <=? len0)%nat then _ else _) in *.
  set (iter1 := bio_advance_iter (bio_pages s) iter len) in *.
  rewrite Hchunk.
  destruct (Z.ltb_spec (crypto_shash_update_rc X (tfm (io_desc s))
                          (fed (io_desc s))
                          (take len (drop (flat_pos (bio_pages s) iter)
                                          (concat (bio_pages s))))) 0)
    as [Hneg|_]; [specialize (Hup (tfm (io_desc s)) (fed (io_desc s))
                    (take len (drop (flat_pos (bio_pages s) iter)
                                    (concat (bio_pages s))))); lia|].
  cbn.
  destruct (Nat.eqb_spec (todo - len) 0) as [Hz|Hnz].
  - assert (todo = len) as Hlt by lia. clearbody len. subst todo.
    exists iter1. cbn. done.
  - match goal with
    | |- context [for_bv_block_loop fuel ?p ?it (todo - len) ?s1] =>
        destruct (IH iter1 (todo - len) s1)
          as (iter' & Hrun & Hwf'' & Hpos' & Hsize'); [lia|done|lia|];
        change (for_bv_block_loop fuel p it (todo - len) s1)
          with (for_bv_block_loop fuel (verity_bv_hash_update X v) iter1
                  (todo - len) s1);
        rewrite Hrun
    end.
    cbn in *. exists iter'. split.
    + do 3 f_equal. unfold set_io_desc. cbn. do 2 f_equal.
      rewrite <- app_assoc. f_equal. rewrite Hpos.
      rewrite take_drop_split. f_equal. lia.
    + split; [done|]. split; lia.
Qed.

End HashBlocks.

Lemma hash_for_block_cached_run (X : externals) v cur digest want s :
  levels v ≠ 0 →
  digest_cached v s cur want →
  verity_hash_for_block X v cur digest s
  = Some ((0, want, is_zero_digest v want), s,
          [EvBufioRead (verity_hash_at_level v cur 0).1;
           EvBufioRelease (verity_hash_at_level v cur 0).1]).
Proof.
  intros Hlv (buf & Hbuf & Hflag & ->).
  unfold verity_hash_for_block, verity_verify_level, is_zero_digest.
  destruct (verity_hash_at_level v cur 0) as [hb off]. cbn [fst snd] in *.
  destruct (Z.eqb_spec (levels v) 0) as [|_]; [done|]. cbn [negb].
  unfold dm_bufio_read, dm_bufio_release, hash_for_block_out.
  unfold bind, tell, modify, get, ret. cbn. rewrite Hbuf. cbn.
  destruct (Z.eqb_spec (hash_verified (b_aux buf)) 0) as [|_]; [done|]. cbn.
  rewrite (buffer_at_lookup _ _ _ Hbuf).
  destruct (zero_digest v); reflexivity.
Qed.

(** X11. When the tree has levels and the level-0 hash block of a data
    block is cached and verified, [verity_hash_for_block] returns the digest
    stored there after reading and releasing that one block: no other level
    is visited, nothing is hashed, and the state is left exactly as it
    was. *)
Theorem hash_for_block_cached (X : externals) (v : dm_verity) (cur : Z)
  (digest want : list byte) (s : state) :
  levels v ≠ 0 →
  digest_cached v s cur want →
  verity_hash_for_block X v cur digest s
  = Some ((0, want, is_zero_digest v want), s,
          [EvBufioRead (verity_hash_at_level v cur 0).1;
           EvBufioRelease (verity_hash_at_level v cur 0).1]).
Proof. apply hash_for_block_cached_run. Qed.

#[local] Transparent verity_hash_sel_sha memcmp_eq memcpy_from.

Lemma hash_for_block_cached_witness :
  verity_hash_for_block toy_externals v_tree 0 []
    (mark_verified 1 st_tree)
  = Some ((0, replicate 32 x11, false), mark_verified 1 st_tree,
          [EvBufioRead 1; EvBufioRelease 1]).
Proof.
  refine (hash_for_block_cached toy_externals v_tree 0 [] (replicate 32 x11)
            (mark_verified 1 st_tree) ltac:(vm_compute; discriminate) _).
  eexists. split; [vm_compute; reflexivity|].
  split; [vm_compute; discriminate|vm_compute; reflexivity].
Defined.

#[local] Opaque verity_hash_sel_sha memcmp_eq memcpy_from.

(** ** Accepting and rejecting a data block *)

Lemma verity_hash_init_ok (X : externals) v desc count :
  crypto_no_error X →
  verity_hash_init X v desc count
  = (0, {| tfm := engine_of count;
           fed := if 1 <=? version v then salt v else [] |}).
Proof.
  intros (Hi & Hu & _).
  unfold verity_hash_init, crypto_shash_init, crypto_shash_update, engine_of.
  cbn.
  destruct (Z.ltb_spec (crypto_shash_init_rc X
                          (if count =? 0 then tfm_sha2ce else tfm_sha256)) 0)
    as [Hneg|_]; [specialize (Hi (if count =? 0 then tfm_sha2ce else tfm_sha256));
                  lia|].
  destruct (1 <=? version v); [|done].
  destruct (Z.ltb_spec (crypto_shash_update_rc X
                          (if count =? 0 then tfm_sha2ce else tfm_sha256)
                          [] (salt v)) 0) as [Hneg|_]; [|done].
  specialize (Hu (if count =? 0 then tfm_sha2ce else tfm_sha256) [] (salt v)).
  lia.
Qed.

Lemma verity_hash_final_ok (X : externals) v desc :
  crypto_no_error X →
  ∃ r desc',
    verity_hash_final X v desc
    = (r, desc',
       Some (crypto_shash_digest X (tfm desc)
               (fed desc ++ if version v =? 0 then salt v else [])))
    ∧ 0 ≤ r.
Proof.
  intros (_ & Hu & Hf).
  unfold verity_hash_final, crypto_shash_final, crypto_shash_update. cbn.
  destruct (version v =? 0).
  - destruct (Z.ltb_spec (crypto_shash_update_rc X (tfm desc) (fed desc)
                            (salt v)) 0) as [Hneg|_].
    + specialize (Hu (tfm desc) (fed desc) (salt v)). lia.
    + eexists _, _. split; [reflexivity|]. apply Hf.
  - eexists _, _. rewrite app_nil_r. split; [reflexivity|]. apply Hf.
Qed.

#[local] Opaque verity_hash_for_block verity_hash_init verity_hash_final.

Lemma verify_io_block_first_attempt (X : externals) (v : dm_verity)
  (block b : Z) (s s1 : state) (want : list byte) (t1 : list event) :
  let bs := Z.to_nat (u32 (Z.shiftl 1 (data_dev_block_bits v))) in
  let P := flat_pos (bio_pages s) (io_iter s) in
  let chunk := take bs (drop P (concat (bio_pages s))) in
  crypto_no_error X → 0 ≤ version v →
  verity_hash_for_block X v (u64 (block + b)) (io_want_digest s) s
  = Some ((0, want, false), s1, t1) →
  bio_wf (bio_pages s) (io_iter s) →
  (0 < bs ≤ bi_size (io_iter s))%nat →
  memcmp_eq (crypto_shash_digest X tfm_sha2ce (salted v chunk)) want
    (digest_size v) = true →
  ∃ s',
    verify_io_block X v block b s
    = Some (None, s',
            t1 ++ [EvHash DM_VERITY_BLOCK_TYPE_DATA (u64 (block + b))
                     tfm_sha2ce])
    ∧ bio_pages s' = bio_pages s
    ∧ bio_wf (bio_pages s') (io_iter s')
    ∧ bi_size (io_iter s') = (bi_size (io_iter s) - bs)%nat
    ∧ flat_pos (bio_pages s') (io_iter s') = (P + bs)%nat
    ∧ io_want_digest s' = want
    ∧ bufio s' = bufio s1
    ∧ hash_failed s' = hash_failed s1
    ∧ corrupted_errs s' = corrupted_errs s1
    ∧ nve_vmode s' = nve_vmode s1.
Proof.
  intros bs P chunk Hcr Hver Hh Hwf Hbs Hm.
  destruct (hash_for_block_keeps_bio _ _ _ _ _ _ _ _ Hh) as [Hpages Hiter].
  set (d0 := {| tfm := tfm_sha2ce;
                fed := if 1 <=? version v then salt v else [] |}).
  set (s2 := set_io_desc d0 (set_io_want_digest want s1)).
  destruct (for_bv_block_hash_run X v (S bs) (io_iter s) bs s2)
    as (iter' & Hrun & Hwf' & Hpos & Hsize);
    [apply Hcr|lia|cbn; by rewrite Hpages|lia|].
  change (bio_pages s2) with (bio_pages s1) in Hrun, Hwf', Hpos.
  change (io_desc s2) with d0 in Hrun.
  change (tfm d0) with tfm_sha2ce in Hrun.
  change (fed d0) with (if 1 <=? version v then salt v else []) in Hrun.
  rewrite Hpages in Hrun, Hwf', Hpos.
  fold P in Hrun, Hpos. fold chunk in Hrun.
  destruct (verity_hash_final_ok X v
              {| tfm := tfm_sha2ce;
                 fed := (if 1 <=? version v then salt v else []) ++ chunk |} Hcr)
    as (rf & descf & Hfin & Hrf).
  cbn [tfm fed] in Hfin.
  assert (((if 1 <=? version v then salt v else []) ++ chunk)
          ++ (if version v =? 0 then salt v else []) = salted v chunk) as Hs.
  { unfold salted. destruct (Z.leb_spec 1 (version v)).
    - destruct (Z.eqb_spec (version v) 0); [lia|]. by rewrite app_nil_r.
    - destruct (Z.eqb_spec (version v) 0); [done|lia]. }
  rewrite Hs in Hfin.
  unfold verify_io_block, retry_fuel. cbn [verify_io_LABEL].
  unfold on_io_desc, on_io_digest.
  unfold bind, get, modify, ret, tell. rewrite Hh.
  cbn -[verity_for_bv_block].
  rewrite (verity_hash_init_ok X v _ 0 Hcr).
  change (engine_of 0) with tfm_sha2ce. fold d0.
  cbn -[verity_for_bv_block].
  unfold verity_for_bv_block.
  change (Z.to_nat (u32 (Z.shiftl 1 (data_dev_block_bits v)))) with bs.
  rewrite Hiter.
  change (set_io_desc d0 (set_io_want_digest want s1)) with s2.
  rewrite Hrun. cbn. rewrite Hfin.
  destruct (Z.ltb_spec rf 0); [lia|]. cbn. rewrite Hm. cbn.
  eexists. split; [reflexivity|]. cbn. by rewrite Hpages.
Qed.

(** X12. A data block whose digest by the primary transform, salted as the
    format version prescribes, equals the expected digest is accepted on the
    first attempt: the pass goes on to the next block having hashed exactly
    the next [1 << data_dev_block_bits] bytes of the payload, the payload is
    unchanged, the iterator has advanced by one block, and neither the
    fallback transform nor the decoder nor the policy has run. *)
Theorem verify_io_block_accepts (X : externals) (v : dm_verity)
  (block b : Z) (s s1 : state) (want : list byte) (t1 : list event) :
  let bs := Z.to_nat (u32 (Z.shiftl 1 (data_dev_block_bits v))) in
  let P := flat_pos (bio_pages s) (io_iter s) in
  let chunk := take bs (drop P (concat (bio_pages s))) in
  crypto_no_error X → 0 ≤ version v →
  verity_hash_for_block X v (u64 (block + b)) (io_want_digest s) s
  = Some ((0, want, false), s1, t1) →
  bio_wf (bio_pages s) (io_iter s) →
  (0 < bs ≤ bi_size (io_iter s))%nat →
  memcmp_eq (crypto_shash_digest X tfm_sha2ce (salted v chunk)) want
    (digest_size v) = true →
  ∃ s',
    verify_io_block X v block b s
    = Some (None, s',
            t1 ++ [EvHash DM_VERITY_BLOCK_TYPE_DATA (u64 (block + b))
                     tfm_sha2ce])
    ∧ bio_pages s' = bio_pages s
    ∧ bio_wf (bio_pages s') (io_iter s')
    ∧ bi_size (io_iter s') = (bi_size (io_iter s) - bs)%nat
    ∧ flat_pos (bio_pages s') (io_iter s') = (P + bs)%nat
    ∧ io_want_digest s' = want
    ∧ bufio s' = bufio s1
    ∧ hash_failed s' = hash_failed s1
    ∧ corrupted_errs s' = corrupted_errs s1
    ∧ nve_vmode s' = nve_vmode s1.
Proof. apply verify_io_block_first_attempt. Qed.

#[local] Transparent verity_hash_for_block verity_hash_init verity_hash_final.

#[local] Transparent verity_hash_sel_sha memcmp_eq memcpy_from.

Lemma verify_io_block_accepts_witness :
  ∃ s' t,
    verify_io_block toy_externals v_tree 0 0 st_tree_verified
    = Some (None, s', t)
    ∧ bio_pages s' = bio_pages st_tree_verified
    ∧ bi_size (io_iter s') = 0%nat.
Proof.
  destruct (verify_io_block_accepts toy_externals v_tree 0 0 st_tree_verified
              st_tree_verified (replicate 32 x11)
              [EvBufioRead 1; EvBufioRelease 1])
    as (s' & Hrun & Hpages & _ & Hsz & _).
  - repeat split; intros; vm_compute; discriminate.
  - vm_compute. discriminate.
  - vm_compute. reflexivity.
  - split; [repeat constructor; discriminate|].
    split; [intros _; vm_compute; lia|vm_compute; lia].
  - vm_compute. lia.
  - vm_compute. reflexivity.
  - eexists s', _. split; [exact Hrun|]. split; [exact Hpages|exact Hsz].
Defined.

#[local] Opaque verity_hash_sel_sha memcmp_eq memcpy_from.

Lemma verity_handle_err_eio (X : externals) v ty block s :
  mode v = DM_VERITY_MODE_EIO →
  ∃ s' t, verity_handle_err X v ty block s = Some (1, s', t)
          ∧ hash_failed s' = 1 ∧ bio_pages s' = bio_pages s
          ∧ io_iter s' = io_iter s ∧ bufio s' = bufio s
          ∧ List.filter (is_attempt ty) t = [EvHandleErr ty block].
Proof.
  intros Hm. unfold verity_handle_err, DM_VERITY_MAX_CORRUPTED_ERRS.
  unfold bind, tell, modify, get, ret. rewrite Hm.
  rewrite !bool_decide_eq_false_2 by done. cbn.
  destruct (100 <=? corrupted_errs s); cbn; eexists _, _;
    (split; [reflexivity|]); cbn; rewrite bool_decide_eq_true_2 by done; done.
Qed.

#[local] Opaque verity_hash_for_block verity_hash_init verity_hash_final
  verity_handle_err.


#[local] Transparent verity_hash_for_block verity_hash_init verity_hash_final
  verity_handle_err.

#[local] Transparent verity_hash_sel_sha memcmp_eq memcpy_from.


#[local] Opaque verity_hash_sel_sha memcmp_eq memcpy_from.

(** ** Verifying a whole io *)

Lemma verify_io_loop_intact (X : externals) v block n s k b s0 :
  let bs := Z.to_nat (u32 (Z.shiftl 1 (data_dev_block_bits v))) in
  let P := flat_pos (bio_pages s) (io_iter s) in
  crypto_no_error X → 0 ≤ version v → levels v ≠ 0 → (0 < bs)%nat →
  (∀ b, 0 ≤ b < n → block_intact X v s block P b) →
  0 ≤ b → b + Z.of_nat k ≤ n → n < 2 ^ 32 →
  bufio s0 = bufio s → bio_pages s0 = bio_pages s →
  bio_wf (bio_pages s0) (io_iter s0) →
  flat_pos (bio_pages s0) (io_iter s0) = (P + Z.to_nat b * bs)%nat →
  (k * bs ≤ bi_size (io_iter s0))%nat →
  ∃ s' t,
    verify_io_loop X k v block b s0 = Some (0, s', t)
    ∧ bio_pages s' = bio_pages s
    ∧ bufio s' = bufio s
    ∧ bio_wf (bio_pages s') (io_iter s')
    ∧ bi_size (io_iter s') = (bi_size (io_iter s0) - k * bs)%nat
    ∧ flat_pos (bio_pages s') (io_iter s')
      = (P + (Z.to_nat b + k) * bs)%nat
    ∧ hash_failed s' = hash_failed s0
    ∧ corrupted_errs s' = corrupted_errs s0
    ∧ nve_vmode s' = nve_vmode s0
    ∧ length (List.filter (is_attempt DM_VERITY_BLOCK_TYPE_DATA) t) = k
    ∧ Forall (λ e, is_attempt DM_VERITY_BLOCK_TYPE_DATA e = true →
                   ∃ c, e = EvHash DM_VERITY_BLOCK_TYPE_DATA c tfm_sha2ce) t.
Proof.
  intros bs P Hcr Hver Hlv Hbs Hall. revert b s0.
  induction k as [|k IH]; intros b s0 Hb Hbn Hn Hbuf Hpages Hwf Hpos Hsz.
  - exists s0, []. cbn. rewrite Nat.add_0_r, Nat.sub_0_r.
    split_and!; done.
  - destruct (Hall b ltac:(lia)) as (want & Hc & Hz & Hm).
    assert (digest_cached v s0 (u64 (block + b)) want) as Hc0
      by (unfold digest_cached; by rewrite Hbuf).
    pose proof (hash_for_block_cached_run X v _ (io_want_digest s0) _ _
                  Hlv Hc0) as Hh.
    rewrite Hz in Hh.
    destruct (verify_io_block_first_attempt X v block b s0 s0 want _
                Hcr Hver Hh Hwf)
      as (s1 & Hrun & Hp1 & Hwf1 & Hsz1 & Hpos1 & _ & Hb1 & Hf1 & Hc1 & Hn1).
    { fold bs. cbn in Hsz. lia. }
    { fold bs. rewrite Hpos, Hpages. exact Hm. }
    fold bs in Hsz1, Hpos1.
    destruct (IH (u32 (b + 1)) s1) as (s' & t & Hloop & Hrest).
    + unfold u32. apply Z.mod_pos_bound. lia.
    + rewrite u32_small by lia. lia.
    + done.
    + congruence.
    + congruence.
    + done.
    + rewrite Hpos1, Hpos, u32_small by lia.
      replace (Z.to_nat (b + 1)) with (S (Z.to_nat b)) by lia. lia.
    + rewrite Hsz1. cbn in Hsz. lia.
    + destruct Hrest as (Hp' & Hb' & Hwf' & Hsz' & Hpos' & Hf' & Hc' & Hn' & Hlen & Hall').
      cbn [verify_io_loop]. unfold bind. rewrite Hrun. rewrite Hloop.
      eexists _, _. split; [reflexivity|].
      split; [done|]. split; [done|]. split; [done|].
      split; [rewrite Hsz', Hsz1; cbn; lia|].
      split.
      { rewrite Hpos', u32_small by lia.
        replace (Z.to_nat (b + 1)) with (S (Z.to_nat b)) by lia. lia. }
      split; [congruence|]. split; [congruence|]. split; [congruence|].
      rewrite !List.filter_app, !length_app. cbn.
      rewrite bool_decide_eq_true_2 by done. cbn.
      split.
      { by rewrite Hlen. }
      repeat (constructor; [cbn; eauto; done|]). done.
Qed.

(** X14. An io over [n] data blocks whose expected digests are cached in
    verified level-0 hash blocks, none of them the zero digest, and whose
    payload hashes block by block to those digests under the primary
    transform, verifies: [verity_verify_io] returns 0 after exactly one hash
    attempt per block, all by the primary transform, with the payload, the
    buffer cache and the corruption state unchanged and the iterator advanced
    by [n] blocks. *)
Theorem verify_io_intact (X : externals) (v : dm_verity) (block n : Z)
  (s : state) :
  let bs := Z.to_nat (u32 (Z.shiftl 1 (data_dev_block_bits v))) in
  let P := flat_pos (bio_pages s) (io_iter s) in
  crypto_no_error X → 0 ≤ version v → levels v ≠ 0 → (0 < bs)%nat →
  0 ≤ n < 2 ^ 32 →
  bio_wf (bio_pages s) (io_iter s) →
  (Z.to_nat n * bs ≤ bi_size (io_iter s))%nat →
  (∀ b, 0 ≤ b < n → block_intact X v s block P b) →
  ∃ s' t,
    verity_verify_io X v block n s = Some (0, s', t)
    ∧ bio_pages s' = bio_pages s
    ∧ bufio s' = bufio s
    ∧ bi_size (io_iter s') = (bi_size (io_iter s) - Z.to_nat n * bs)%nat
    ∧ flat_pos (bio_pages s') (io_iter s') = (P + Z.to_nat n * bs)%nat
    ∧ hash_failed s' = hash_failed s
    ∧ corrupted_errs s' = corrupted_errs s
    ∧ length (List.filter (is_attempt DM_VERITY_BLOCK_TYPE_DATA) t)
      = Z.to_nat n
    ∧ Forall (λ e, is_attempt DM_VERITY_BLOCK_TYPE_DATA e = true →
                   ∃ c, e = EvHash DM_VERITY_BLOCK_TYPE_DATA c tfm_sha2ce) t.
Proof.
  intros bs P Hcr Hver Hlv Hbs Hn Hwf Hsz Hall.
  destruct (verify_io_loop_intact X v block n s (Z.to_nat n) 0 s
              Hcr Hver Hlv Hbs Hall)
    as (s' & t & Hrun & Hp & Hb & _ & Hsz' & Hpos & Hf & Hc & _ & Hlen & Ht);
    try done; try lia.
  exists s', t. unfold verity_verify_io. split_and!; done.
Qed.

#[local] Transparent verity_hash_sel_sha memcmp_eq memcpy_from.

Lemma verify_io_intact_witness :
  ∃ s' t,
    verity_verify_io toy_externals v_tree 0 1 st_tree_verified
    = Some (0, s', t)
    ∧ bio_pages s' = bio_pages st_tree_verified
    ∧ hash_failed s' = hash_failed st_tree_verified.
Proof.
  destruct (verify_io_intact toy_externals v_tree 0 1 st_tree_verified)
    as (s' & t & Hrun & Hp & _ & _ & _ & Hf & _).
  - repeat split; intros; vm_compute; discriminate.
  - vm_compute. discriminate.
  - vm_compute. discriminate.
  - vm_compute. lia.
  - lia.
  - split; [repeat constructor; discriminate|].
    split; [intros _; vm_compute; lia|vm_compute; lia].
  - vm_compute. lia.
  - intros b Hb. assert (b = 0) as -> by lia.
    exists (replicate 32 x11). split.
    + eexists. split; [vm_compute; reflexivity|].
      split; [vm_compute; discriminate|vm_compute; reflexivity].
    + split; vm_compute; reflexivity.
  - exists s', t. split; [exact Hrun|]. split; [exact Hp|exact Hf].
Defined.

#[local] Opaque verity_hash_sel_sha memcmp_eq memcpy_from.

(** ** Prefetch *)





Lemma verity_ctr_hash_blocks_range (X : externals) e a v :
  verity_ctr X e a = Some (inr v) → hash_start v ≤ hash_blocks v < 2 ^ 64.
Proof.
  intros Hctr.
  apply verity_ctr_geometry in Hctr
    as (Hhpb & Hdb & Hhs & Hlv & Htop & Hloop).
  destruct (Z.to_nat (levels v)) as [|m] eqn:Em.
  - injection Hloop as <- _. lia.
  - destruct Htop as [Hsh Hdbp]; [lia|].
    assert (2 ^ (hash_per_block_bits v * levels v) ≤ 2 ^ 63)
      by (apply Z.pow_le_mono_r; lia).
    apply hash_level_loop_spec in Hloop as (Hfit & _);
      [done|lia..|rewrite length_replicate; lia].
Qed.





(** ** Mapping a bio *)




(** ** Nodes of the tree on the hash device *)




(** ** What the constructor checks *)

(** X18. Every table line the constructor accepts is well formed: the
    format version is at most 1; both block sizes are powers of two, the data
    block size between the logical block size of the data device and the
    page size, the hash block size at least the logical block size of the
    hash device and at most [INT_MAX]; the data blocks cover the target; two
    digests fit a hash block; the root digest has the size of a digest; and
    the tree ends inside the hash device. *)
Theorem ctr_accepts_only_well_formed (X : externals) (e : ctr_env)
  (a : verity_args) (v : dm_verity) :
  verity_ctr X e a = Some (inr v) →
  version v = arg_version a ∧ version v ≤ 1
  ∧ 2 ^ data_dev_block_bits v = arg_data_block_size a
  ∧ data_logical_block_size e ≤ 2 ^ data_dev_block_bits v ≤ PAGE_SIZE e
  ∧ 2 ^ hash_dev_block_bits v = arg_hash_block_size a
  ∧ hash_logical_block_size e ≤ 2 ^ hash_dev_block_bits v ≤ INT_MAX
  ∧ ti_len e ≤ data_blocks v * 2 ^ (data_dev_block_bits v - SECTOR_SHIFT)
  ∧ 2 * digest_size v ≤ 2 ^ hash_dev_block_bits v
  ∧ Z.of_nat (length (root_digest v)) = digest_size v
  ∧ hash_start v ≤ hash_blocks v ≤ hash_dev_size e.
Proof.
  intros Hctr.
  pose proof (verity_ctr_hash_blocks_range _ _ _ _ Hctr) as Hhb.
  pose proof (verity_ctr_digests_fit _ _ _ _ Hctr) as (Hhbits & Hd & _ & _).
  pose proof Hctr as Hctr'.
  apply verity_ctr_inv in Hctr' as (v0 & Hargs & Htree).
  pose proof (verity_ctr_args_block_sizes _ _ _ _ Hargs)
    as (Hdb & Hdmax & Hhb2 & Hhmax).
  pose proof (verity_ctr_args_inv _ _ _ _ Hargs)
    as (Hver & _ & _ & Hdbits & _ & _ & [Hdb0 Hdb1] & _ & _ & _ & Hle & _
        & Hlen & _).
  assert (hash_blocks v ≤ hash_dev_size e) as Hdev.
  { unfold verity_ctr_tree in Htree. revert Htree. ctr_cases.
    intros [= <-]. cbn. lia. }
  assert (version v0 ≤ 1
          ∧ data_logical_block_size e ≤ arg_data_block_size a
          ∧ hash_logical_block_size e ≤ arg_hash_block_size a
          ∧ ti_len e
            ≤ u64 (Z.shiftl (data_blocks v0)
                     (data_dev_block_bits v0 - SECTOR_SHIFT)))
    as (Hv1 & Hdl & Hhl & Hti).
  { revert Hargs. unfold verity_ctr_args. ctr_cases. intros [= <-]. cbn.
    repeat match goal with
           | H : (_ || _) = false |- _ => apply orb_false_elim in H as [? ?]
           | H : (_ <? _) = false |- _ => apply Z.ltb_ge in H
           end.
    done. }
  apply verity_ctr_tree_inv in Htree
    as (_ & _ & _ & _ & Hv & Hb & Hh & Hds & _ & Hroot & _ & Hdbe & _).
  rewrite <- Hv in Hver, Hv1. rewrite <- Hb in Hdb, Hdbits, Hti, Hdb1.
  rewrite <- Hh in Hhb2, Hle. rewrite <- Hds in Hle, Hlen.
  rewrite <- Hroot in Hlen. rewrite <- Hdbe in Hti, Hdb0, Hdb1.
  unfold SECTOR_SHIFT in *.
  rewrite Z.shiftl_mul_pow2, u64_small in Hti by lia.
  unfold u32 in Hle. rewrite shiftl_1_pow2 in Hle by lia.
  assert (2 ^ hash_dev_block_bits v ≤ 2 ^ 30) by (apply Z.pow_le_mono_r; lia).
  assert (2 * digest_size v ≤ 2 ^ hash_dev_block_bits v).
  { destruct (Z.lt_ge_cases (digest_size v * 2) (2 ^ 32)) as [Hs|Hs].
    - rewrite Z.mod_small in Hle by lia. lia.
    - exfalso.
      pose proof (verity_ctr_digests_fit _ _ _ _ Hctr) as (_ & _ & Hp & Hfit).
      assert (2 ^ 1 ≤ 2 ^ hash_per_block_bits v)
        by (apply Z.pow_le_mono_r; lia). nia. }
  split_and!; try done; try lia.
Qed.

Lemma ctr_accepts_only_well_formed_witness :
  ∃ v, verity_ctr toy_externals env_4k (args_4k 5) = Some (inr v)
       ∧ hash_blocks v ≤ hash_dev_size env_4k.
Proof.
  destruct (verity_ctr toy_externals env_4k (args_4k 5)) as [[r|v]|] eqn:E;
    [vm_compute in E; discriminate| |vm_compute in E; discriminate].
  exists v. split; [reflexivity|].
  destruct (ctr_accepts_only_well_formed toy_externals env_4k (args_4k 5) v E)
    as (_ & _ & _ & _ & _ & _ & _ & _ & _ & _ & H).
  exact H.
Defined.

(** ** A hash block nobody can vouch for *)

#[local] Opaque verity_handle_err.

(** X19. In the mode that fails io, when both transforms reject an
    unverified hash block and the decoder cannot repair it,
    [verity_verify_level] returns [-EIO] after the full sequence of attempts,
    leaves the caller's digest as it was, has [hash_failed] set, and leaves
    the block in the cache unverified, so that the next io that needs it
    checks it again. *)
Theorem verify_level_rejects (X : externals) (v : dm_verity)
  (block level : Z) (want : list byte) (s : state) (buf : dm_buffer) :
  let hb := (verity_hash_at_level v block level).1 in
  let content := take (Z.to_nat (Z.shiftl 1 (hash_dev_block_bits v))) (b_data buf) in
  mode v = DM_VERITY_MODE_EIO →
  tree_block X s hb = Some buf →
  hash_verified (b_aux buf) = 0 →
  digest_mismatch X v 0 content want →
  digest_mismatch X v 1 content want →
  fec_repair_buffer X DM_VERITY_BLOCK_TYPE_METADATA hb (b_data buf) = None →
  ∃ s' t,
    verity_verify_level X v block level false want s
    = Some ((- EIO, want), s', t)
    ∧ List.filter (is_attempt DM_VERITY_BLOCK_TYPE_METADATA) t
      = attempt_sequence DM_VERITY_BLOCK_TYPE_METADATA hb
    ∧ hash_failed s' = 1
    ∧ bufio s' !! hb = Some buf.
Proof.
  cbv zeta.
  destruct (verity_hash_at_level v block level) as [hb off] eqn:Eh.
  cbn [fst snd].
  intros Hmode Hb Hflag (r1 & d1 & Hd1 & Hr1 & Hm1)
    (r2 & d2 & Hd2 & Hr2 & Hm2) Hfec.
  destruct (dm_bufio_read_tree_block _ _ _ _ Hb) as (s1 & Hread & Hbuf & _ & _).
  unfold digest_of in Hd1, Hd2.
  destruct (verity_hash_sel_sha X v _ _ 0) as [[r1' desc1] o1] eqn:E1.
  destruct (verity_hash_sel_sha X v _ _ 1) as [[r2' desc2] o2] eqn:E2.
  injection Hd1 as -> ->. injection Hd2 as -> ->.
  unfold verity_verify_level. rewrite Eh.
  unfold bind at 1. rewrite Hread. rewrite Hflag. cbn [Z.eqb].
  unfold retry_fuel, verify_level_LABEL, on_io_digest, verity_fec_decode,
    verity_dsm, write_hw_hash_err_nv, print_block_data, dm_bufio_release, when.
  unfold bind, tell, modify, get, ret. cbn.
  rewrite !(buffer_at_lookup _ hb buf) by exact Hbuf.
  rewrite (verity_hash_sel_sha_desc X v _ {| tfm := tfm_sha2ce; fed := [] |}), E1.
  destruct (Z.ltb_spec r1 0); [lia|]. cbn. rewrite Hm1.
  change (u32 (0 + 1)) with 1. cbn.
  rewrite !(buffer_at_lookup _ hb buf) by exact Hbuf.
  rewrite (verity_hash_sel_sha_desc X v _ {| tfm := tfm_sha2ce; fed := [] |}), E2.
  destruct (Z.ltb_spec r2 0); [lia|]. cbn. rewrite Hm2.
  change (u32 (1 + 1)) with 2. cbn.
  rewrite !(buffer_at_lookup _ hb buf) by exact Hbuf. rewrite Hfec. cbn.
  change (- EIO =? 0) with false. cbn.
  match goal with
  | |- context [verity_handle_err X v ?ty hb ?st] =>
      destruct (verity_handle_err_eio X v ty hb st Hmode)
        as (se & te & Herr & Hf & _ & _ & Hbe & Ht);
      rewrite Herr
  end.
  destruct (CONFIG_HUAWEI_DSM X); cbn;
    (eexists _, _; split; [reflexivity|]); cbn;
    rewrite ?List.filter_app, Ht; cbn; rewrite Hbe; cbn; done.
Qed.

#[local] Transparent verity_handle_err.
#[local] Transparent verity_hash_sel_sha memcmp_eq memcpy_from.

Lemma verify_level_rejects_witness :
  ∃ s' t,
    verity_verify_level toy_externals v_tree 0 1 false (replicate 32 x33)
      st_tree
    = Some ((- EIO, replicate 32 x33), s', t)
    ∧ hash_failed s' = 1.
Proof.
  destruct (verify_level_rejects toy_externals v_tree 0 1
              (replicate 32 x33) st_tree buf_x11)
    as (s' & t & Hrun & _ & Hf & _).
  - reflexivity.
  - reflexivity.
  - reflexivity.
  - exists 0, (replicate 32 x11). vm_compute. intuition discriminate.
  - exists 0, (replicate 32 x11). vm_compute. intuition discriminate.
  - reflexivity.
  - exists s', t. split; [exact Hrun|exact Hf].
Defined.

#[local] Opaque verity_hash_sel_sha memcmp_eq memcpy_from.

(** ** The order in which the tree is read *)

Lemma walk_reads_S v block n :
  walk_reads v block (S n)
  = EvBufioRead (verity_hash_at_level v block (Z.of_nat n)).1
    :: walk_reads v block n.
Proof. unfold walk_reads. by rewrite seq_S, rev_app_distr. Qed.

Lemma hash_for_block_loop_reads (X : externals) v block n r d s r' d' s' t :
  hash_for_block_loop X n v block r d s = Some ((r', d'), s', t) →
  List.filter is_bufio_read t `prefix_of` walk_reads v block n
  ∧ (r' = 0 ∨ n = 0%nat → List.filter is_bufio_read t = walk_reads v block n).
Proof.
  revert r d s t. induction n as [|n IH]; intros r d s t; cbn [hash_for_block_loop].
  - intros [= <- <- <- <-]. done.
  - unfold bind.
    destruct (verity_verify_level X v block (Z.of_nat n) false d s)
      as [[[[r1 d1] s1] t1]|] eqn:E1; [|done].
    pose proof (verify_level_reads_once _ _ _ _ _ _ _ _ _ _ _ E1) as [Hr1 _].
    rewrite walk_reads_S.
    destruct (Z.eqb_spec r1 0) as [->|Hne]; cbn [negb].
    + destruct (hash_for_block_loop X n v block 0 d1 s1)
        as [[[[r2 d2] s2] t2]|] eqn:E2; [|done].
      intros [= <- <- <- <-]. apply IH in E2 as [Hp Hfull].
      rewrite List.filter_app, Hr1. cbn. split.
      * by apply prefix_cons.
      * intros [->|?]; [|done]. f_equal. apply Hfull. by left.
    + intros [= <- <- <- <-]. rewrite app_nil_r, Hr1. split.
      * apply prefix_cons, prefix_nil.
      * intros [?|?]; done.
Qed.

(** X20. When the tree has levels, [verity_hash_for_block] reads hash
    blocks in a fixed order: the level-0 block of the data block first, then
    one block per level from the top level down, stopping at the first level
    that fails.  A successful call has read either the level-0 block alone
    (it was verified already) or, after it, every level once. *)
Theorem hash_for_block_reads_top_down (X : externals) (v : dm_verity)
  (block : Z) (digest want : list byte) (s s' : state) (r : Z) (iz : bool)
  (t : list event) :
  levels v ≠ 0 →
  verity_hash_for_block X v block digest s = Some ((r, want, iz), s', t) →
  ∃ l,
    List.filter is_bufio_read t
    = EvBufioRead (verity_hash_at_level v block 0).1 :: l
    ∧ l `prefix_of` walk_reads v block (Z.to_nat (levels v))
    ∧ (r = 0 → l = [] ∨ l = walk_reads v block (Z.to_nat (levels v))).
Proof.
  intros Hlv. unfold verity_hash_for_block.
  destruct (Z.eqb_spec (levels v) 0) as [|_]; [done|]. cbn [negb].
  unfold bind at 1. unfold bind at 1.
  destruct (verity_verify_level X v block 0 true digest s)
    as [[[[r1 d1] s1] t1]|] eqn:E1; [|done].
  pose proof (verify_level_reads_once _ _ _ _ _ _ _ _ _ _ _ E1) as [Hr1 _].
  unfold ret at 1. cbv iota beta.
  destruct (r1 <=? 0).
  - unfold hash_for_block_out, ret.
    destruct (zero_digest v); [destruct (r1 =? 0)|]; intros [= <- <- <- <- <-];
      exists []; rewrite !app_nil_r, Hr1;
      (split; [done|]; split; [apply prefix_nil|by left]).
  - unfold bind.
    destruct (hash_for_block_loop X _ v block r1 _ s1)
      as [[[[r2 d2] s2] t2]|] eqn:E2; [|done].
    apply hash_for_block_loop_reads in E2 as [Hp Hfull].
    unfold hash_for_block_out, ret.
    destruct (zero_digest v); [destruct (r2 =? 0)|]; intros [= <- <- <- <- <-];
      exists (List.filter is_bufio_read t2);
      rewrite ?app_nil_r, !List.filter_app, ?app_nil_r, Hr1; cbn;
      rewrite ?app_nil_r;
      (split; [done|]; split; [done|]; intros ->; right; apply Hfull; by left).
Qed.

#[local] Transparent verity_hash_sel_sha memcmp_eq memcpy_from.

Lemma hash_for_block_reads_top_down_witness :
  ∃ s' t,
    verity_hash_for_block toy_externals v_tree 0 [] st_tree
    = Some ((0, replicate 32 x11, false), s', t)
    ∧ List.filter is_bufio_read t
      = [EvBufioRead 1; EvBufioRead 0; EvBufioRead 1].
Proof.
  destruct (verity_hash_for_block toy_externals v_tree 0 [] st_tree)
    as [[[[[r w] iz] s'] t]|] eqn:E; [|vm_compute in E; discriminate].
  assert (r = 0 ∧ w = replicate 32 x11 ∧ iz = false
          ∧ List.filter is_bufio_read t
            = [EvBufioRead 1; EvBufioRead 0; EvBufioRead 1])
    as (-> & -> & -> & Ht)
    by (vm_compute in E; injection E as <- <- <- _ <-; split_and!; reflexivity).
  destruct (hash_for_block_reads_top_down toy_externals v_tree 0 []
              (replicate 32 x11) st_tree s' 0 false t
              ltac:(vm_compute; discriminate) E) as (l & Hl & _).
  exists s', t. split; [reflexivity|exact Ht].
Defined.

#[local] Opaque verity_hash_sel_sha memcmp_eq memcpy_from.

(** ** Recovering a data block *)

#[local] Opaque verity_hash_for_block verity_hash_init verity_hash_final
  verity_handle_err.


#[local] Transparent verity_hash_for_block verity_hash_init verity_hash_final
  verity_handle_err.

#[local] Transparent verity_hash_sel_sha memcmp_eq memcpy_from.


#[local] Opaque verity_hash_sel_sha memcmp_eq memcpy_from.

#[local] Transparent verity_hash_sel_sha memcmp_eq memcpy_from.

Lemma verify_level_releases_buffer_witness :
  ∃ r d s' t,
    verity_verify_level toy_externals v_4k 0 0 true [] st_meta
    = Some ((r, d), s', t)
    ∧ List.filter is_bufio_release t = [EvBufioRelease 1]
    ∧ last t = Some (EvBufioRelease 1).
Proof.
  destruct (verity_verify_level toy_externals v_4k 0 0 true [] st_meta)
    as [[[[r d] s'] t]|] eqn:E; [|vm_compute in E; discriminate].
  exists r, d, s', t. split; [reflexivity|].
  exact (proj2 (proj2 (verify_level_releases_buffer toy_externals v_4k 0 0
                         true [] d st_meta s' r t E))).
Defined.

#[local] Opaque verity_hash_sel_sha memcmp_eq memcpy_from.

(** ** The table line reported by status *)






(** ** Queue limits and the alignment test *)





(** ** How the constructor fails *)




